(** * Ucotron Go SDK: the retry executor of [client.go]

    A shallow embedding of the Go client ([NewClient], [resolveNamespace],
    [retryDelay], [doRequest], [parseServerError] and the twelve endpoint
    methods) together with the properties of the retry-with-backoff policy.

    Go's [int] is taken to be the 64-bit two's complement integer of the
    common platforms; arithmetic on it wraps around.  [float64] is IEEE 754
    binary64, given by the reference implementation [SpecFloat]. *)

From Stdlib Require Import ZArith Lia Bool List Ascii.
From Stdlib Require Import Floats.SpecFloat.
From stdpp Require Import base strings gmap list pretty.

Local Open Scope Z_scope.

(** ** Machine integers *)

Module Int64.

Definition min_int : Z := - 2 ^ 63.
Definition max_int : Z := 2 ^ 63 - 1.
Definition modulus : Z := 2 ^ 64.

(** Two's complement wrap-around of an arbitrary integer. *)
Definition wrap (z : Z) : Z := (z - min_int) mod modulus + min_int.

Definition add (a b : Z) : Z := wrap (a + b).
Definition sub (a b : Z) : Z := wrap (a - b).
Definition mul (a b : Z) : Z := wrap (a * b).

Definition in_range (z : Z) : Prop := min_int <= z <= max_int.

End Int64.

(** ** IEEE 754 binary64 *)

Module Float64.

Definition prec : Z := 53.
Definition emax : Z := 1024.

(** [float64(n)] for an integer [n]: round to nearest, ties to even. *)
Definition of_int (n : Z) : spec_float := binary_normalize prec emax n 0 false.

Definition mul (x y : spec_float) : spec_float := SFmul prec emax x y.

(** [x > y]. *)
Definition gtb (x y : spec_float) : bool := SFltb y x.

(** The float nearest to [2^k]: the exact power of two inside the exponent
    range, [+Inf] above it, a subnormal or zero below it. *)
Definition exp2 (k : Z) : spec_float := binary_normalize prec emax 1 k false.

(** The integer a float is equal to, if any. *)
Definition integer (x : spec_float) : option Z :=
  match x with
  | S754_zero _ => Some 0
  | S754_finite s m e =>
      if 0 <=? e then Some (cond_Zopp s (Z.pos m * 2 ^ e))
      else if Z.pos m mod 2 ^ (- e) =? 0 then Some (cond_Zopp s (Z.pos m / 2 ^ (- e)))
      else None
  | S754_infinity _ | S754_nan => None
  end.

(** [math.Pow(2, y)].  On an integral [y], the only arguments the client
    passes, the library returns the nearest float to [2^y], which is exact
    inside the exponent range; [Pow(2, +Inf) = +Inf] and [Pow(2, -Inf) = 0].
    Other arguments are not modelled and yield NaN. *)
Definition pow2 (y : spec_float) : spec_float :=
  match integer y with
  | Some k => exp2 k
  | None =>
      match y with
      | S754_infinity false => S754_infinity false
      | S754_infinity true => S754_zero false
      | _ => S754_nan
      end
  end.

(** The integer a finite float truncates to (toward zero). *)
Definition trunc (x : spec_float) : option Z :=
  match x with
  | S754_zero _ => Some 0
  | S754_finite s m e =>
      let a := if 0 <=? e then Z.pos m * 2 ^ e else Z.pos m / 2 ^ (- e) in
      Some (if s then - a else a)
  | S754_infinity _ | S754_nan => None
  end.

(** [int64(x)]: truncation; a value outside the range of [int64], an
    infinity or a NaN converts to the "integer indefinite" value [-2^63]
    (the result of CVTTSD2SQ on amd64). *)
Definition to_int64 (x : spec_float) : Z :=
  match trunc x with
  | Some z => if (Int64.min_int <=? z) && (z <=? Int64.max_int) then z else Int64.min_int
  | None => Int64.min_int
  end.

End Float64.

(** A mantissa of exactly 53 bits, and the mantissa of a power of two. *)
Definition canonical53 (m : positive) : Prop := Z.pos (digits2_pos m) = 53.
Definition two52 : positive := 4503599627370496.

(** ** time.Duration: a count of nanoseconds in an [int64] *)

Definition Duration := Z.
Definition Millisecond : Duration := 1000000.

(** The largest number of milliseconds a [time.Duration] can hold,
    [MaxInt64 / 1000000]. *)
Definition maxDurationMs : Z := 9223372036854.

(** ** Configuration (client.go) *)

Definition namespaceHeader : string := "X-Ucotron-Namespace".
Definition defaultTimeoutMs : Z := 30000.
Definition defaultMaxRetries : Z := 3.
Definition defaultBaseDelayMs : Z := 100.
Definition defaultMaxDelayMs : Z := 5000.

Record RetryConfig := {
  MaxRetries : Z;
  BaseDelayMs : Z;
  MaxDelayMs : Z
}.

Record ClientConfig := {
  TimeoutMs : Z;
  Retry : option RetryConfig;
  DefaultNamespace : string
}.

(** [httpClient] is represented by the one field the client sets. *)
Record Client := {
  baseURL : string;
  httpClient_Timeout : Duration;
  retryConfig : RetryConfig;
  defaultNamespace : string
}.

(** [retryDelay]: exponential backoff, computed in [float64]. *)
Definition retryDelay (c : Client) (attempt : Z) : Duration :=
  let delay :=
    Float64.mul (Float64.of_int (BaseDelayMs (retryConfig c)))
                (Float64.pow2 (Float64.of_int attempt)) in
  let delay :=
    if Float64.gtb delay (Float64.of_int (MaxDelayMs (retryConfig c)))
    then Float64.of_int (MaxDelayMs (retryConfig c))
    else delay in
  Int64.mul (Float64.to_int64 delay) Millisecond.

(** [resolveNamespace]: override > default. *)
Definition resolveNamespace (c : Client) (override : string) : string :=
  if bool_decide (override ≠ "") then override else defaultNamespace c.

(** [strings.TrimRight(s, "/")]. *)
Fixpoint trimRightSlash (s : string) : string :=
  match s with
  | EmptyString => EmptyString
  | String ch rest =>
      match trimRightSlash rest with
      | EmptyString => if Ascii.eqb ch "/"%char then EmptyString else String ch EmptyString
      | t => String ch t
      end
  end.

(** [NewClient]: a nil [config] or a nil [Retry] is [None]. *)
Definition NewClient (serverURL : string) (config : option ClientConfig) : Client :=
  let serverURL := trimRightSlash serverURL in
  let timeoutMs := defaultTimeoutMs in
  let retry := {| MaxRetries := defaultMaxRetries;
                  BaseDelayMs := defaultBaseDelayMs;
                  MaxDelayMs := defaultMaxDelayMs |} in
  let defaultNS := "default" in
  let '(timeoutMs, retry, defaultNS) :=
    match config with
    | Some config =>
        let timeoutMs := if 0 <? TimeoutMs config then TimeoutMs config else timeoutMs in
        let retry :=
          match Retry config with
          | Some r =>
              let retry :=
                if 0 <=? MaxRetries r
                then {| MaxRetries := MaxRetries r; BaseDelayMs := BaseDelayMs retry; MaxDelayMs := MaxDelayMs retry |}
                else retry in
              let retry :=
                if 0 <? BaseDelayMs r
                then {| MaxRetries := MaxRetries retry; BaseDelayMs := BaseDelayMs r; MaxDelayMs := MaxDelayMs retry |}
                else retry in
              if 0 <? MaxDelayMs r
              then {| MaxRetries := MaxRetries retry; BaseDelayMs := BaseDelayMs retry; MaxDelayMs := MaxDelayMs r |}
              else retry
          | None => retry
          end in
        let defaultNS :=
          if bool_decide (DefaultNamespace config ≠ "") then DefaultNamespace config else defaultNS in
        (timeoutMs, retry, defaultNS)
    | None => (timeoutMs, retry, defaultNS)
    end in
  {| baseURL := serverURL;
     httpClient_Timeout := Int64.mul timeoutMs Millisecond;
     retryConfig := retry;
     defaultNamespace := defaultNS |}.

(** The retry settings and the timeout a configuration asks for: a field
    that is absent or invalid stands for its default. *)
Definition requestedRetry (config : option ClientConfig) : RetryConfig :=
  let r := match config with Some config => Retry config | None => None end in
  {| MaxRetries := match r with
                   | Some r => if 0 <=? MaxRetries r then MaxRetries r else defaultMaxRetries
                   | None => defaultMaxRetries
                   end;
     BaseDelayMs := match r with
                    | Some r => if 0 <? BaseDelayMs r then BaseDelayMs r else defaultBaseDelayMs
                    | None => defaultBaseDelayMs
                    end;
     MaxDelayMs := match r with
                   | Some r => if 0 <? MaxDelayMs r then MaxDelayMs r else defaultMaxDelayMs
                   | None => defaultMaxDelayMs
                   end |}.

Definition requestedTimeoutMs (config : option ClientConfig) : Z :=
  match config with
  | Some config => if 0 <? TimeoutMs config then TimeoutMs config else defaultTimeoutMs
  | None => defaultTimeoutMs
  end.

(** ** Errors (errors.go) *)

Module UcotronServerError.
Record t := { StatusCode : Z; Code : string; Message : string }.
End UcotronServerError.

Module APIErrorBody.
Record t := { Code : string; Message : string }.
End APIErrorBody.

(** The two values [ctx.Err()] can take. *)
Inductive ctxError := Canceled | DeadlineExceeded.

#[global] Instance ctxError_eq_dec : EqDecision ctxError.
Proof. solve_decision. Defined.

(** Go's [error] values that reach the executor: the three error types of
    errors.go, [ctx.Err()], an error of another package (net/http, io,
    encoding/json) and an error wrapped by [fmt.Errorf].  A nil [LastError]
    is [None]. *)
#[warnings="-register-all"]
Inductive error :=
| ServerError (e : UcotronServerError.t)
| ConnectionError (Message : string) (Cause : error)
| RetriesExhaustedError (Attempts : Z) (LastError : option error)
| ContextError (e : ctxError)
| ForeignError (description : string)
| WrappedError (message : string) (cause : error).

(** [fmt.Errorf("<message>: %w", err)]. *)
Definition fmt_Errorf (message : string) (err : error) : error := WrappedError message err.

(** What a logical call returns: [([]byte, error)] with exactly one side set. *)
Inductive CallResult :=
| Success (body : string)
| Failure (err : error).

(** ** The transport and the caller's context *)

Record Request := {
  Method : string;
  URL : string;
  Header : gmap string string;
  Body : option string
}.

(** One round trip: [httpClient.Do] followed by [io.ReadAll]. *)
Inductive RoundTrip :=
| DoError (err : error)
| ReadError (StatusCode : Z) (err : error)
| Response (StatusCode : Z) (body : string).

(** The environment of one logical call: what the round trip of each attempt
    yields, and which branch the [select] after each attempt takes
    ([Some e] when [<-ctx.Done()] fires first, with [ctx.Err() = e]). *)
Record World := {
  transport : Z -> Request -> RoundTrip;
  ctxDone : Z -> option ctxError
}.

(** The observable steps of a logical call. *)
Inductive Event :=
| EvRoundTrip (attempt : Z) (req : Request) (out : RoundTrip)
| EvBackoff (attempt : Z) (delay : Duration) (done : option ctxError).

Definition isRoundTrip (ev : Event) : bool :=
  match ev with EvRoundTrip _ _ _ => true | EvBackoff _ _ _ => false end.

Definition isBackoff (ev : Event) : bool :=
  match ev with EvRoundTrip _ _ _ => false | EvBackoff _ _ _ => true end.

(** The number of transport attempts in a trace. *)
Definition attempts (trace : list Event) : nat := length (List.filter isRoundTrip trace).

(** ** Request bodies (types.go) and per-call options (client.go) *)

Module AugmentRequest.
Record t := { Context : string; Limit : option Z }.
End AugmentRequest.

Module SearchRequest.
Record t := {
  Query : string;
  Limit : option Z;
  NodeType : option string;
  TimeRange : option (Z * Z)
}.
End SearchRequest.

Module AugmentOptions.
Record t := { Limit : option Z; Namespace : string }.
End AugmentOptions.

Module SearchOptions.
Record t := {
  Limit : option Z;
  Namespace : string;
  NodeType : option string;
  TimeRange : option (Z * Z)
}.
End SearchOptions.

Module EntityOptions.
Record t := { Namespace : string }.
End EntityOptions.

Module ListMemoriesOptions.
Record t := {
  NodeType : option string;
  Limit : option Z;
  Offset : option Z;
  Namespace : string
}.
End ListMemoriesOptions.

Module ListEntitiesOptions.
Record t := { Limit : option Z; Offset : option Z; Namespace : string }.
End ListEntitiesOptions.

Section Model.

(** [map[string]interface{}], the free-form metadata of a memory. *)
Context {Metadata : Type}.

Record LearnRequest := { LearnRequest_Output : string; LearnRequest_Metadata : option Metadata }.
Record CreateMemoryRequest := { CreateMemoryRequest_Text : string; CreateMemoryRequest_Metadata : option Metadata }.
Record UpdateMemoryRequest := { UpdateMemoryRequest_Content : option string; UpdateMemoryRequest_Metadata : option Metadata }.
Record LearnOptions := { LearnOptions_Namespace : string; LearnOptions_Metadata : option Metadata }.
Record AddMemoryOptions := { AddMemoryOptions_Namespace : string; AddMemoryOptions_Metadata : option Metadata }.

(** The values passed as [body interface{}]; [UpdateMemory] passes its
    pointer argument, which may be nil inside a non-nil interface. *)
Inductive Payload :=
| AugmentBody (r : AugmentRequest.t)
| LearnBody (r : LearnRequest)
| SearchBody (r : SearchRequest.t)
| CreateMemoryBody (r : CreateMemoryRequest)
| UpdateMemoryBody (r : option UpdateMemoryRequest).

(** The response types the endpoint methods decode into. *)
Inductive ResponseType :=
| TAugmentResponse | TLearnResponse | TSearchResponse | TCreateMemoryResponse
| TMemoryResponse | TMemoryResponseList | TEntityResponse | TEntityResponseList
| THealthResponse | TMetricsResponse.

(** The functions of Go's standard library the client calls, as parameters:
    [json.Marshal], the validation of [http.NewRequestWithContext],
    [json.Unmarshal] into an [APIErrorBody] (the struct as left by the
    decoder, and the error), [json.Unmarshal] into a response type, and
    [http.StatusText]. *)
Record GoLib := {
  json_Marshal : Payload -> string + error;
  http_NewRequestWithContext : string -> string -> option error;
  json_Unmarshal_APIErrorBody : string -> APIErrorBody.t * option error;
  json_Unmarshal : ResponseType -> string -> option error;
  http_StatusText : Z -> string
}.

Context (lib : GoLib).

(** [parseServerError]: the body as an [APIErrorBody], else the status text. *)
Definition parseServerError (statusCode : Z) (body : string) : UcotronServerError.t :=
  let '(apiErr, err) := json_Unmarshal_APIErrorBody lib body in
  match err with
  | None =>
      if bool_decide (APIErrorBody.Message apiErr ≠ "")
      then {| UcotronServerError.StatusCode := statusCode;
              UcotronServerError.Code := APIErrorBody.Code apiErr;
              UcotronServerError.Message := APIErrorBody.Message apiErr |}
      else {| UcotronServerError.StatusCode := statusCode;
              UcotronServerError.Code := http_StatusText lib statusCode;
              UcotronServerError.Message := body |}
  | Some _ =>
      {| UcotronServerError.StatusCode := statusCode;
         UcotronServerError.Code := http_StatusText lib statusCode;
         UcotronServerError.Message := body |}
  end.

(** The head of the loop body of [doRequest]: marshal the body, create the
    request and set its headers. *)
Definition newRequest (method url : string) (body : option Payload) (ns : string) : Request + error :=
  let reqBody :=
    match body with
    | Some b =>
        match json_Marshal lib b with
        | inl jsonBytes => inl (Some jsonBytes)
        | inr err => inr (fmt_Errorf "failed to marshal request body" err)
        end
    | None => inl None
    end in
  match reqBody with
  | inr err => inr err
  | inl reqBody =>
      match http_NewRequestWithContext lib method url with
      | Some err => inr (fmt_Errorf "failed to create request" err)
      | None =>
          let header := <["Accept" := "application/json"]> (∅ : gmap string string) in
          let header :=
            match body with
            | Some _ => <["Content-Type" := "application/json"]> header
            | None => header
            end in
          let header := <[namespaceHeader := ns]> header in
          inl {| Method := method; URL := url; Header := header; Body := reqBody |}
      end
  end.

(** How one pass through the loop body ends: with a [return], or at the
    end of the body (or a [continue]) after setting [lastErr]. *)
Inductive Control :=
| Return (r : CallResult)
| Continue (lastErr : error).

Definition withEvents (evs : list Event) (r : CallResult * list Event) : CallResult * list Event :=
  (fst r, evs ++ snd r).

Section Loop.

Variables (w : World) (c : Client) (method path : string) (body : option Payload).
Variables (url ns : string) (maxAttempts : Z).

(** The wait after a failed attempt [ev], which has set [lastErr]: skipped
    after the last attempt, otherwise a [select] between [ctx.Done()] and
    the backoff timer. *)
Definition backoff (attempt : Z) (ev : Event) (lastErr : error) : Control * list Event :=
  if attempt <? Int64.sub maxAttempts 1
  then
    match ctxDone w attempt with
    | Some e => (Return (Failure (ContextError e)),
                 [ev; EvBackoff attempt (retryDelay c attempt) (Some e)])
    | None => (Continue lastErr, [ev; EvBackoff attempt (retryDelay c attempt) None])
    end
  else (Continue lastErr, [ev]).

(** The loop body. *)
Definition attemptBody (attempt : Z) : Control * list Event :=
  match newRequest method url body ns with
  | inr err => (Return (Failure err), [])
  | inl req =>
      let out := transport w attempt req in
      let ev := EvRoundTrip attempt req out in
      match out with
      | DoError err =>
          backoff attempt ev
            (ConnectionError ("request to " +:+ method +:+ " " +:+ path +:+ " failed") err)
      | ReadError _ err =>
          backoff attempt ev (ConnectionError "failed to read response body" err)
      | Response statusCode respBody =>
          if (200 <=? statusCode) && (statusCode <? 300)
          then (Return (Success respBody), [ev])
          else if (400 <=? statusCode) && (statusCode <? 500)
          then (Return (Failure (ServerError (parseServerError statusCode respBody))), [ev])
          else backoff attempt ev (ServerError (parseServerError statusCode respBody))
      end
  end.

(** [for attempt := 0; attempt < maxAttempts; attempt++], followed by the
    final [return]: [left] is the number of iterations still to run,
    [maxAttempts - attempt]. *)
Fixpoint attemptLoop (left : nat) (attempt : Z) (lastErr : option error) : CallResult * list Event :=
  match left with
  | O => (Failure (RetriesExhaustedError maxAttempts lastErr), [])
  | S left' =>
      match attemptBody attempt with
      | (Return r, evs) => (r, evs)
      | (Continue err, evs) =>
          withEvents evs (attemptLoop left' (Int64.add attempt 1) (Some err))
      end
  end.

(** The error a failed round trip leaves in [lastErr]: a connection error
    for a transport failure, the parsed server error for a response that is
    neither 2xx nor 4xx; [None] for a response that ends the call. *)
Definition recordedError (out : RoundTrip) : option error :=
  match out with
  | DoError err =>
      Some (ConnectionError ("request to " +:+ method +:+ " " +:+ path +:+ " failed") err)
  | ReadError _ err => Some (ConnectionError "failed to read response body" err)
  | Response statusCode respBody =>
      if ((200 <=? statusCode) && (statusCode <? 300)) || ((400 <=? statusCode) && (statusCode <? 500))
      then None
      else Some (ServerError (parseServerError statusCode respBody))
  end.

(** One pass through the loop body, case by case. *)
Inductive Step (attempt : Z) : Control -> list Event -> Prop :=
| StepNoRequest (err : error) :
    newRequest method url body ns = inr err ->
    Step attempt (Return (Failure err)) []
| StepSuccess (req : Request) (statusCode : Z) (respBody : string) :
    newRequest method url body ns = inl req ->
    transport w attempt req = Response statusCode respBody ->
    200 <= statusCode < 300 ->
    Step attempt (Return (Success respBody))
      [EvRoundTrip attempt req (Response statusCode respBody)]
| StepClientError (req : Request) (statusCode : Z) (respBody : string) :
    newRequest method url body ns = inl req ->
    transport w attempt req = Response statusCode respBody ->
    400 <= statusCode < 500 ->
    Step attempt (Return (Failure (ServerError (parseServerError statusCode respBody))))
      [EvRoundTrip attempt req (Response statusCode respBody)]
| StepCancelled (req : Request) (err : error) (e : ctxError) :
    newRequest method url body ns = inl req ->
    recordedError (transport w attempt req) = Some err ->
    attempt < Int64.sub maxAttempts 1 ->
    ctxDone w attempt = Some e ->
    Step attempt (Return (Failure (ContextError e)))
      [EvRoundTrip attempt req (transport w attempt req);
       EvBackoff attempt (retryDelay c attempt) (Some e)]
| StepRetry (req : Request) (err : error) :
    newRequest method url body ns = inl req ->
    recordedError (transport w attempt req) = Some err ->
    attempt < Int64.sub maxAttempts 1 ->
    ctxDone w attempt = None ->
    Step attempt (Continue err)
      [EvRoundTrip attempt req (transport w attempt req);
       EvBackoff attempt (retryDelay c attempt) None]
| StepLast (req : Request) (err : error) :
    newRequest method url body ns = inl req ->
    recordedError (transport w attempt req) = Some err ->
    Int64.sub maxAttempts 1 <= attempt ->
    Step attempt (Continue err) [EvRoundTrip attempt req (transport w attempt req)].

(** The runs of the loop from [attempt] on, with [lastErr] as set so far:
    the result and the events from there to the end of the call. *)
Inductive Run : Z -> option error -> CallResult -> list Event -> Prop :=
| RunExhausted (lastErr : option error) :
    Run maxAttempts lastErr (Failure (RetriesExhaustedError maxAttempts lastErr)) []
| RunReturn (attempt : Z) (lastErr : option error) (r : CallResult) (evs : list Event) :
    0 <= attempt < maxAttempts ->
    Step attempt (Return r) evs ->
    Run attempt lastErr r evs
| RunContinue (attempt : Z) (lastErr : option error) (err : error) (evs : list Event)
    (r : CallResult) (trace : list Event) :
    0 <= attempt < maxAttempts ->
    Step attempt (Continue err) evs ->
    Run (attempt + 1) (Some err) r trace ->
    Run attempt lastErr r (evs ++ trace).

(** What the result of a run from [attempt] says about its trace: a body
    comes from a 2xx that ends the trace, a server error from a 4xx that ends
    it, the context's error from an interrupted wait, exhausted retries from
    a loop that ran to its end, and a wrapped error from a request that could
    not be built. *)
Definition resultShape (attempt : Z) (lastErr : option error) (r : CallResult)
    (trace : list Event) : Prop :=
  match r with
  | Success data =>
      exists pre k req statusCode,
        trace = pre ++ [EvRoundTrip k req (Response statusCode data)] /\
        transport w k req = Response statusCode data /\ 200 <= statusCode < 300
  | Failure (ServerError e) =>
      exists pre k req statusCode respBody,
        trace = pre ++ [EvRoundTrip k req (Response statusCode respBody)] /\
        transport w k req = Response statusCode respBody /\ 400 <= statusCode < 500 /\
        e = parseServerError statusCode respBody
  | Failure (ContextError e) =>
      exists pre k,
        trace = pre ++ [EvBackoff k (retryDelay c k) (Some e)] /\ ctxDone w k = Some e
  | Failure (RetriesExhaustedError n last) =>
      n = maxAttempts /\ Z.of_nat (attempts trace) = maxAttempts - attempt /\
      (forall k d e, In (EvBackoff k d e) trace -> e = None) /\
      ((attempt = maxAttempts /\ trace = [] /\ last = lastErr) \/
       (attempt < maxAttempts /\
        exists pre req err,
          trace = pre ++ [EvRoundTrip (maxAttempts - 1) req (transport w (maxAttempts - 1) req)] /\
          recordedError (transport w (maxAttempts - 1) req) = Some err /\ last = Some err))
  | Failure (WrappedError message cause) =>
      trace = [] /\ newRequest method url body ns = inr (WrappedError message cause)
  | Failure (ConnectionError _ _) | Failure (ForeignError _) => False
  end.

End Loop.

(** [maxAttempts := c.retryConfig.MaxRetries + 1]. *)
Definition maxAttemptsOf (c : Client) : Z := Int64.add (MaxRetries (retryConfig c)) 1.

(** [doRequest]: the result, and the round trips and waits that led to it. *)
Definition doRequest (w : World) (c : Client) (method path : string)
    (body : option Payload) (namespace : string) : CallResult * list Event :=
  let url := baseURL c +:+ path in
  let ns := resolveNamespace c namespace in
  let maxAttempts := maxAttemptsOf c in
  attemptLoop w c method path body url ns maxAttempts (Z.to_nat maxAttempts) 0 None.

(** ** The endpoint methods *)

Definition MethodGet : string := "GET".
Definition MethodPost : string := "POST".
Definition MethodPut : string := "PUT".
Definition MethodDelete : string := "DELETE".

(** [strings.Join]. *)
Fixpoint strings_Join (elems : list string) (sep : string) : string :=
  match elems with
  | [] => ""
  | [e] => e
  | e :: rest => e +:+ sep +:+ strings_Join rest sep
  end.

(** [path += "?" + strings.Join(params, "&")] when there are parameters. *)
Definition withQuery (path : string) (params : list string) : string :=
  match params with
  | [] => path
  | _ => path +:+ "?" +:+ strings_Join params "&"
  end.

(** [fmt.Sprintf("<name>=%d", *v)] for a set pointer. *)
Definition intParam (name : string) (v : option Z) : list string :=
  match v with
  | Some n => [name +:+ "=" +:+ pretty n]
  | None => []
  end.

(** The tail of an endpoint method: pass an error on, else decode the data;
    a decoded result is represented by the bytes it was decoded from. *)
Definition decodeAs (t : ResponseType) (what : string) (r : CallResult * list Event)
    : CallResult * list Event :=
  match fst r with
  | Failure err => r
  | Success data =>
      match json_Unmarshal lib t data with
      | Some err => (Failure (fmt_Errorf ("failed to parse " +:+ what +:+ " response") err), snd r)
      | None => r
      end
  end.

Definition Augment (w : World) (c : Client) (contextText : string) (opts : option AugmentOptions.t)
    : CallResult * list Event :=
  let reqBody := {| AugmentRequest.Context := contextText; AugmentRequest.Limit := None |} in
  let '(reqBody, namespace) :=
    match opts with
    | Some opts =>
        ({| AugmentRequest.Context := contextText; AugmentRequest.Limit := AugmentOptions.Limit opts |},
         AugmentOptions.Namespace opts)
    | None => (reqBody, "")
    end in
  decodeAs TAugmentResponse "augment"
    (doRequest w c MethodPost "/api/v1/augment" (Some (AugmentBody reqBody)) namespace).

Definition Learn (w : World) (c : Client) (output : string) (opts : option LearnOptions)
    : CallResult * list Event :=
  let reqBody := {| LearnRequest_Output := output; LearnRequest_Metadata := None |} in
  let '(reqBody, namespace) :=
    match opts with
    | Some opts =>
        ({| LearnRequest_Output := output; LearnRequest_Metadata := LearnOptions_Metadata opts |},
         LearnOptions_Namespace opts)
    | None => (reqBody, "")
    end in
  decodeAs TLearnResponse "learn"
    (doRequest w c MethodPost "/api/v1/learn" (Some (LearnBody reqBody)) namespace).

Definition Search (w : World) (c : Client) (query : string) (opts : option SearchOptions.t)
    : CallResult * list Event :=
  let reqBody := {| SearchRequest.Query := query; SearchRequest.Limit := None;
                    SearchRequest.NodeType := None; SearchRequest.TimeRange := None |} in
  let '(reqBody, namespace) :=
    match opts with
    | Some opts =>
        ({| SearchRequest.Query := query;
            SearchRequest.Limit := SearchOptions.Limit opts;
            SearchRequest.NodeType := SearchOptions.NodeType opts;
            SearchRequest.TimeRange := SearchOptions.TimeRange opts |},
         SearchOptions.Namespace opts)
    | None => (reqBody, "")
    end in
  decodeAs TSearchResponse "search"
    (doRequest w c MethodPost "/api/v1/memories/search" (Some (SearchBody reqBody)) namespace).

Definition AddMemory (w : World) (c : Client) (text : string) (opts : option AddMemoryOptions)
    : CallResult * list Event :=
  let reqBody := {| CreateMemoryRequest_Text := text; CreateMemoryRequest_Metadata := None |} in
  let '(reqBody, namespace) :=
    match opts with
    | Some opts =>
        ({| CreateMemoryRequest_Text := text;
            CreateMemoryRequest_Metadata := AddMemoryOptions_Metadata opts |},
         AddMemoryOptions_Namespace opts)
    | None => (reqBody, "")
    end in
  decodeAs TCreateMemoryResponse "create memory"
    (doRequest w c MethodPost "/api/v1/memories" (Some (CreateMemoryBody reqBody)) namespace).

Definition entityNamespace (opts : option EntityOptions.t) : string :=
  match opts with
  | Some opts => EntityOptions.Namespace opts
  | None => ""
  end.

Definition GetMemory (w : World) (c : Client) (id : Z) (opts : option EntityOptions.t)
    : CallResult * list Event :=
  let namespace := entityNamespace opts in
  decodeAs TMemoryResponse "memory"
    (doRequest w c MethodGet ("/api/v1/memories/" +:+ pretty id) None namespace).

Definition ListMemories (w : World) (c : Client) (opts : option ListMemoriesOptions.t)
    : CallResult * list Event :=
  let path := "/api/v1/memories" in
  let '(namespace, params) :=
    match opts with
    | Some opts =>
        (ListMemoriesOptions.Namespace opts,
         intParam "limit" (ListMemoriesOptions.Limit opts)
         ++ intParam "offset" (ListMemoriesOptions.Offset opts)
         ++ match ListMemoriesOptions.NodeType opts with
            | Some t => ["node_type=" +:+ t]
            | None => []
            end)
    | None => ("", [])
    end in
  decodeAs TMemoryResponseList "list memories"
    (doRequest w c MethodGet (withQuery path params) None namespace).

Definition UpdateMemory (w : World) (c : Client) (id : Z) (req : option UpdateMemoryRequest)
    (opts : option EntityOptions.t) : CallResult * list Event :=
  let namespace := entityNamespace opts in
  decodeAs TMemoryResponse "update memory"
    (doRequest w c MethodPut ("/api/v1/memories/" +:+ pretty id) (Some (UpdateMemoryBody req)) namespace).

(** [DeleteMemory] returns the error alone; the data of a success is dropped. *)
Definition DeleteMemory (w : World) (c : Client) (id : Z) (opts : option EntityOptions.t)
    : CallResult * list Event :=
  let namespace := entityNamespace opts in
  let r := doRequest w c MethodDelete ("/api/v1/memories/" +:+ pretty id) None namespace in
  match fst r with
  | Success _ => (Success "", snd r)
  | Failure _ => r
  end.

Definition GetEntity (w : World) (c : Client) (id : Z) (opts : option EntityOptions.t)
    : CallResult * list Event :=
  let namespace := entityNamespace opts in
  decodeAs TEntityResponse "entity"
    (doRequest w c MethodGet ("/api/v1/entities/" +:+ pretty id) None namespace).

Definition ListEntities (w : World) (c : Client) (opts : option ListEntitiesOptions.t)
    : CallResult * list Event :=
  let path := "/api/v1/entities" in
  let '(namespace, params) :=
    match opts with
    | Some opts =>
        (ListEntitiesOptions.Namespace opts,
         intParam "limit" (ListEntitiesOptions.Limit opts)
         ++ intParam "offset" (ListEntitiesOptions.Offset opts))
    | None => ("", [])
    end in
  decodeAs TEntityResponseList "list entities"
    (doRequest w c MethodGet (withQuery path params) None namespace).

Definition Health (w : World) (c : Client) : CallResult * list Event :=
  decodeAs THealthResponse "health" (doRequest w c MethodGet "/api/v1/health" None "").

Definition Metrics (w : World) (c : Client) : CallResult * list Event :=
  decodeAs TMetricsResponse "metrics" (doRequest w c MethodGet "/api/v1/metrics" None "").

(** The twelve operations of the client with their arguments. *)
Inductive Operation :=
| OpAugment (contextText : string) (opts : option AugmentOptions.t)
| OpLearn (output : string) (opts : option LearnOptions)
| OpSearch (query : string) (opts : option SearchOptions.t)
| OpAddMemory (text : string) (opts : option AddMemoryOptions)
| OpGetMemory (id : Z) (opts : option EntityOptions.t)
| OpListMemories (opts : option ListMemoriesOptions.t)
| OpUpdateMemory (id : Z) (req : option UpdateMemoryRequest) (opts : option EntityOptions.t)
| OpDeleteMemory (id : Z) (opts : option EntityOptions.t)
| OpGetEntity (id : Z) (opts : option EntityOptions.t)
| OpListEntities (opts : option ListEntitiesOptions.t)
| OpHealth
| OpMetrics.

Definition invoke (w : World) (c : Client) (op : Operation) : CallResult * list Event :=
  match op with
  | OpAugment contextText opts => Augment w c contextText opts
  | OpLearn output opts => Learn w c output opts
  | OpSearch query opts => Search w c query opts
  | OpAddMemory text opts => AddMemory w c text opts
  | OpGetMemory id opts => GetMemory w c id opts
  | OpListMemories opts => ListMemories w c opts
  | OpUpdateMemory id req opts => UpdateMemory w c id req opts
  | OpDeleteMemory id opts => DeleteMemory w c id opts
  | OpGetEntity id opts => GetEntity w c id opts
  | OpListEntities opts => ListEntities w c opts
  | OpHealth => Health w c
  | OpMetrics => Metrics w c
  end.

(** The namespace option an operation was given; [""] when it has none. *)
Definition namespaceOption (op : Operation) : string :=
  match op with
  | OpAugment _ opts => from_option AugmentOptions.Namespace "" opts
  | OpLearn _ opts => from_option LearnOptions_Namespace "" opts
  | OpSearch _ opts => from_option SearchOptions.Namespace "" opts
  | OpAddMemory _ opts => from_option AddMemoryOptions_Namespace "" opts
  | OpGetMemory _ opts | OpUpdateMemory _ _ opts | OpDeleteMemory _ opts | OpGetEntity _ opts =>
      from_option EntityOptions.Namespace "" opts
  | OpListMemories opts => from_option ListMemoriesOptions.Namespace "" opts
  | OpListEntities opts => from_option ListEntitiesOptions.Namespace "" opts
  | OpHealth | OpMetrics => ""
  end.

End Model.

Arguments GoLib : clear implicits.
Arguments Payload : clear implicits.
Arguments Operation : clear implicits.

(** [errors.Is(err, target)] for a context error [target], along the
    [Unwrap] chain of errors.go and of [fmt.Errorf]'s [%w]. *)
Fixpoint errors_Is (err : error) (target : ctxError) : bool :=
  match err with
  | ContextError e => bool_decide (e = target)
  | ConnectionError _ cause => errors_Is cause target
  | RetriesExhaustedError _ (Some last) => errors_Is last target
  | WrappedError _ cause => errors_Is cause target
  | _ => false
  end.

(** The cause of a connection-level failure of a round trip. *)
Definition transportFailure (out : RoundTrip) : option error :=
  match out with
  | DoError err | ReadError _ err => Some err
  | Response _ _ => None
  end.

(** The results a call hands to the endpoint method: a body, a server
    error, exhausted retries, the context's error, or the wrapped error of a
    request that could not be built; never a bare connection error or an
    error of the transport as it came. *)
Definition surfaced (r : CallResult) : Prop :=
  match r with
  | Success _ => True
  | Failure (ServerError _) | Failure (RetriesExhaustedError _ _)
  | Failure (ContextError _) | Failure (WrappedError _ _) => True
  | Failure (ConnectionError _ _) | Failure (ForeignError _) => False
  end.

(** A first attempt that fails: a transport failure or a 5xx response. *)
Definition retryableFailure (out : RoundTrip) : Prop :=
  match out with
  | DoError _ | ReadError _ _ => True
  | Response statusCode _ => 500 <= statusCode <= 599
  end.

(** The caller's context is cancelled (or expires) while the request of
    attempt [k] is in flight: the round trip fails with the context's error,
    and the context is done from then on. *)
Definition cancelledInFlight (w : World) (k : Z) (req : Request) (e : ctxError) : Prop :=
  exists cause,
    transportFailure (transport w k req) = Some cause /\
    errors_Is cause e = true /\
    ctxDone w k = Some e.

(** The default namespace a configuration names; [""] when it names none. *)
Definition configuredNamespace (config : option ClientConfig) : string :=
  match config with
  | Some config => DefaultNamespace config
  | None => ""
  end.

(** The namespace of a call, in the order override, configured default,
    and the literal ["default"]. *)
Definition resolvedNamespace (config : option ClientConfig) (override : string) : string :=
  if bool_decide (override ≠ "") then override
  else if bool_decide (configuredNamespace config ≠ "") then configuredNamespace config
  else "default".

(** ** [json.Unmarshal] into an [APIErrorBody] (types.go) *)

(** The value a JSON text denotes; strings and member names are held
    unquoted, a number as its literal. *)
#[warnings="-register-all"]
Inductive JSON :=
| JNull
| JBool (b : bool)
| JNumber (literal : string)
| JString (s : string)
| JArray (elems : list JSON)
| JObject (members : list (string * JSON)).

(** The two fields of [APIErrorBody], tagged [json:"code"] and
    [json:"message"]. *)
Inductive APIErrorField := FieldCode | FieldMessage.

#[global] Instance APIErrorField_eq_dec : EqDecision APIErrorField.
Proof. solve_decision. Defined.

Definition fieldName (f : APIErrorField) : string :=
  match f with FieldCode => "code" | FieldMessage => "message" end.

(** The errors of encoding/json, by the name of their type; their texts
    are not modelled. *)
Definition SyntaxError : error := ForeignError "json: SyntaxError".
Definition UnmarshalTypeError : error := ForeignError "json: UnmarshalTypeError".

Section Decoder.

(** Whether a member name selects a field name: equal, or equal up to the
    case folding of encoding/json. *)
Variable nameMatches : string -> string -> bool.

Definition fieldOf (key : string) : option APIErrorField :=
  if nameMatches key (fieldName FieldCode) then Some FieldCode
  else if nameMatches key (fieldName FieldMessage) then Some FieldMessage
  else None.

Definition setField (f : APIErrorField) (s : string) (apiErr : APIErrorBody.t) : APIErrorBody.t :=
  match f with
  | FieldCode => {| APIErrorBody.Code := s; APIErrorBody.Message := APIErrorBody.Message apiErr |}
  | FieldMessage => {| APIErrorBody.Code := APIErrorBody.Code apiErr; APIErrorBody.Message := s |}
  end.

(** [saveError]: the decoder keeps the first error and goes on. *)
Definition saveError (saved : option error) (err : error) : option error :=
  match saved with
  | Some _ => saved
  | None => Some err
  end.

(** The members of an object, in order, into the struct: a member that
    selects no field is skipped; a string is stored; [null] leaves the
    field as it is; a value of another type is skipped with a type error. *)
Fixpoint decodeMembers (members : list (string * JSON)) (apiErr : APIErrorBody.t)
    (saved : option error) : APIErrorBody.t * option error :=
  match members with
  | [] => (apiErr, saved)
  | (key, value) :: rest =>
      match fieldOf key with
      | None => decodeMembers rest apiErr saved
      | Some f =>
          match value with
          | JString s => decodeMembers rest (setField f s apiErr) saved
          | JNull => decodeMembers rest apiErr saved
          | _ => decodeMembers rest apiErr (saveError saved UnmarshalTypeError)
          end
      end
  end.

(** [json.Unmarshal(body, &apiErr)] for a zero [apiErr], on the value the
    body denotes ([None] for a text that is not valid JSON): a syntax error
    leaves the struct untouched, [null] does nothing, an object is decoded
    member by member, any other value is a type error. *)
Definition json_decode_APIErrorBody (value : option JSON) : APIErrorBody.t * option error :=
  let zero := {| APIErrorBody.Code := ""; APIErrorBody.Message := "" |} in
  match value with
  | None => (zero, Some SyntaxError)
  | Some JNull => (zero, None)
  | Some (JObject members) => decodeMembers members zero None
  | Some _ => (zero, Some UnmarshalTypeError)
  end.

(** The string an object gives for a field: that of its last member that
    selects the field and is a string. *)
Fixpoint stringMember (f : APIErrorField) (members : list (string * JSON)) : option string :=
  match members with
  | [] => None
  | (key, value) :: rest =>
      match stringMember f rest with
      | Some s => Some s
      | None =>
          match value with
          | JString s => if bool_decide (fieldOf key = Some f) then Some s else None
          | _ => None
          end
      end
  end.

(** The code and the message of an object; [""] when it gives none. *)
Definition codeOf (members : list (string * JSON)) : string :=
  default "" (stringMember FieldCode members).

Definition messageOf (members : list (string * JSON)) : string :=
  default "" (stringMember FieldMessage members).

(** Every member that selects a field is a string or [null]. *)
Definition fieldsAreStrings (members : list (string * JSON)) : bool :=
  forallb (fun member =>
             match fieldOf (fst member), snd member with
             | None, _ | Some _, JString _ | Some _, JNull => true
             | Some _, _ => false
             end) members.

End Decoder.

(** ** Scenarios for the examples *)

Definition dquote : string := String (ascii_of_nat 34) EmptyString.

(** The JSON text of an [APIErrorBody]. *)
Definition errorJSON (code message : string) : string :=
  "{" +:+ dquote +:+ "code" +:+ dquote +:+ ":" +:+ dquote +:+ code +:+ dquote +:+ ","
  +:+ dquote +:+ "message" +:+ dquote +:+ ":" +:+ dquote +:+ message +:+ dquote +:+ "}".

(** A stand-in for the standard library: it marshals every body to an empty
    object, decodes the two error bodies of the test servers, and knows the
    status texts of the codes used below. *)
Definition stubLib : GoLib unit := {|
  json_Marshal := fun _ => inl "{}";
  http_NewRequestWithContext := fun _ _ => None;
  json_Unmarshal_APIErrorBody := fun body =>
    if bool_decide (body = errorJSON "NOT_FOUND" "not found")
    then ({| APIErrorBody.Code := "NOT_FOUND"; APIErrorBody.Message := "not found" |}, None)
    else if bool_decide (body = errorJSON "UNAVAILABLE" "service unavailable")
    then ({| APIErrorBody.Code := "UNAVAILABLE"; APIErrorBody.Message := "service unavailable" |}, None)
    else if bool_decide (body = "{}")
    then ({| APIErrorBody.Code := ""; APIErrorBody.Message := "" |}, None)
    else ({| APIErrorBody.Code := ""; APIErrorBody.Message := "" |},
          Some (ForeignError "invalid character looking for beginning of value"));
  json_Unmarshal := fun _ _ => None;
  http_StatusText := fun code =>
    if code =? 404 then "Not Found"
    else if code =? 500 then "Internal Server Error"
    else if code =? 503 then "Service Unavailable"
    else ""
|}.

(** The same, for a body that [json.Marshal] rejects (metadata holding a
    channel, say). *)
Definition unmarshalableLib : GoLib unit := {|
  json_Marshal := fun _ => inr (ForeignError "json: unsupported type: chan int");
  http_NewRequestWithContext := http_NewRequestWithContext stubLib;
  json_Unmarshal_APIErrorBody := json_Unmarshal_APIErrorBody stubLib;
  json_Unmarshal := json_Unmarshal stubLib;
  http_StatusText := http_StatusText stubLib
|}.

Definition ctxNeverDone : Z -> option ctxError := fun _ => None.

(** A server that always answers 503, as in TestRetriesExhausted. *)
Definition alwaysUnavailable : World := {|
  transport := fun _ _ => Response 503 (errorJSON "UNAVAILABLE" "service unavailable");
  ctxDone := ctxNeverDone
|}.

(** A server that always answers 404, as in TestServerError4xxNotRetried. *)
Definition alwaysNotFound : World := {|
  transport := fun _ _ => Response 404 (errorJSON "NOT_FOUND" "not found");
  ctxDone := ctxNeverDone
|}.

(** A server that fails once with a 500 and a body that is not JSON, then
    answers 200. *)
Definition failsOnce : World := {|
  transport := fun attempt _ =>
    if attempt =? 0 then Response 500 "upstream crashed" else Response 200 "{}";
  ctxDone := ctxNeverDone
|}.

(** A refused connection on the first attempt, then a 200. *)
Definition refusedOnce : World := {|
  transport := fun attempt _ =>
    if attempt =? 0 then DoError (ForeignError "connection refused") else Response 200 "{}";
  ctxDone := ctxNeverDone
|}.

(** The caller's context expires while the request of every attempt is in
    flight, as in TestContextCancellation: [Do] fails with the context's
    error, and the context stays done. *)
Definition deadlineInFlight : World := {|
  transport := fun _ _ => DoError (WrappedError "Get" (ContextError DeadlineExceeded));
  ctxDone := fun _ => Some DeadlineExceeded
|}.

(** A server that always answers 503, and a caller that cancels during the
    first wait. *)
Definition cancelledWhileSleeping : World := {|
  transport := fun _ _ => Response 503 (errorJSON "UNAVAILABLE" "service unavailable");
  ctxDone := fun attempt => if attempt =? 0 then Some Canceled else None
|}.

(** A refused connection, and a caller that cancels during the first wait. *)
Definition refusedThenCancelled : World := {|
  transport := fun _ _ => DoError (ForeignError "connection refused");
  ctxDone := fun attempt => if attempt =? 0 then Some Canceled else None
|}.

Definition retryOf (maxRetries baseDelayMs maxDelayMs : Z) : option ClientConfig :=
  Some {| TimeoutMs := 0;
          Retry := Some {| MaxRetries := maxRetries; BaseDelayMs := baseDelayMs; MaxDelayMs := maxDelayMs |};
          DefaultNamespace := "" |}.

Definition testURL : string := "http://127.0.0.1:8420".

(** The GET request for [path] that a client for [testURL] sends with the
    namespace [ns]. *)
Definition getRequestOf (path ns : string) : Request := {|
  Method := MethodGet;
  URL := testURL +:+ path;
  Header := <[namespaceHeader := ns]> (<["Accept" := "application/json"]> (∅ : gmap string string));
  Body := None
|}.

Definition healthPath : string := "/api/v1/health".
Definition unavailableJSON : string := errorJSON "UNAVAILABLE" "service unavailable".
Definition notFoundJSON : string := errorJSON "NOT_FOUND" "not found".

(** Member names up to the case of ASCII letters. *)
Definition asciiLower (ch : ascii) : ascii :=
  let n := nat_of_ascii ch in
  if ((65 <=? n) && (n <=? 90))%nat then ascii_of_nat (n + 32) else ch.

Fixpoint lowerASCII (s : string) : string :=
  match s with
  | EmptyString => EmptyString
  | String ch rest => String (asciiLower ch) (lowerASCII rest)
  end.

Definition matchesASCII (key name : string) : bool :=
  bool_decide (lowerASCII key = lowerASCII name).

(** An error body with a number as code. *)
Definition numericCodeJSON : string :=
  "{" +:+ dquote +:+ "code" +:+ dquote +:+ ":123,"
  +:+ dquote +:+ "message" +:+ dquote +:+ ":" +:+ dquote +:+ "boom" +:+ dquote +:+ "}".

(** The values of the bodies used in the examples; [None] for the others,
    which are not JSON. *)
Definition parseExamples (body : string) : option JSON :=
  if bool_decide (body = notFoundJSON)
  then Some (JObject [("code", JString "NOT_FOUND"); ("message", JString "not found")])
  else if bool_decide (body = numericCodeJSON)
  then Some (JObject [("code", JNumber "123"); ("message", JString "boom")])
  else if bool_decide (body = "{}")
  then Some (JObject [])
  else if bool_decide (body = "null")
  then Some JNull
  else None.

(** The standard library with the decoder above on these bodies. *)
Definition jsonLib : GoLib unit := {|
  json_Marshal := json_Marshal stubLib;
  http_NewRequestWithContext := http_NewRequestWithContext stubLib;
  json_Unmarshal_APIErrorBody := fun body =>
    json_decode_APIErrorBody matchesASCII (parseExamples body);
  json_Unmarshal := json_Unmarshal stubLib;
  http_StatusText := fun code =>
    if code =? 400 then "Bad Request" else http_StatusText stubLib code
|}.

(** ** The error methods of errors.go *)

(** [Unwrap]: the cause of a connection error, the last error of exhausted
    retries (nil when there is none), the operand of [fmt.Errorf]'s [%w];
    the other errors of the model have no [Unwrap]. *)
Definition Unwrap (err : error) : option error :=
  match err with
  | ConnectionError _ cause => Some cause
  | RetriesExhaustedError _ last => last
  | WrappedError _ cause => Some cause
  | ServerError _ | ContextError _ | ForeignError _ => None
  end.

(** [Error()]: the three methods of errors.go, the texts of the context
    package, the text of a foreign error, and [fmt.Errorf("<message>: %w")];
    [%v] prints a nil error as [<nil>].  A connection error of the model
    always has a cause, as [doRequest] builds none without: the branch of
    its [Error] for a nil [Cause] does not arise. *)
Fixpoint Error (err : error) : string :=
  match err with
  | ServerError e =>
      "ucotron server error " +:+ pretty (UcotronServerError.StatusCode e)
      +:+ " (" +:+ UcotronServerError.Code e +:+ "): " +:+ UcotronServerError.Message e
  | ConnectionError message cause =>
      "ucotron connection error: " +:+ message +:+ ": " +:+ Error cause
  | RetriesExhaustedError n last =>
      "ucotron retries exhausted after " +:+ pretty n +:+ " attempts: "
      +:+ match last with Some e => Error e | None => "<nil>" end
  | ContextError Canceled => "context canceled"
  | ContextError DeadlineExceeded => "context deadline exceeded"
  | ForeignError description => description
  | WrappedError message cause => message +:+ ": " +:+ Error cause
  end.

(** [errors.As(err, &serverErr)] for a [*UcotronServerError] target: the
    first server error on the [Unwrap] chain. *)
Fixpoint errors_As_ServerError (err : error) : option UcotronServerError.t :=
  match err with
  | ServerError e => Some e
  | ConnectionError _ cause => errors_As_ServerError cause
  | RetriesExhaustedError _ (Some last) => errors_As_ServerError last
  | WrappedError _ cause => errors_As_ServerError cause
  | _ => None
  end.

(** [errors.As(err, &connErr)] for a [*UcotronConnectionError] target: the
    message and the cause of the first connection error on the chain. *)
Fixpoint errors_As_ConnectionError (err : error) : option (string * error) :=
  match err with
  | ConnectionError message cause => Some (message, cause)
  | RetriesExhaustedError _ (Some last) => errors_As_ConnectionError last
  | WrappedError _ cause => errors_As_ConnectionError cause
  | _ => None
  end.

(** ** Measures of a trace *)

(** The number of waits in a trace. *)
Definition waits (trace : list Event) : nat := length (List.filter isBackoff trace).

(** The attempt indices of the round trips of a trace, in order. *)
Fixpoint attemptIndices (trace : list Event) : list Z :=
  match trace with
  | [] => []
  | EvRoundTrip k _ _ :: rest => k :: attemptIndices rest
  | EvBackoff _ _ _ :: rest => attemptIndices rest
  end.

(** The time a call asks its timers for, in nanoseconds. *)
Fixpoint totalWait (trace : list Event) : Z :=
  match trace with
  | [] => 0
  | EvRoundTrip _ _ _ :: rest => totalWait rest
  | EvBackoff _ delay _ :: rest => delay + totalWait rest
  end.

(** The operations that pass a body to [doRequest]. *)
Definition sendsBody {Metadata : Type} (op : Operation Metadata) : bool :=
  match op with
  | OpAugment _ _ | OpLearn _ _ | OpSearch _ _ | OpAddMemory _ _ | OpUpdateMemory _ _ _ => true
  | OpGetMemory _ _ | OpListMemories _ | OpDeleteMemory _ _ | OpGetEntity _ _
  | OpListEntities _ | OpHealth | OpMetrics => false
  end.

(** A string that ends with a slash. *)
Fixpoint endsWithSlash (s : string) : bool :=
  match s with
  | EmptyString => false
  | String ch EmptyString => Ascii.eqb ch "/"%char
  | String _ rest => endsWithSlash rest
  end.

(** A string of slashes only. *)
Fixpoint onlySlashes (s : string) : bool :=
  match s with
  | EmptyString => true
  | String ch rest => Ascii.eqb ch "/"%char && onlySlashes rest
  end.

(** A server that answers 304 once, then 200. *)
Definition notModifiedOnce : World := {|
  transport := fun attempt _ =>
    if attempt =? 0 then Response 304 "" else Response 200 "{}";
  ctxDone := ctxNeverDone
|}.

(** A server that answers every attempt with 200 and an empty object. *)
Definition alwaysOK : World := {|
  transport := fun _ _ => Response 200 "{}";
  ctxDone := ctxNeverDone
|}.

(** The standard library with a decoder that rejects every response. *)
Definition undecodableLib : GoLib unit := {|
  json_Marshal := json_Marshal stubLib;
  http_NewRequestWithContext := http_NewRequestWithContext stubLib;
  json_Unmarshal_APIErrorBody := json_Unmarshal_APIErrorBody stubLib;
  json_Unmarshal := fun _ _ => Some (ForeignError "unexpected end of JSON input");
  http_StatusText := http_StatusText stubLib
|}.

(** * Properties *)

(** ** Facts about binary64 rounding *)

Section FloatFacts.

Lemma digits2_pos_bounds (p : positive) :
  2 ^ (Z.pos (digits2_pos p) - 1) <= Z.pos p < 2 ^ Z.pos (digits2_pos p).
Proof.
  induction p as [p IH | p IH |]; cbn [digits2_pos].
  - rewrite Pos2Z.inj_succ. replace (Z.succ (Z.pos (digits2_pos p)) - 1) with (Z.succ (Z.pos (digits2_pos p) - 1)) by lia.
    rewrite !Z.pow_succ_r by lia. lia.
  - rewrite Pos2Z.inj_succ. replace (Z.succ (Z.pos (digits2_pos p)) - 1) with (Z.succ (Z.pos (digits2_pos p) - 1)) by lia.
    rewrite !Z.pow_succ_r by lia. lia.
  - cbn. lia.
Qed.

Lemma digits2_pos_unique (p : positive) (d : Z) :
  2 ^ (d - 1) <= Z.pos p < 2 ^ d -> Z.pos (digits2_pos p) = d.
Proof.
  intros [Hlo Hhi]. pose proof (digits2_pos_bounds p) as [Blo Bhi].
  set (k := Z.pos (digits2_pos p)) in *.
  assert (0 < d).
  { destruct (Z.lt_trichotomy d 0) as [Hn | [Hz | Hp]]; auto.
    - rewrite Z.pow_neg_r in Hhi by lia. lia.
    - subst d. simpl in Hhi. lia. }
  assert (0 < k) by (unfold k; lia).
  destruct (Z.lt_trichotomy k d) as [Hlt | [Heq | Hgt]]; auto; exfalso.
  - assert (2 ^ k <= 2 ^ (d - 1)) by (apply Z.pow_le_mono_r; lia). lia.
  - assert (2 ^ d <= 2 ^ (k - 1)) by (apply Z.pow_le_mono_r; lia). lia.
Qed.

Lemma iter_xO_pow (m : positive) (n : positive) :
  Z.pos (Pos.iter xO m n) = Z.pos m * 2 ^ Z.pos n.
Proof.
  revert m. induction n as [| n IH] using Pos.peano_ind; intros m.
  - cbn. lia.
  - rewrite Pos.iter_succ, Pos2Z.inj_xO, IH, Pos2Z.inj_succ, Z.pow_succ_r by lia. lia.
Qed.


Lemma iter_pos_iter {A} (f : A -> A) (n : positive) (x : A) :
  SpecFloat.iter_pos f n x = Pos.iter f x n.
Proof.
  revert x. induction n as [n IH | n IH |]; intros x; cbn [SpecFloat.iter_pos Pos.iter].
  - rewrite !IH. rewrite <- !Pos.iter_swap. reflexivity.
  - rewrite !IH. reflexivity.
  - reflexivity.
Qed.

Lemma shr_1_iter_exact (n m : positive) :
  Pos.iter shr_1 {| shr_m := Z.pos (Pos.iter xO m n); shr_r := false; shr_s := false |} n
  = {| shr_m := Z.pos m; shr_r := false; shr_s := false |}.
Proof.
  induction n as [| n IH] using Pos.peano_ind.
  - reflexivity.
  - rewrite Pos.iter_succ_r. rewrite Pos.iter_succ. cbn [shr_1 orb]. exact IH.
Qed.

Lemma fexp_canonical (e : Z) :
  -1074 <= e -> fexp Float64.prec Float64.emax (53 + e) - e = 0.
Proof. unfold fexp, emin, Float64.prec, Float64.emax. lia. Qed.

Lemma shr_fexp_canonical (m : positive) (e : Z) :
  canonical53 m -> -1074 <= e ->
  shr_fexp Float64.prec Float64.emax (Z.pos m) e loc_Exact
  = ({| shr_m := Z.pos m; shr_r := false; shr_s := false |}, e).
Proof.
  intros Hd He. unfold shr_fexp. cbn [Zdigits2]. rewrite Hd, (fexp_canonical e He).
  reflexivity.
Qed.

(** A mantissa that already has 53 bits is not rounded. *)
Lemma round_aux_canonical (s : bool) (m : positive) (e : Z) :
  canonical53 m -> -1074 <= e ->
  binary_round_aux Float64.prec Float64.emax s (Z.pos m) e loc_Exact
  = if e <=? 971 then S754_finite s m e else S754_infinity s.
Proof.
  intros Hd He. unfold binary_round_aux.
  rewrite (shr_fexp_canonical m e Hd He). cbn [shr_m loc_of_shr_record round_nearest_even].
  rewrite (shr_fexp_canonical m e Hd He). cbn [shr_m]. reflexivity.
Qed.

Lemma digits_shift (m n : positive) :
  Z.pos (digits2_pos (Pos.iter xO m n)) = Z.pos (digits2_pos m) + Z.pos n.
Proof.
  apply digits2_pos_unique. rewrite iter_xO_pow.
  pose proof (digits2_pos_bounds m) as [Hlo Hhi].
  replace (Z.pos (digits2_pos m) + Z.pos n - 1) with ((Z.pos (digits2_pos m) - 1) + Z.pos n) by lia.
  rewrite !Z.pow_add_r by lia.
  assert (0 < 2 ^ Z.pos n) by (apply Z.pow_pos_nonneg; lia).
  split; nia.
Qed.

(** A 53-bit mantissa followed by [n] zero bits is shifted back exactly. *)
Lemma round_aux_shifted (s : bool) (m n : positive) (e : Z) :
  canonical53 m -> -1074 <= e + Z.pos n ->
  binary_round_aux Float64.prec Float64.emax s (Z.pos (Pos.iter xO m n)) e loc_Exact
  = if e + Z.pos n <=? 971 then S754_finite s m (e + Z.pos n) else S754_infinity s.
Proof.
  intros Hd He. unfold binary_round_aux.
  assert (Hs : shr_fexp Float64.prec Float64.emax (Z.pos (Pos.iter xO m n)) e loc_Exact
               = ({| shr_m := Z.pos m; shr_r := false; shr_s := false |}, e + Z.pos n)).
  { unfold shr_fexp. cbn [Zdigits2]. rewrite digits_shift, Hd.
    replace (fexp Float64.prec Float64.emax (53 + Z.pos n + e) - e) with (Z.pos n)
      by (unfold fexp, emin, Float64.prec, Float64.emax; lia).
    cbn [shr shr_record_of_loc]. rewrite iter_pos_iter, shr_1_iter_exact. reflexivity. }
  rewrite Hs. cbn [shr_m loc_of_shr_record round_nearest_even].
  rewrite (shr_fexp_canonical m _ Hd He). cbn [shr_m]. reflexivity.
Qed.


Lemma exp2_nonneg (k : Z) :
  0 <= k ->
  Float64.exp2 k = if k <=? 1023 then S754_finite false two52 (k - 52) else S754_infinity false.
Proof.
  intros Hk. unfold Float64.exp2, binary_normalize, binary_round.
  cbn [digits2_pos].
  replace (fexp Float64.prec Float64.emax (1 + k)) with (k - 52)
    by (unfold fexp, emin, Float64.prec, Float64.emax; lia).
  unfold shl_align. replace (k - 52 - k) with (-52) by lia.
  change (Pos.iter xO 1%positive 52) with two52.
  rewrite round_aux_canonical by (first [reflexivity | lia]).
  destruct (k <=? 1023) eqn:E1, (k - 52 <=? 971) eqn:E2; try reflexivity; lia.
Qed.

Lemma mul_exp2 (m : positive) (e k : Z) :
  canonical53 m -> -1074 <= e + k -> 0 <= k ->
  Float64.mul (S754_finite false m e) (Float64.exp2 k)
  = if (k <=? 1023) && (e + k <=? 971) then S754_finite false m (e + k) else S754_infinity false.
Proof.
  intros Hd He Hk. rewrite (exp2_nonneg k Hk).
  destruct (k <=? 1023) eqn:E1; cbn [andb]; [| reflexivity].
  unfold Float64.mul, SFmul. cbn [xorb].
  replace (m * two52)%positive with (Pos.iter xO m 52).
  2:{ apply Pos2Z.inj. rewrite iter_xO_pow, Pos2Z.inj_mul. reflexivity. }
  rewrite round_aux_shifted by (auto; lia).
  replace (e + (k - 52) + 52) with (e + k) by lia. reflexivity.
Qed.

(** [float64] of a positive integer below [2^53] is exact: the integer
    shifted left into a 53-bit mantissa. *)
Lemma of_int_small (p : positive) :
  Z.pos p < 2 ^ 53 ->
  exists m e, Float64.of_int (Z.pos p) = S754_finite false m e /\ canonical53 m /\
              e = Z.pos (digits2_pos p) - 53 /\ Z.pos m = Z.pos p * 2 ^ (- e).
Proof.
  intros Hp. pose proof (digits2_pos_bounds p) as [Hlo Hhi].
  set (d := Z.pos (digits2_pos p)) in *.
  assert (Hd : 1 <= d <= 53).
  { split; [unfold d; lia |].
    destruct (Z_le_gt_dec d 53) as [|Hgt]; [assumption | exfalso].
    assert (2 ^ 53 <= 2 ^ (d - 1)) by (apply Z.pow_le_mono_r; lia). lia. }
  unfold Float64.of_int, binary_normalize, binary_round. fold d.
  replace (fexp Float64.prec Float64.emax (d + 0)) with (d - 53)
    by (unfold fexp, emin, Float64.prec, Float64.emax; lia).
  unfold shl_align. destruct (d - 53 - 0) as [| q | q] eqn:Hq; try lia.
  - exists p, 0. rewrite round_aux_canonical by (unfold canonical53; fold d; lia).
    cbn [Z.leb Z.compare].
    split; [reflexivity | split; [unfold canonical53; fold d; lia | split; [lia |]]].
    cbn. lia.
  - exists (Pos.iter xO p q), (d - 53).
    assert (Hc : canonical53 (Pos.iter xO p q)) by (unfold canonical53; rewrite digits_shift; fold d; lia).
    rewrite round_aux_canonical by (auto; lia).
    replace (d - 53 <=? 971) with true by (symmetry; apply Z.leb_le; lia).
    split; [reflexivity | split; [assumption | split; [reflexivity |]]].
    rewrite iter_xO_pow. f_equal. f_equal. lia.
Qed.

Lemma shr_1_div2 (mrs : shr_record) :
  0 <= shr_m mrs -> shr_m (shr_1 mrs) = shr_m mrs / 2.
Proof.
  destruct mrs as [m r s]. cbn [shr_m]. intros Hm.
  destruct m as [| [q | q |] | q]; cbn [shr_1 shr_m]; try lia.
  - reflexivity.
  - rewrite (Pos2Z.inj_xI q). apply Z.div_unique with (r := 1); lia.
  - rewrite (Pos2Z.inj_xO q). apply Z.div_unique with (r := 0); lia.
  - reflexivity.
Qed.

Lemma shr_1_iter_div (n : positive) (mrs : shr_record) :
  0 <= shr_m mrs -> shr_m (Pos.iter shr_1 mrs n) = shr_m mrs / 2 ^ Z.pos n.
Proof.
  intros Hm. induction n as [| n IH] using Pos.peano_ind.
  - cbn [Pos.iter]. rewrite shr_1_div2 by assumption. reflexivity.
  - rewrite Pos.iter_succ, shr_1_div2.
    + rewrite IH, Pos2Z.inj_succ, Z.pow_succ_r by lia.
      rewrite Z.div_div by (try apply Z.pow_pos_nonneg; lia). f_equal. lia.
    + rewrite IH. apply Z.div_pos; [assumption | apply Z.pow_pos_nonneg; lia].
Qed.

Lemma round_nearest_even_bounds (q : Z) (l : location) :
  q <= round_nearest_even q l <= q + 1.
Proof.
  destruct l as [| []]; cbn [round_nearest_even]; try lia.
  destruct (Z.even q); lia.
Qed.

(** [float64] of an integer in [2^53, 2^63) is rounded, and the result is a
    normal number with a positive exponent. *)
Lemma of_int_large (p : positive) :
  2 ^ 53 <= Z.pos p < 2 ^ 63 ->
  exists m e, Float64.of_int (Z.pos p) = S754_finite false m e /\ canonical53 m /\ 1 <= e <= 11.
Proof.
  intros [Hp1 Hp2]. pose proof (digits2_pos_bounds p) as [Hlo Hhi].
  set (d := Z.pos (digits2_pos p)) in *.
  assert (Hd : 54 <= d <= 63).
  { split.
    - destruct (Z_le_gt_dec 54 d) as [|Hgt]; [assumption | exfalso].
      assert (2 ^ d <= 2 ^ 53) by (apply Z.pow_le_mono_r; lia). lia.
    - destruct (Z_le_gt_dec d 63) as [|Hgt]; [assumption | exfalso].
      assert (2 ^ 63 <= 2 ^ (d - 1)) by (apply Z.pow_le_mono_r; lia). lia. }
  unfold Float64.of_int, binary_normalize, binary_round. fold d.
  replace (fexp Float64.prec Float64.emax (d + 0)) with (d - 53)
    by (unfold fexp, emin, Float64.prec, Float64.emax; lia).
  unfold shl_align. destruct (d - 53 - 0) as [| s | s] eqn:Hs; try lia.
  unfold binary_round_aux.
  unfold shr_fexp at 1. cbn [Zdigits2]. fold d.
  replace (fexp Float64.prec Float64.emax (d + 0) - 0) with (Z.pos s)
    by (unfold fexp, emin, Float64.prec, Float64.emax; lia).
  cbn [shr shr_record_of_loc]. rewrite iter_pos_iter.
  set (mrs := Pos.iter shr_1 _ s).
  assert (Hq : shr_m mrs = Z.pos p / 2 ^ Z.pos s).
  { unfold mrs. rewrite shr_1_iter_div by (cbn; lia). reflexivity. }
  assert (Hpow : 2 ^ (d - 1) = 2 ^ 52 * 2 ^ Z.pos s /\ 2 ^ d = 2 ^ 53 * 2 ^ Z.pos s).
  { split; rewrite <- Z.pow_add_r by lia; f_equal; lia. }
  destruct Hpow as [Hpow1 Hpow2].
  assert (Hs0 : 0 < 2 ^ Z.pos s) by (apply Z.pow_pos_nonneg; lia).
  assert (Hqb : 2 ^ 52 <= shr_m mrs < 2 ^ 53).
  { rewrite Hq. split.
    - apply Z.div_le_lower_bound; lia.
    - apply Z.div_lt_upper_bound; lia. }
  pose proof (round_nearest_even_bounds (shr_m mrs) (loc_of_shr_record mrs)) as Hr.
  set (m1 := round_nearest_even (shr_m mrs) (loc_of_shr_record mrs)) in *.
  destruct m1 as [| p1 | p1] eqn:Hm1; try lia.
  destruct (Z.eq_dec (Z.pos p1) (2 ^ 53)) as [Htop | Hntop].
  - assert (p1 = Pos.iter xO two52 1) by (apply Pos2Z.inj; rewrite Htop; reflexivity). subst p1.
    exists two52, (0 + Z.pos s + 1).
    unfold shr_fexp. cbn [Zdigits2]. rewrite digits_shift.
    replace (fexp Float64.prec Float64.emax (Z.pos (digits2_pos two52) + 1 + (0 + Z.pos s)) - (0 + Z.pos s)) with 1
      by (change (Z.pos (digits2_pos two52)) with 53; unfold fexp, emin, Float64.prec, Float64.emax; lia).
    cbn [shr shr_record_of_loc SpecFloat.iter_pos Pos.iter shr_1 orb shr_m].
    replace (0 + Z.pos s + 1 <=? Float64.emax - Float64.prec) with true
      by (symmetry; apply Z.leb_le; unfold Float64.emax, Float64.prec; lia).
    split; [reflexivity | split; [reflexivity | lia]].
  - exists p1, (0 + Z.pos s).
    assert (Hc : canonical53 p1) by (apply digits2_pos_unique; lia).
    rewrite shr_fexp_canonical by (auto; lia). cbn [shr_m].
    replace (0 + Z.pos s <=? Float64.emax - Float64.prec) with true
      by (symmetry; apply Z.leb_le; unfold Float64.emax, Float64.prec; lia).
    split; [reflexivity | split; [assumption | lia]].
Qed.

Lemma pow2_pos (k : Z) : 0 <= k -> 0 < 2 ^ k.
Proof. intros. apply Z.pow_pos_nonneg; lia. Qed.

Lemma pow2_ge_1 (k : Z) : 0 <= k -> 1 <= 2 ^ k.
Proof. intros H. pose proof (pow2_pos k H). lia. Qed.

(** [math.Pow(2, float64(k))] is the float nearest to [2^k]: where
    [float64(k)] is rounded, both are [+Inf]. *)
Lemma pow2_of_int (k : Z) :
  0 <= k < 2 ^ 63 -> Float64.pow2 (Float64.of_int k) = Float64.exp2 k.
Proof.
  intros [Hk0 Hk]. destruct k as [| p | p]; [reflexivity | | lia].
  destruct (Z_lt_le_dec (Z.pos p) (2 ^ 53)) as [Hsmall | Hlarge].
  - destruct (of_int_small p Hsmall) as (m & e & Hf & Hc & He & Hv).
    pose proof (digits2_pos_bounds p) as [Hlo Hhi].
    assert (He0 : e <= 0).
    { assert (2 ^ (Z.pos (digits2_pos p) - 1) < 2 ^ 53) by lia.
      apply Z.pow_lt_mono_r_iff in H; lia. }
    unfold Float64.pow2. rewrite Hf. unfold Float64.integer, cond_Zopp.
    destruct (Z.leb_spec 0 e) as [Hnn | Hneg].
    + replace e with 0 in * by lia. cbn in Hv. f_equal. cbn. lia.
    + rewrite Hv, Z.mod_mul, Z.eqb_refl, Z.div_mul by (apply Z.pow_nonzero; lia).
      reflexivity.
  - destruct (of_int_large p (conj Hlarge Hk)) as (m & e & Hf & Hc & He).
    pose proof (digits2_pos_bounds m) as [Hlo _]. unfold canonical53 in Hc. rewrite Hc in Hlo.
    unfold Float64.pow2. rewrite Hf. unfold Float64.integer, cond_Zopp.
    replace (0 <=? e) with true by (symmetry; apply Z.leb_le; lia).
    pose proof (pow2_ge_1 e ltac:(lia)) as He1.
    assert (Hbig : 2 ^ 52 <= Z.pos m * 2 ^ e) by (change (53 - 1) with 52 in Hlo; nia).
    rewrite !exp2_nonneg by lia.
    replace (Z.pos m * 2 ^ e <=? 1023) with false by (symmetry; apply Z.leb_gt; lia).
    replace (Z.pos p <=? 1023) with false by (symmetry; apply Z.leb_gt; lia).
    reflexivity.
Qed.

Lemma wrap_in_range (z : Z) : Int64.in_range z -> Int64.wrap z = z.
Proof.
  unfold Int64.in_range, Int64.wrap, Int64.min_int, Int64.max_int, Int64.modulus.
  intros H. rewrite Z.mod_small by lia. lia.
Qed.

Lemma gtb_finite (m1 m2 : positive) (e1 e2 : Z) :
  Float64.gtb (S754_finite false m1 e1) (S754_finite false m2 e2)
  = (e2 <? e1) || ((e2 =? e1) && (Z.pos m2 <? Z.pos m1)).
Proof.
  unfold Float64.gtb, SFltb, SFcompare.
  destruct (Z.compare_spec e2 e1) as [He | He | He].
  - subst e2. rewrite Z.ltb_irrefl, Z.eqb_refl. cbn [orb andb].
    rewrite Pos.compare_cont_spec.
    unfold Z.ltb. cbn [Z.compare]. destruct (m2 ?= m1)%positive; reflexivity.
  - replace (e2 <? e1) with true by (symmetry; apply Z.ltb_lt; lia). reflexivity.
  - replace (e2 <? e1) with false by (symmetry; apply Z.ltb_ge; lia).
    replace (e2 =? e1) with false by (symmetry; apply Z.eqb_neq; lia). reflexivity.
Qed.

(** Truncation of a float that holds the integer [v]. *)
Lemma to_int64_exact (m : positive) (e v : Z) :
  0 <= v <= Int64.max_int ->
  (0 <= e /\ v = Z.pos m * 2 ^ e) \/ (e < 0 /\ Z.pos m = v * 2 ^ (- e)) ->
  Float64.to_int64 (S754_finite false m e) = v.
Proof.
  intros Hv Hval. unfold Float64.to_int64, Float64.trunc.
  assert (Ha : (if 0 <=? e then Z.pos m * 2 ^ e else Z.pos m / 2 ^ (- e)) = v).
  { destruct Hval as [[He Hm] | [He Hm]].
    - replace (0 <=? e) with true by (symmetry; apply Z.leb_le; lia). congruence.
    - replace (0 <=? e) with false by (symmetry; apply Z.leb_gt; lia).
      rewrite Hm. apply Z.div_mul. apply Z.pow_nonzero; lia. }
  rewrite Ha.
  replace (Int64.min_int <=? v) with true
    by (symmetry; apply Z.leb_le; unfold Int64.min_int; lia).
  replace (v <=? Int64.max_int) with true by (symmetry; apply Z.leb_le; lia).
  reflexivity.
Qed.

Lemma of_int_small_to_int64 (p : positive) :
  Z.pos p < 2 ^ 53 ->
  Float64.to_int64 (Float64.of_int (Z.pos p)) = Z.pos p.
Proof.
  intros Hp. destruct (of_int_small p Hp) as (m & e & Hf & Hc & He & Hv).
  pose proof (digits2_pos_bounds p) as [Hlo Hhi].
  rewrite Hf. apply to_int64_exact.
  - unfold Int64.max_int. lia.
  - destruct (Z.eq_dec e 0) as [E0 | E0].
    + left. rewrite E0 in *. cbn in Hv. lia.
    + right. split; [| assumption].
      assert (2 ^ (Z.pos (digits2_pos p) - 1) < 2 ^ 53) by lia.
      apply Z.pow_lt_mono_r_iff in H; lia.
Qed.

Lemma gtb_infinity (m : positive) (e : Z) :
  Float64.gtb (S754_infinity false) (S754_finite false m e) = true.
Proof. reflexivity. Qed.

(** The floating-point part of [retryDelay], on integers. *)
Lemma backoff_float (B M k : Z) :
  0 < B < 2 ^ 63 -> 0 < M < 2 ^ 53 -> 0 <= k < 2 ^ 63 ->
  Float64.to_int64
    (if Float64.gtb (Float64.mul (Float64.of_int B) (Float64.pow2 (Float64.of_int k)))
                    (Float64.of_int M)
     then Float64.of_int M
     else Float64.mul (Float64.of_int B) (Float64.pow2 (Float64.of_int k)))
  = Z.min (B * 2 ^ k) M.
Proof.
  intros HB HM Hkr. rewrite (pow2_of_int k Hkr). destruct Hkr as [Hk Hkmax].
  destruct M as [| pM | pM]; try lia. destruct B as [| pB | pB]; try lia.
  assert (HtoM := of_int_small_to_int64 pM (proj2 HM)).
  destruct (of_int_small pM (proj2 HM)) as (mM & eM & HfM & HcM & HeM & HvM).
  pose proof (digits2_pos_bounds pM) as [HMlo HMhi].
  pose proof (digits2_pos_bounds pB) as [HBlo HBhi].
  pose proof (pow2_ge_1 k Hk) as Hk1.
  set (dM := Z.pos (digits2_pos pM)) in *. set (dB := Z.pos (digits2_pos pB)) in *.
  assert (HdM : 1 <= dM <= 53).
  { split; [unfold dM; lia |].
    assert (2 ^ (dM - 1) < 2 ^ 53) by lia. apply Z.pow_lt_mono_r_iff in H; lia. }
  assert (HdB : 1 <= dB) by (unfold dB; lia).
  destruct (Z_lt_le_dec (Z.pos pB) (2 ^ 53)) as [Hsmall | Hlarge].
  - (* the base delay converts exactly *)
    destruct (of_int_small pB Hsmall) as (mB & eB & HfB & HcB & HeB & HvB). fold dB in HeB.
    assert (HdB' : dB <= 53).
    { assert (2 ^ (dB - 1) < 2 ^ 53) by lia. apply Z.pow_lt_mono_r_iff in H; lia. }
    rewrite HfB, mul_exp2 by (auto; lia).
    destruct ((k <=? 1023) && (eB + k <=? 971)) eqn:Hfin.
    + apply andb_true_iff in Hfin as [Hk2 He2]. apply Z.leb_le in Hk2, He2.
      rewrite HfM in *. rewrite gtb_finite.
      assert (Hsum : 2 ^ (dB + k) = 2 ^ dB * 2 ^ k) by (apply Z.pow_add_r; lia).
      assert (Hsum1 : 2 ^ (dB - 1 + k) = 2 ^ (dB - 1) * 2 ^ k) by (apply Z.pow_add_r; lia).
      destruct (Z.lt_trichotomy eM (eB + k)) as [Hlt | [Heq | Hgt]].
      * (* the product has more bits than the cap *)
        replace (eM <? eB + k) with true by (symmetry; apply Z.ltb_lt; lia). cbn [orb].
        rewrite HtoM.
        assert (2 ^ dM <= 2 ^ (dB - 1 + k)) by (apply Z.pow_le_mono_r; lia).
        assert (2 ^ (dB - 1) * 2 ^ k <= Z.pos pB * 2 ^ k) by (apply Z.mul_le_mono_nonneg_r; lia).
        lia.
      * (* same number of bits: the mantissas decide *)
        replace (eM <? eB + k) with false by (symmetry; apply Z.ltb_ge; lia).
        replace (eM =? eB + k) with true by (symmetry; apply Z.eqb_eq; lia). cbn [orb andb].
        assert (HmB : Z.pos mB = Z.pos pB * 2 ^ k * 2 ^ (- eM)).
        { rewrite HvB. replace (- eB) with (k + - eM) by lia.
          rewrite Z.pow_add_r by lia. lia. }
        pose proof (pow2_pos (- eM) ltac:(lia)) as Ht.
        destruct (Z.pos mM <? Z.pos mB) eqn:Hcmp.
        -- apply Z.ltb_lt in Hcmp. rewrite HtoM. rewrite HvM, HmB in Hcmp.
           apply Z.mul_lt_mono_pos_r in Hcmp; lia.
        -- apply Z.ltb_ge in Hcmp. rewrite HvM, HmB in Hcmp.
           apply Z.mul_le_mono_pos_r in Hcmp; [| lia].
           rewrite Z.min_l by lia. apply to_int64_exact.
           ++ unfold Int64.max_int. lia.
           ++ destruct (Z.eq_dec (eB + k) 0) as [E0 | E0].
              ** left. split; [lia |]. rewrite E0, HmB. replace (- eM) with 0 by lia. cbn. lia.
              ** right. split; [lia |]. rewrite HmB. f_equal. f_equal. lia.
      * (* the product has fewer bits than the cap *)
        replace (eM <? eB + k) with false by (symmetry; apply Z.ltb_ge; lia).
        replace (eM =? eB + k) with false by (symmetry; apply Z.eqb_neq; lia). cbn [orb andb].
        assert (2 ^ (dB + k) <= 2 ^ (dM - 1)) by (apply Z.pow_le_mono_r; lia).
        assert (Z.pos pB * 2 ^ k < 2 ^ dB * 2 ^ k) by (apply Z.mul_lt_mono_pos_r; lia).
        rewrite Z.min_l by lia. apply to_int64_exact.
        -- unfold Int64.max_int. lia.
        -- destruct (Z_le_gt_dec 0 (eB + k)) as [Hnn | Hneg].
           ++ left. split; [assumption |]. rewrite HvB, <- Z.mul_assoc, <- Z.pow_add_r by lia.
              f_equal. f_equal. lia.
           ++ right. split; [lia |]. rewrite HvB, <- Z.mul_assoc, <- Z.pow_add_r by lia.
              f_equal. f_equal. lia.
    + (* the product overflows to +Inf *)
      rewrite HfM in *. rewrite gtb_infinity, HtoM.
      assert (1024 <= dB + k).
      { apply andb_false_iff in Hfin as [Hf | Hf]; apply Z.leb_gt in Hf; lia. }
      assert (2 ^ 53 <= 2 ^ (dB - 1 + k)) by (apply Z.pow_le_mono_r; lia).
      assert (Hsum1 : 2 ^ (dB - 1 + k) = 2 ^ (dB - 1) * 2 ^ k) by (apply Z.pow_add_r; lia).
      assert (2 ^ (dB - 1) * 2 ^ k <= Z.pos pB * 2 ^ k) by (apply Z.mul_le_mono_nonneg_r; lia).
      lia.
  - (* the base delay is rounded, and already exceeds any cap below 2^53 *)
    destruct (of_int_large pB (conj Hlarge (proj2 HB))) as (mB & eB & HfB & HcB & HeB).
    assert (Hmin : Z.pos pM <= Z.pos pB * 2 ^ k) by nia.
    rewrite HfB, mul_exp2 by (auto; lia). rewrite HfM in *.
    destruct ((k <=? 1023) && (eB + k <=? 971)).
    + rewrite gtb_finite.
      replace (eM <? eB + k) with true by (symmetry; apply Z.ltb_lt; lia). cbn [orb].
      rewrite HtoM. lia.
    + rewrite gtb_infinity, HtoM. lia.
Qed.
End FloatFacts.

(** ** The backoff delay *)

Section Backoff.

Variable c : Client.

Let baseDelayMs : Z := BaseDelayMs (retryConfig c).
Let maxDelayMs : Z := MaxDelayMs (retryConfig c).

(** C3 (amended): for every attempt index [k >= 0] (an [int]) and every
    retry configuration with [BaseDelayMs > 0] and [0 < MaxDelayMs] no larger than
    the number of milliseconds a [time.Duration] can hold, the delay computed
    after the failure of attempt [k] is [min(BaseDelayMs * 2^k, MaxDelayMs)]
    milliseconds; the cap applies whether or not [MaxDelayMs < BaseDelayMs]. *)
Theorem retryDelay_min_formula (k : Z) :
  0 <= k <= Int64.max_int ->
  0 < baseDelayMs <= Int64.max_int ->
  0 < maxDelayMs <= maxDurationMs ->
  retryDelay c k = Z.min (baseDelayMs * 2 ^ k) maxDelayMs * Millisecond.
Proof.
  intros Hk HB HM. unfold retryDelay. cbv zeta. fold baseDelayMs maxDelayMs.
  rewrite backoff_float;
    [| unfold Int64.max_int in HB; lia | unfold maxDurationMs in HM; lia
     | unfold Int64.max_int in Hk; lia].
  unfold Int64.mul. apply wrap_in_range.
  pose proof (pow2_ge_1 k (proj1 Hk)).
  unfold Int64.in_range, Int64.min_int, Int64.max_int, Millisecond, maxDurationMs in *.
  assert (0 < Z.min (baseDelayMs * 2 ^ k) maxDelayMs <= 9223372036854) by nia.
  lia.
Qed.

End Backoff.

(** The schedule of TestRetryDelay: 100ms, 200ms, 400ms and the cap. *)
Lemma retryDelay_min_formula_witness :
  let c := NewClient testURL (retryOf 3 100 1000) in
  retryDelay c 0 = 100 * Millisecond /\ retryDelay c 1 = 200 * Millisecond /\
  retryDelay c 2 = 400 * Millisecond /\ retryDelay c 4 = 1000 * Millisecond.
Proof.
  cbv zeta. split; [| split; [| split]].
  - apply (retryDelay_min_formula (NewClient testURL (retryOf 3 100 1000)) 0); vm_compute; intuition discriminate.
  - apply (retryDelay_min_formula (NewClient testURL (retryOf 3 100 1000)) 1); vm_compute; intuition discriminate.
  - apply (retryDelay_min_formula (NewClient testURL (retryOf 3 100 1000)) 2); vm_compute; intuition discriminate.
  - apply (retryDelay_min_formula (NewClient testURL (retryOf 3 100 1000)) 4); vm_compute; intuition discriminate.
Defined.

(** C3 as stated fails once the cap exceeds what a [time.Duration] holds:
    the product with [time.Millisecond] wraps around. *)
Lemma retryDelay_counterexample :
  let c := NewClient testURL (retryOf 3 9223372036855 9223372036855) in
  0 < BaseDelayMs (retryConfig c) /\ 0 < MaxDelayMs (retryConfig c) /\
  retryDelay c 0 = -9223372036854551616 /\
  retryDelay c 0 <> Z.min (BaseDelayMs (retryConfig c) * 2 ^ 0) (MaxDelayMs (retryConfig c)) * Millisecond.
Proof. vm_compute. intuition discriminate. Qed.

(** ** Client construction *)

Lemma NewClient_retryConfig (serverURL : string) (config : option ClientConfig) :
  retryConfig (NewClient serverURL config) = requestedRetry config.
Proof.
  destruct config as [[t [[mr bd md] |] ns] |]; unfold NewClient, requestedRetry; cbn;
    [| reflexivity | reflexivity].
  destruct (0 <=? mr), (0 <? bd), (0 <? md); reflexivity.
Qed.

Lemma NewClient_timeout (serverURL : string) (config : option ClientConfig) :
  httpClient_Timeout (NewClient serverURL config)
  = Int64.mul (requestedTimeoutMs config) Millisecond.
Proof. destruct config as [[t r ns] |]; reflexivity. Qed.

(** C10 (amended): for every configuration given to [NewClient] (a nil
    config, a nil [Retry], a negative [MaxRetries], non-positive delays or
    timeout included) the client has [MaxRetries >= 0], [BaseDelayMs > 0] and
    [MaxDelayMs > 0], each invalid or absent field being replaced by its
    default (3, 100, 5000, and 30000 for the timeout) and each valid field
    taken as given; the timeout is that number of milliseconds, and positive,
    whenever it is at most the number of milliseconds a [time.Duration] can
    hold. *)
Theorem NewClient_invariant (serverURL : string) (config : option ClientConfig) :
  let c := NewClient serverURL config in
  retryConfig c = requestedRetry config /\
  0 <= MaxRetries (retryConfig c) /\
  0 < BaseDelayMs (retryConfig c) /\
  0 < MaxDelayMs (retryConfig c) /\
  0 < requestedTimeoutMs config /\
  (requestedTimeoutMs config <= maxDurationMs ->
   httpClient_Timeout c = requestedTimeoutMs config * Millisecond /\
   0 < httpClient_Timeout c).
Proof.
  cbv zeta. rewrite NewClient_retryConfig, NewClient_timeout.
  assert (Ht : 0 < requestedTimeoutMs config).
  { unfold requestedTimeoutMs, defaultTimeoutMs.
    destruct config as [cfg |]; [| lia]. destruct (Z.ltb_spec 0 (TimeoutMs cfg)); lia. }
  split; [reflexivity |]. unfold requestedRetry. cbn [MaxRetries BaseDelayMs MaxDelayMs].
  unfold defaultMaxRetries, defaultBaseDelayMs, defaultMaxDelayMs.
  set (r := match config with Some cfg => Retry cfg | None => None end).
  split; [| split; [| split; [| split; [exact Ht | intros Hfit; split]]]].
  - destruct r as [r |]; [| lia]. destruct (Z.leb_spec 0 (MaxRetries r)); lia.
  - destruct r as [r |]; [| lia]. destruct (Z.ltb_spec 0 (BaseDelayMs r)); lia.
  - destruct r as [r |]; [| lia]. destruct (Z.ltb_spec 0 (MaxDelayMs r)); lia.
  - unfold Int64.mul. apply wrap_in_range.
    unfold Int64.in_range, Int64.min_int, Int64.max_int, Millisecond, maxDurationMs in *. lia.
  - unfold Int64.mul. rewrite wrap_in_range; unfold Int64.in_range, Int64.min_int, Int64.max_int, Millisecond, maxDurationMs in *; lia.
Qed.

(** The defaults of TestNewClientDefaults, a configuration with every field
    invalid, and the custom configuration of TestNewClientCustomConfig. *)
Lemma NewClient_invariant_witness :
  httpClient_Timeout (NewClient testURL None) = 30000 * Millisecond /\
  httpClient_Timeout
    (NewClient testURL
       (Some {| TimeoutMs := -5;
                Retry := Some {| MaxRetries := -1; BaseDelayMs := 0; MaxDelayMs := -7 |};
                DefaultNamespace := "" |})) = 30000 * Millisecond /\
  httpClient_Timeout
    (NewClient "http://example.com:9999/"
       (Some {| TimeoutMs := 5000;
                Retry := Some {| MaxRetries := 5; BaseDelayMs := 200; MaxDelayMs := 10000 |};
                DefaultNamespace := "test-ns" |})) = 5000 * Millisecond.
Proof.
  split; [| split].
  - apply (NewClient_invariant testURL None). vm_compute. discriminate.
  - apply (NewClient_invariant testURL
             (Some {| TimeoutMs := -5;
                      Retry := Some {| MaxRetries := -1; BaseDelayMs := 0; MaxDelayMs := -7 |};
                      DefaultNamespace := "" |})).
    vm_compute. discriminate.
  - apply (NewClient_invariant "http://example.com:9999/"
             (Some {| TimeoutMs := 5000;
                      Retry := Some {| MaxRetries := 5; BaseDelayMs := 200; MaxDelayMs := 10000 |};
                      DefaultNamespace := "test-ns" |})).
    vm_compute. discriminate.
Defined.

(** C10 as stated fails for a huge [TimeoutMs]: [2^58] milliseconds wrap
    around to a [Timeout] of zero, which [http.Client] reads as no timeout. *)
Lemma NewClient_timeout_counterexample :
  let config := Some {| TimeoutMs := 288230376151711744; Retry := None; DefaultNamespace := "" |} in
  0 < requestedTimeoutMs config /\
  httpClient_Timeout (NewClient testURL config) = 0 /\
  ~ 0 < httpClient_Timeout (NewClient testURL config).
Proof. vm_compute. intuition discriminate. Qed.

(** ** The attempt loop *)

Lemma wrap_range (z : Z) : Int64.in_range (Int64.wrap z).
Proof.
  unfold Int64.in_range, Int64.wrap, Int64.min_int, Int64.max_int, Int64.modulus.
  pose proof (Z.mod_pos_bound (z - - 2 ^ 63) (2 ^ 64) ltac:(lia)). lia.
Qed.

Lemma add_1_in_range (a : Z) :
  Int64.min_int <= a < Int64.max_int -> Int64.add a 1 = a + 1.
Proof.
  intros H. unfold Int64.add. apply wrap_in_range.
  unfold Int64.in_range, Int64.min_int, Int64.max_int in *. lia.
Qed.

Lemma sub_1_in_range (a : Z) :
  Int64.min_int < a <= Int64.max_int -> Int64.sub a 1 = a - 1.
Proof.
  intros H. unfold Int64.sub. apply wrap_in_range.
  unfold Int64.in_range, Int64.min_int, Int64.max_int in *. lia.
Qed.

Lemma maxAttemptsOf_in_range (c : Client) : Int64.in_range (maxAttemptsOf c).
Proof. apply wrap_range. Qed.

Lemma maxAttemptsOf_succ (c : Client) :
  0 <= MaxRetries (retryConfig c) < Int64.max_int ->
  maxAttemptsOf c = MaxRetries (retryConfig c) + 1.
Proof.
  intros H. unfold maxAttemptsOf. apply add_1_in_range. unfold Int64.min_int. lia.
Qed.

(** Case analysis on the membership of an event in the events of a step. *)
Ltac events Hin :=
  cbn in Hin;
  repeat match type of Hin with
         | _ \/ _ =>
             destruct Hin as [Hin | Hin];
             [try discriminate Hin; try (inversion Hin; subst; clear Hin) |]
         | False => destruct Hin
         end.

Section LoopFacts.

Context {Metadata : Type} (lib : GoLib Metadata).
Variables (w : World) (c : Client) (method path : string) (body : option (Payload Metadata)).
Variables (url ns : string) (maxAttempts : Z).

#[local] Abbreviation loop := (attemptLoop lib w c method path body url ns maxAttempts).
#[local] Abbreviation bodyOf := (attemptBody lib w c method path body url ns maxAttempts).
#[local] Abbreviation step := (Step lib w c method path body url ns maxAttempts).
#[local] Abbreviation run := (Run lib w c method path body url ns maxAttempts).
#[local] Abbreviation recorded := (recordedError lib method path).

(** The loop body follows the case table [Step]. *)
Lemma attemptBody_Step (attempt : Z) :
  step attempt (fst (bodyOf attempt)) (snd (bodyOf attempt)).
Proof.
  unfold attemptBody.
  destruct (newRequest lib method url body ns) as [req | err] eqn:Hreq;
    [| apply StepNoRequest; assumption].
  assert (Hback : forall err,
             recorded (transport w attempt req) = Some err ->
             step attempt
               (fst (backoff w c maxAttempts attempt
                       (EvRoundTrip attempt req (transport w attempt req)) err))
               (snd (backoff w c maxAttempts attempt
                       (EvRoundTrip attempt req (transport w attempt req)) err))).
  { intros err Herr. unfold backoff.
    destruct (Z.ltb_spec attempt (Int64.sub maxAttempts 1)) as [Hlt | Hge].
    - destruct (ctxDone w attempt) as [e |] eqn:Hctx; cbn [fst snd].
      + eapply StepCancelled; eassumption.
      + eapply StepRetry; eassumption.
    - cbn [fst snd]. eapply StepLast; eassumption. }
  cbv zeta. destruct (transport w attempt req) as [err | st err | st b] eqn:Hout.
  - apply Hback. reflexivity.
  - apply Hback. reflexivity.
  - destruct ((200 <=? st) && (st <? 300)) eqn:H2.
    + cbn [fst snd].
      apply andb_true_iff in H2 as [Ha Hb]. apply Z.leb_le in Ha. apply Z.ltb_lt in Hb.
      eapply StepSuccess; eauto.
    + destruct ((400 <=? st) && (st <? 500)) eqn:H4.
      * cbn [fst snd].
        apply andb_true_iff in H4 as [Ha Hb]. apply Z.leb_le in Ha. apply Z.ltb_lt in Hb.
        eapply StepClientError; eauto.
      * apply Hback. cbn [recordedError]. rewrite H2, H4. reflexivity.
Qed.

Hypothesis maxAttempts_int : maxAttempts <= Int64.max_int.

(** The loop, run for the iterations that are left, is a [Run]. *)
Lemma attemptLoop_Run (left : nat) (attempt : Z) (lastErr : option error) :
  0 <= attempt -> attempt + Z.of_nat left = maxAttempts ->
  run attempt lastErr (fst (loop left attempt lastErr)) (snd (loop left attempt lastErr)).
Proof.
  revert attempt lastErr. induction left as [| left IH]; intros attempt lastErr Hge Hsum.
  - replace attempt with maxAttempts by lia. cbn. constructor.
  - cbn [attemptLoop]. pose proof (attemptBody_Step attempt) as Hstep.
    destruct (bodyOf attempt) as [[r | err] evs]; cbn [fst snd] in *.
    + apply RunReturn; [lia | assumption].
    + rewrite add_1_in_range by (unfold Int64.min_int; lia).
      eapply RunContinue; [lia | eassumption |]. apply IH; lia.
Qed.

(** The loop satisfies the equation of the [for] statement: [left] never
    runs out before [attempt] reaches [maxAttempts]. *)
Lemma attemptLoop_for (left : nat) (attempt : Z) (lastErr : option error) :
  0 <= attempt -> attempt + Z.of_nat left = maxAttempts ->
  loop left attempt lastErr
  = if attempt <? maxAttempts
    then match bodyOf attempt with
         | (Return r, evs) => (r, evs)
         | (Continue err, evs) =>
             withEvents evs (loop (Nat.pred left) (attempt + 1) (Some err))
         end
    else (Failure (RetriesExhaustedError maxAttempts lastErr), []).
Proof.
  intros Hge Hsum. destruct left as [| left].
  - replace (attempt <? maxAttempts) with false by (symmetry; apply Z.ltb_ge; lia). reflexivity.
  - replace (attempt <? maxAttempts) with true by (symmetry; apply Z.ltb_lt; lia).
    cbn [attemptLoop Nat.pred]. rewrite add_1_in_range by (unfold Int64.min_int; lia).
    reflexivity.
Qed.

(** *** Properties of runs *)

Lemma newRequest_error (req_err : error) :
  newRequest lib method url body ns = inr req_err ->
  exists message cause, req_err = WrappedError message cause.
Proof.
  unfold newRequest, fmt_Errorf. intros H.
  destruct body as [b |].
  - destruct (json_Marshal lib b); [| inversion H; eauto].
    destruct (http_NewRequestWithContext lib method url); inversion H; eauto.
  - destruct (http_NewRequestWithContext lib method url); inversion H; eauto.
Qed.

Lemma newRequest_header (req : Request) :
  newRequest lib method url body ns = inl req ->
  Header req !! namespaceHeader = Some ns.
Proof.
  unfold newRequest. intros H.
  destruct body as [b |].
  - destruct (json_Marshal lib b); [| discriminate].
    destruct (http_NewRequestWithContext lib method url); inversion H; subst; cbn.
    apply lookup_insert_eq.
  - destruct (http_NewRequestWithContext lib method url); inversion H; subst; cbn.
    apply lookup_insert_eq.
Qed.

(** A pass through the loop body that created its request starts with the
    round trip of that request. *)
Lemma Step_first_event (attempt : Z) (ctl : Control) (evs : list Event) (req : Request) :
  step attempt ctl evs ->
  newRequest lib method url body ns = inl req ->
  exists rest, evs = EvRoundTrip attempt req (transport w attempt req) :: rest.
Proof.
  intros Hstep Hreq.
  inversion Hstep; subst;
    match goal with
    | H : newRequest _ _ _ _ _ = _ |- _ => rewrite Hreq in H; inversion H; subst
    end;
    try match goal with
    | H : transport _ _ _ = _ |- _ => rewrite <- H
    end; eauto.
Qed.

(** Every round trip of a run sends the request [newRequest] builds, at an
    attempt index of the loop; the outcome is the transport's. *)
Lemma Run_round_trips (attempt : Z) (lastErr : option error) (r : CallResult) (trace : list Event) :
  run attempt lastErr r trace ->
  forall k req out, In (EvRoundTrip k req out) trace ->
    newRequest lib method url body ns = inl req /\ out = transport w k req /\
    attempt <= k < maxAttempts.
Proof.
  induction 1 as [lastErr | attempt lastErr r evs Hrange Hstep
                 | attempt lastErr err evs r trace Hrange Hstep Hrun IH];
    intros k req out Hin.
  - inversion Hin.
  - inversion Hstep; subst; events Hin; auto with zarith.
  - apply in_app_or in Hin as [Hin | Hin].
    + inversion Hstep; subst; events Hin; auto with zarith.
    + destruct (IH k req out Hin) as (? & ? & ?). repeat split; auto; lia.
Qed.

(** A wait that the context interrupts ends the run with the context's
    error. *)
Lemma Run_interrupted_wait (attempt : Z) (lastErr : option error) (r : CallResult) (trace : list Event) :
  run attempt lastErr r trace ->
  forall k d e, In (EvBackoff k d (Some e)) trace ->
    r = Failure (ContextError e) /\ exists pre, trace = pre ++ [EvBackoff k d (Some e)].
Proof.
  induction 1 as [lastErr | attempt lastErr r evs Hrange Hstep
                 | attempt lastErr err evs r trace Hrange Hstep Hrun IH];
    intros k d e Hin.
  - inversion Hin.
  - inversion Hstep; subst; events Hin.
    split; [reflexivity |]. eexists (cons _ nil). reflexivity.
  - apply in_app_or in Hin as [Hin | Hin].
    + inversion Hstep; subst; events Hin.
    + destruct (IH k d e Hin) as [Hr [pre Hpre]]. split; [assumption |].
      exists (evs ++ pre). rewrite Hpre, app_assoc. reflexivity.
Qed.

(** What follows a failed attempt [k], which left [err] in [lastErr]:
    the wait is interrupted and the call returns the context's error; or the
    wait ends and attempt [k + 1] is made; or [k] was the last attempt and
    the call returns [RetriesExhaustedError] around [err]. *)
Lemma Run_failed_attempt (attempt : Z) (lastErr : option error) (r : CallResult) (trace : list Event) :
  run attempt lastErr r trace ->
  forall k req out err, In (EvRoundTrip k req out) trace -> recorded out = Some err ->
    (k < maxAttempts - 1 /\
     exists e, ctxDone w k = Some e /\ r = Failure (ContextError e) /\
       exists pre, trace = pre ++ [EvRoundTrip k req out; EvBackoff k (retryDelay c k) (Some e)])
    \/ (k < maxAttempts - 1 /\ ctxDone w k = None /\
        exists out', In (EvRoundTrip (k + 1) req out') trace)
    \/ (k = maxAttempts - 1 /\
        r = Failure (RetriesExhaustedError maxAttempts (Some err)) /\
        exists pre, trace = pre ++ [EvRoundTrip k req out]).
Proof.
  induction 1 as [lastErr | attempt lastErr r evs Hrange Hstep
                 | attempt lastErr err0 evs r trace Hrange Hstep Hrun IH];
    intros k req out err Hin Hrec.
  - inversion Hin.
  - assert (Hsub : Int64.sub maxAttempts 1 = maxAttempts - 1)
      by (apply sub_1_in_range; unfold Int64.min_int; lia).
    inversion Hstep; subst; events Hin.
    + exfalso. cbn in Hrec.
      replace ((200 <=? statusCode) && (statusCode <? 300)) with true in Hrec
        by (symmetry; apply andb_true_iff; split; [apply Z.leb_le | apply Z.ltb_lt]; lia).
      discriminate.
    + exfalso. cbn in Hrec.
      replace ((400 <=? statusCode) && (statusCode <? 500)) with true in Hrec
        by (symmetry; apply andb_true_iff; split; [apply Z.leb_le | apply Z.ltb_lt]; lia).
      rewrite orb_true_r in Hrec. discriminate.
    + left. split; [lia |]. eexists. split; [eassumption |]. split; [reflexivity |].
      exists []. reflexivity.
  - assert (Hsub : Int64.sub maxAttempts 1 = maxAttempts - 1)
      by (apply sub_1_in_range; unfold Int64.min_int; lia).
    apply in_app_or in Hin as [Hin | Hin].
    + inversion Hstep; subst; events Hin.
      * (* the wait ended: the next pass makes attempt k + 1 *)
        right. left. split; [lia |]. split; [assumption |].
        assert (Hnext : exists rest, trace = EvRoundTrip (k + 1) req (transport w (k + 1) req) :: rest).
        { rewrite Hsub in *. inversion Hrun as [| ? ? ? ? ? Hnxt | ? ? ? ? ? ? ? Hnxt]; subst; try lia.
          - eapply Step_first_event; eauto.
          - destruct (Step_first_event _ _ _ _ Hnxt ltac:(eassumption)) as [rest ->].
            eexists. reflexivity. }
        destruct Hnext as [rest ->]. eexists. apply in_or_app. right. left. reflexivity.
      * (* the last attempt *)
        rewrite Hsub in *. right. right. split; [lia |].
        assert (err0 = err) by congruence. subst err0.
        inversion Hrun; subst; try lia.
        split; [reflexivity |]. exists []. reflexivity.
    + destruct (IH k req out err Hin Hrec)
        as [(Hk & e & Hctx & Hr & pre & Hpre) | [(Hk & Hctx & out' & Hin') | (Hk & Hr & pre & Hpre)]].
      * left. split; [assumption |]. exists e. repeat split; try assumption.
        exists (evs ++ pre). rewrite Hpre, app_assoc. reflexivity.
      * right. left. repeat split; try assumption. exists out'. apply in_or_app. right. assumption.
      * right. right. repeat split; try assumption.
        exists (evs ++ pre). rewrite Hpre, app_assoc. reflexivity.
Qed.

(** A run never returns a bare connection error, nor an error of the
    transport as it came. *)
Lemma Run_surfaced (attempt : Z) (lastErr : option error) (r : CallResult) (trace : list Event) :
  run attempt lastErr r trace -> surfaced r.
Proof.
  induction 1 as [lastErr | attempt lastErr r evs Hrange Hstep
                 | attempt lastErr err evs r trace Hrange Hstep Hrun IH];
    [exact I | | exact IH].
  inversion Hstep; subst; try exact I.
  match goal with H : newRequest _ _ _ _ _ = inr _ |- _ =>
    destruct (newRequest_error _ H) as (m & e & ->) end.
  exact I.
Qed.

(** With a server that answers every attempt with a 5xx, and a context that
    is never done, the run makes every attempt that is left, and fails with
    the error parsed from the last response. *)
Lemma Run_all_5xx (req : Request) (attempt : Z) (lastErr : option error) (r : CallResult)
    (trace : list Event) :
  newRequest lib method url body ns = inl req ->
  (forall k, 0 <= k < maxAttempts ->
     exists statusCode respBody,
       transport w k req = Response statusCode respBody /\ 500 <= statusCode <= 599) ->
  (forall k, ctxDone w k = None) ->
  run attempt lastErr r trace ->
  attempts trace = Z.to_nat (maxAttempts - attempt) /\
  (attempt < maxAttempts ->
   exists statusCode respBody,
     transport w (maxAttempts - 1) req = Response statusCode respBody /\
     r = Failure (RetriesExhaustedError maxAttempts
                    (Some (ServerError (parseServerError lib statusCode respBody))))) /\
  (attempt = maxAttempts -> r = Failure (RetriesExhaustedError maxAttempts lastErr)).
Proof.
  intros Hreq H5xx Hctx.
  induction 1 as [lastErr | attempt lastErr r evs Hrange Hstep
                 | attempt lastErr err evs r trace Hrange Hstep Hrun IH].
  - split; [rewrite Z.sub_diag; reflexivity |]. split; [lia | reflexivity].
  - exfalso. destruct (H5xx attempt Hrange) as (st & b & Hout & Hst).
    inversion Hstep; subst; try congruence.
    + match goal with H : newRequest _ _ _ _ _ = inl _ |- _ => rewrite Hreq in H; inversion H; subst end.
      rewrite Hout in *. match goal with H : Response _ _ = Response _ _ |- _ => inversion H; subst end. lia.
    + match goal with H : newRequest _ _ _ _ _ = inl _ |- _ => rewrite Hreq in H; inversion H; subst end.
      rewrite Hout in *. match goal with H : Response _ _ = Response _ _ |- _ => inversion H; subst end. lia.
  - destruct IH as (Hcount & Hlast & Hdone).
    destruct (H5xx attempt Hrange) as (st & b & Hout & Hst).
    assert (Hevs : attempts evs = 1%nat /\
                   err = ServerError (parseServerError lib st b)).
    { inversion Hstep; subst;
        match goal with H : newRequest _ _ _ _ _ = inl _ |- _ => rewrite Hreq in H; inversion H; subst end;
        rewrite Hout in *; cbn in *;
        replace ((200 <=? st) && (st <? 300)) with false in *
          by (symmetry; apply andb_false_iff; right; apply Z.ltb_ge; lia);
        replace ((400 <=? st) && (st <? 500)) with false in *
          by (symmetry; apply andb_false_iff; right; apply Z.ltb_ge; lia);
        cbn in *; split; congruence. }
    destruct Hevs as [Hevs ->].
    split; [| split; [| lia]].
    + unfold attempts in *. rewrite List.filter_app, length_app, Hevs, Hcount. lia.
    + intros _. destruct (Z.eq_dec (attempt + 1) maxAttempts) as [Heq | Hne].
      * exists st, b. replace (maxAttempts - 1) with attempt by lia.
        split; [assumption |]. apply Hdone. assumption.
      * apply Hlast. lia.
Qed.

End LoopFacts.

(** *** [doRequest] *)

Section DoRequest.

Context {Metadata : Type} (lib : GoLib Metadata).
Variables (w : World) (c : Client) (method path : string) (body : option (Payload Metadata)).
Variable namespace : string.

#[local] Abbreviation call := (doRequest lib w c method path body namespace).
#[local] Abbreviation callRun :=
  (Run lib w c method path body (baseURL c +:+ path) (resolveNamespace c namespace) (maxAttemptsOf c)).

(** A call whose attempt count is not positive makes no attempt. *)
Lemma doRequest_no_attempt :
  maxAttemptsOf c <= 0 ->
  call = (Failure (RetriesExhaustedError (maxAttemptsOf c) None), []).
Proof.
  intros H. unfold doRequest. cbv zeta.
  replace (Z.to_nat (maxAttemptsOf c)) with 0%nat by lia. reflexivity.
Qed.

(** Otherwise the call is a run of the loop from attempt 0. *)
Lemma doRequest_Run :
  0 < maxAttemptsOf c -> callRun 0 None (fst call) (snd call).
Proof.
  intros H. unfold doRequest. cbv zeta. apply attemptLoop_Run.
  - pose proof (maxAttemptsOf_in_range c) as [_ Hmax]. exact Hmax.
  - lia.
  - lia.
Qed.

End DoRequest.

(** ** The claims about the retry executor *)

Section Executor.

Context {Metadata : Type} (lib : GoLib Metadata).
Variables (w : World) (c : Client) (method path : string) (body : option (Payload Metadata)).
Variable namespace : string.

#[local] Abbreviation theCall := (doRequest lib w c method path body namespace).
#[local] Abbreviation theRequest :=
  (newRequest lib method (baseURL c +:+ path) body (resolveNamespace c namespace)).

(** A call with a non-negative retry count below the largest [int], whose
    request can be built, starts with the round trip of attempt 0. *)
Lemma doRequest_first_attempt (req : Request) :
  0 <= MaxRetries (retryConfig c) < Int64.max_int ->
  theRequest = inl req ->
  exists rest, snd theCall = EvRoundTrip 0 req (transport w 0 req) :: rest.
Proof.
  intros HN Hreq. pose proof (maxAttemptsOf_succ c HN) as Hmax.
  assert (Hpos : 0 < maxAttemptsOf c) by lia.
  pose proof (doRequest_Run lib w c method path body namespace Hpos) as Hrun.
  inversion Hrun as [| ? ? ? ? ? Hstep | ? ? ? ? ? ? ? Hstep]; subst; try lia.
  - eapply Step_first_event; eauto.
  - destruct (Step_first_event _ _ _ _ _ _ _ _ _ _ _ _ _ Hstep Hreq) as [rest ->].
    eexists. reflexivity.
Qed.

(** A call that made a first attempt has a positive attempt count. *)
Lemma doRequest_started (ev : Event) :
  hd_error (snd theCall) = Some ev -> 0 < maxAttemptsOf c.
Proof.
  intros Hhd. destruct (Z_lt_le_dec 0 (maxAttemptsOf c)) as [| Hle]; [assumption |].
  rewrite (doRequest_no_attempt lib w c method path body namespace Hle) in Hhd. discriminate.
Qed.

Lemma parseServerError_StatusCode (statusCode : Z) (respBody : string) :
  UcotronServerError.StatusCode (parseServerError lib statusCode respBody) = statusCode.
Proof.
  unfold parseServerError.
  destruct (json_Unmarshal_APIErrorBody lib respBody) as [apiErr [err |]]; [reflexivity |].
  destruct (bool_decide _); reflexivity.
Qed.

Lemma recordedError_4xx (statusCode : Z) (respBody : string) :
  400 <= statusCode <= 499 ->
  recordedError lib method path (Response statusCode respBody) = None.
Proof.
  intros H. cbn.
  replace ((400 <=? statusCode) && (statusCode <? 500)) with true
    by (symmetry; apply andb_true_iff; split; [apply Z.leb_le | apply Z.ltb_lt]; lia).
  rewrite orb_true_r. reflexivity.
Qed.

Lemma recordedError_2xx (statusCode : Z) (respBody : string) :
  200 <= statusCode <= 299 ->
  recordedError lib method path (Response statusCode respBody) = None.
Proof.
  intros H. cbn.
  replace ((200 <=? statusCode) && (statusCode <? 300)) with true
    by (symmetry; apply andb_true_iff; split; [apply Z.leb_le | apply Z.ltb_lt]; lia).
  reflexivity.
Qed.

(** C2: when the response to the first attempt has a status code in
    400..499, then whatever [MaxRetries] is, the call consists of that one
    round trip, with no wait, and returns the [UcotronServerError] parsed
    from the response, whose [StatusCode] is the response's; the error is not
    wrapped in a [UcotronRetriesExhaustedError]. *)
Theorem client_error_returned_at_once (req : Request) (statusCode : Z) (respBody : string) :
  400 <= statusCode <= 499 ->
  hd_error (snd theCall) = Some (EvRoundTrip 0 req (Response statusCode respBody)) ->
  theCall = (Failure (ServerError (parseServerError lib statusCode respBody)),
             [EvRoundTrip 0 req (Response statusCode respBody)]) /\
  UcotronServerError.StatusCode (parseServerError lib statusCode respBody) = statusCode /\
  attempts (snd theCall) = 1%nat /\
  List.filter isBackoff (snd theCall) = [].
Proof.
  intros H4xx Hhd. pose proof (doRequest_started _ Hhd) as Hpos.
  pose proof (doRequest_Run lib w c method path body namespace Hpos) as Hrun.
  assert (Hcall : theCall = (Failure (ServerError (parseServerError lib statusCode respBody)),
                             [EvRoundTrip 0 req (Response statusCode respBody)])).
  { destruct theCall as [r trace]. cbn [fst snd] in *.
    inversion Hrun as [| ? ? ? ? ? Hstep | ? ? ? ? ? ? ? Hstep]; subst.
    - discriminate.
    - inversion Hstep; subst; cbn in Hhd; inversion Hhd; subst.
      + lia.
      + reflexivity.
      + match goal with H : recordedError _ _ _ _ = Some _, E : _ = Response _ _ |- _ =>
          rewrite E, (recordedError_4xx _ _ H4xx) in H; discriminate H end.
    - inversion Hstep; subst; cbn in Hhd; inversion Hhd; subst;
        match goal with H : recordedError _ _ _ _ = Some _, E : _ = Response _ _ |- _ =>
          rewrite E, (recordedError_4xx _ _ H4xx) in H; discriminate H end. }
  rewrite Hcall. cbn [fst snd]. repeat split. apply parseServerError_StatusCode.
Qed.

Lemma recordedError_retryable (out : RoundTrip) :
  retryableFailure out -> exists err, recordedError lib method path out = Some err.
Proof.
  destruct out as [err | st err | st b]; cbn; eauto.
  intros H.
  replace ((200 <=? st) && (st <? 300)) with false
    by (symmetry; apply andb_false_iff; right; apply Z.ltb_ge; lia).
  replace ((400 <=? st) && (st <? 500)) with false
    by (symmetry; apply andb_false_iff; right; apply Z.ltb_ge; lia).
  cbn. eauto.
Qed.

(** C6: when the first attempt fails, with a 5xx response or with a
    connection-level failure, and the second attempt returns a 2xx response,
    a call with [MaxRetries >= 1] makes exactly 2 transport attempts, with
    one wait of [retryDelay 0] between them, and returns the body of the
    second response. *)
Theorem retry_once_then_success (req : Request) (first : RoundTrip) (statusCode : Z)
    (respBody : string) :
  1 <= MaxRetries (retryConfig c) <= Int64.max_int ->
  hd_error (snd theCall) = Some (EvRoundTrip 0 req first) ->
  retryableFailure first ->
  ctxDone w 0 = None ->
  transport w 1 req = Response statusCode respBody ->
  200 <= statusCode <= 299 ->
  theCall = (Success respBody,
             [EvRoundTrip 0 req first;
              EvBackoff 0 (retryDelay c 0) None;
              EvRoundTrip 1 req (Response statusCode respBody)]) /\
  attempts (snd theCall) = 2%nat.
Proof.
  intros HN Hhd Hfail Hctx Hsecond H2xx.
  pose proof (doRequest_started _ Hhd) as Hpos.
  assert (Hmax : maxAttemptsOf c = MaxRetries (retryConfig c) + 1).
  { destruct (Z.eq_dec (MaxRetries (retryConfig c)) Int64.max_int) as [Heq | Hne].
    - exfalso. unfold maxAttemptsOf in Hpos. rewrite Heq in Hpos. vm_compute in Hpos. discriminate.
    - apply maxAttemptsOf_succ. lia. }
  pose proof (maxAttemptsOf_in_range c) as [_ Hint].
  assert (Hsub : Int64.sub (maxAttemptsOf c) 1 = maxAttemptsOf c - 1)
    by (apply sub_1_in_range; unfold Int64.min_int; lia).
  destruct (recordedError_retryable _ Hfail) as [err0 Hrec].
  pose proof (doRequest_Run lib w c method path body namespace Hpos) as Hrun.
  assert (Hcall : theCall = (Success respBody,
             [EvRoundTrip 0 req first;
              EvBackoff 0 (retryDelay c 0) None;
              EvRoundTrip 1 req (Response statusCode respBody)])).
  { destruct theCall as [r trace]. cbn [fst snd] in *.
    inversion Hrun as [| ? ? ? ? ? Hstep | ? ? ? ? ? ? ? Hstep Hrest]; subst.
    - discriminate.
    - (* the first pass cannot return *)
      exfalso. inversion Hstep; subst; cbn in Hhd; inversion Hhd; subst.
      + cbn in Hfail. lia.
      + cbn in Hfail. lia.
      + congruence.
    - match goal with
      | Hs : Step _ _ _ _ _ _ _ _ _ 0 (Continue _) ?evs |- _ =>
          assert (Hfirst : evs = [EvRoundTrip 0 req first; EvBackoff 0 (retryDelay c 0) None] /\
                           theRequest = inl req)
            by (inversion Hs; subst; cbn in Hhd; inversion Hhd; subst; [auto | lia])
      end.
      destruct Hfirst as [-> Hreq]. cbn [app].
      (* the second pass returns the 2xx body *)
      change (0 + 1) with 1 in Hrest.
      match goal with
      | |- (?r, _ :: _ :: ?tr) = _ =>
          assert (Hsnd : r = Success respBody /\
                         tr = [EvRoundTrip 1 req (Response statusCode respBody)])
      end.
      { inversion Hrest as [| ? ? ? ? ? Hstep2 | ? ? ? ? ? ? ? Hstep2]; subst; try lia.
        - inversion Hstep2; subst;
            match goal with H : newRequest _ _ _ _ _ = _ |- _ => rewrite Hreq in H; inversion H; subst end.
          + match goal with H : transport w 1 _ = Response _ _ |- _ =>
              rewrite Hsecond in H; inversion H; subst end. split; reflexivity.
          + match goal with H : transport w 1 _ = Response _ _ |- _ =>
              rewrite Hsecond in H; inversion H; subst end. lia.
          + match goal with H : recordedError _ _ _ _ = Some _ |- _ =>
              rewrite Hsecond, (recordedError_2xx _ _ H2xx) in H; discriminate H end.
        - inversion Hstep2; subst;
            match goal with H : newRequest _ _ _ _ _ = _ |- _ => rewrite Hreq in H; inversion H; subst end;
            match goal with H : recordedError _ _ _ _ = Some _ |- _ =>
              rewrite Hsecond, (recordedError_2xx _ _ H2xx) in H; discriminate H end. }
      destruct Hsnd as [-> ->]. reflexivity. }
  rewrite Hcall. split; reflexivity.
Qed.

(** C1 (amended): for every [MaxRetries = N] with [0 <= N] below the
    largest [int] (so that [N + 1] is an [int]), a call whose request can be
    built, whose every transport attempt receives a 5xx response and whose
    context is not done during the waits makes exactly [N + 1] attempts and
    then returns a [UcotronRetriesExhaustedError] with [Attempts = N + 1] and,
    as [LastError], the [UcotronServerError] parsed from the last response. *)
Theorem retries_exhausted_after_5xx (req : Request) :
  0 <= MaxRetries (retryConfig c) < Int64.max_int ->
  theRequest = inl req ->
  (forall k, 0 <= k <= MaxRetries (retryConfig c) ->
     exists statusCode respBody,
       transport w k req = Response statusCode respBody /\ 500 <= statusCode <= 599) ->
  (forall k, ctxDone w k = None) ->
  exists statusCode respBody,
    transport w (MaxRetries (retryConfig c)) req = Response statusCode respBody /\
    fst theCall
    = Failure (RetriesExhaustedError (MaxRetries (retryConfig c) + 1)
                 (Some (ServerError (parseServerError lib statusCode respBody)))) /\
    Z.of_nat (attempts (snd theCall)) = MaxRetries (retryConfig c) + 1.
Proof.
  intros HN Hreq H5xx Hctx. pose proof (maxAttemptsOf_succ c HN) as Hmax.
  assert (Hpos : 0 < maxAttemptsOf c) by lia.
  pose proof (maxAttemptsOf_in_range c) as [_ Hint].
  pose proof (doRequest_Run lib w c method path body namespace Hpos) as Hrun.
  assert (H5 : forall k, 0 <= k < maxAttemptsOf c ->
                 exists statusCode respBody,
                   transport w k req = Response statusCode respBody /\ 500 <= statusCode <= 599)
    by (intros k Hk; apply H5xx; lia).
  destruct (Run_all_5xx lib w c method path body _ _ _ req _ _ _ _ Hreq H5 Hctx Hrun)
    as (Hcount & Hlast & _).
  destruct (Hlast Hpos) as (st & b & Hout & Hr).
  exists st, b. rewrite Hmax in *. replace (MaxRetries (retryConfig c) + 1 - 1)
    with (MaxRetries (retryConfig c)) in * by lia.
  split; [assumption |]. split; [assumption |]. rewrite Hcount. lia.
Qed.

Lemma recordedError_transportFailure (out : RoundTrip) (cause : error) :
  transportFailure out = Some cause ->
  exists message, recordedError lib method path out = Some (ConnectionError message cause).
Proof.
  destruct out as [err | st err | st b]; cbn; intros H; inversion H; subst; eauto.
Qed.

(** C5 (amended): when the caller's context is done during a wait between
    attempts, the call returns the context's error at once and that wait is
    its last step.  When the context is cancelled while the request of an
    attempt is in flight, no further attempt is started either: before the
    last attempt the wait that follows is interrupted and the call returns
    the context's error; on the last attempt there is no wait, and the call
    returns a [UcotronRetriesExhaustedError] whose [LastError] is the
    [UcotronConnectionError] around the transport's cancellation error.  In
    both cases the error returned matches the context's error under
    [errors.Is]. *)
Theorem cancellation_stops_the_call :
  (forall k d e, In (EvBackoff k d (Some e)) (snd theCall) ->
     fst theCall = Failure (ContextError e) /\
     exists pre, snd theCall = pre ++ [EvBackoff k d (Some e)]) /\
  (forall k req e, In (EvRoundTrip k req (transport w k req)) (snd theCall) ->
     cancelledInFlight w k req e ->
     (exists err, fst theCall = Failure err /\ errors_Is err e = true) /\
     ((k < maxAttemptsOf c - 1 /\
      fst theCall = Failure (ContextError e) /\
      exists pre, snd theCall
                  = pre ++ [EvRoundTrip k req (transport w k req);
                            EvBackoff k (retryDelay c k) (Some e)])
     \/ (k = maxAttemptsOf c - 1 /\
         (exists message cause,
            errors_Is cause e = true /\
            fst theCall = Failure (RetriesExhaustedError (maxAttemptsOf c)
                                     (Some (ConnectionError message cause)))) /\
         exists pre, snd theCall = pre ++ [EvRoundTrip k req (transport w k req)]))).
Proof.
  destruct (Z_lt_le_dec 0 (maxAttemptsOf c)) as [Hpos | Hle].
  2:{ rewrite (doRequest_no_attempt lib w c method path body namespace Hle). cbn [fst snd].
      split; intros; exfalso; eauto using in_nil. }
  pose proof (maxAttemptsOf_in_range c) as [_ Hint].
  pose proof (doRequest_Run lib w c method path body namespace Hpos) as Hrun.
  split.
  - intros k d e Hin. eapply Run_interrupted_wait; eassumption.
  - intros k req e Hin (cause & Hfail & His & Hdone).
    destruct (recordedError_transportFailure _ _ Hfail) as [message Hrec].
    destruct (Run_failed_attempt lib w c method path body _ _ _ Hint _ _ _ _ Hrun _ _ _ _ Hin Hrec)
      as [(Hk & e' & Hctx & Hr & Hpre) | [(Hk & Hctx & _) | (Hk & Hr & Hpre)]].
    + assert (e' = e) by congruence. subst e'. split.
      * exists (ContextError e). split; [assumption |]. cbn. apply bool_decide_eq_true_2. reflexivity.
      * left. auto.
    + congruence.
    + split.
      * eexists. split; [eassumption |]. cbn. assumption.
      * right. split; [assumption |]. split; [| assumption]. eauto.
Qed.

(** C7 (amended): a [UcotronConnectionError] is never returned to the caller
    on its own, and neither is an error of the transport as it came: a call
    returns a body, a [UcotronServerError], a [UcotronRetriesExhaustedError],
    the context's error, or the wrapped error of a request that could not be
    built.  Every connection-level failure of an attempt is followed by
    another attempt, or wrapped as the [LastError] of a
    [UcotronRetriesExhaustedError], or, when the caller's context is done
    during the wait that follows it, replaced by the context's error. *)
Theorem connection_error_never_bare :
  surfaced (fst theCall) /\
  (forall message cause, fst theCall <> Failure (ConnectionError message cause)) /\
  (forall k req out cause,
     In (EvRoundTrip k req out) (snd theCall) -> transportFailure out = Some cause ->
     (exists out', In (EvRoundTrip (k + 1) req out') (snd theCall))
     \/ (exists message,
           fst theCall = Failure (RetriesExhaustedError (maxAttemptsOf c)
                                    (Some (ConnectionError message cause))))
     \/ (exists e,
           ctxDone w k = Some e /\ fst theCall = Failure (ContextError e) /\
           exists pre, snd theCall
                       = pre ++ [EvRoundTrip k req out; EvBackoff k (retryDelay c k) (Some e)])).
Proof.
  destruct (Z_lt_le_dec 0 (maxAttemptsOf c)) as [Hpos | Hle].
  2:{ rewrite (doRequest_no_attempt lib w c method path body namespace Hle). cbn [fst snd].
      split; [exact I | split; [discriminate | intros; exfalso; eauto using in_nil]]. }
  pose proof (maxAttemptsOf_in_range c) as [_ Hint].
  pose proof (doRequest_Run lib w c method path body namespace Hpos) as Hrun.
  pose proof (Run_surfaced lib w c method path body _ _ _ _ _ _ _ Hrun) as Hsurfaced.
  split; [assumption |]. split.
  - intros message cause Heq. rewrite Heq in Hsurfaced. exact Hsurfaced.
  - intros k req out cause Hin Hfail.
    destruct (recordedError_transportFailure _ _ Hfail) as [message Hrec].
    destruct (Run_failed_attempt lib w c method path body _ _ _ Hint _ _ _ _ Hrun _ _ _ _ Hin Hrec)
      as [(Hk & e & Hctx & Hr & Hpre) | [(Hk & Hctx & Hnext) | (Hk & Hr & Hpre)]].
    + right. right. eauto.
    + left. assumption.
    + right. left. eauto.
Qed.

End Executor.

(** ** Error bodies *)

Section DecoderFacts.

Variable nameMatches : string -> string -> bool.

#[local] Abbreviation decode := (decodeMembers nameMatches).
#[local] Abbreviation member := (stringMember nameMatches).

Lemma stringMember_cons (f : APIErrorField) (key : string) (value : JSON)
    (rest : list (string * JSON)) (fallback : string) :
  default fallback (member f ((key, value) :: rest))
  = default (match value with
             | JString s => if bool_decide (fieldOf nameMatches key = Some f) then s else fallback
             | _ => fallback
             end) (member f rest).
Proof.
  cbn [stringMember]. destruct (member f rest) as [s |]; [reflexivity |].
  destruct value; try reflexivity. destruct (bool_decide _); reflexivity.
Qed.

(** The decoder leaves in each field the string the object gives for it,
    and reports no error exactly when every member that selects a field is
    a string or [null]. *)
Lemma decodeMembers_fields (members : list (string * JSON)) (apiErr : APIErrorBody.t)
    (saved : option error) :
  APIErrorBody.Code (fst (decode members apiErr saved))
  = default (APIErrorBody.Code apiErr) (member FieldCode members) /\
  APIErrorBody.Message (fst (decode members apiErr saved))
  = default (APIErrorBody.Message apiErr) (member FieldMessage members) /\
  (snd (decode members apiErr saved) = None <->
   saved = None /\ fieldsAreStrings nameMatches members = true).
Proof.
  revert apiErr saved. induction members as [| [key value] rest IH]; intros apiErr saved.
  - cbn. intuition.
  - rewrite !stringMember_cons. cbn [decodeMembers fieldsAreStrings forallb fst snd].
    destruct (fieldOf nameMatches key) as [f |] eqn:Hf.
    + destruct value as [| b | n | s | l | l];
        try (destruct (IH apiErr (saveError saved UnmarshalTypeError)) as (Hc & Hm & He);
             rewrite Hc, Hm, He; split; [reflexivity |]; split; [reflexivity |];
             cbn [andb]; destruct saved; cbn; intuition discriminate).
      * destruct (IH apiErr saved) as (Hc & Hm & He). rewrite Hc, Hm, He. cbn [andb]. intuition.
      * destruct (IH (setField f s apiErr) saved) as (Hc & Hm & He). rewrite Hc, Hm, He.
        cbn [andb]. destruct f; cbn; rewrite ?bool_decide_eq_true_2 by reflexivity;
          rewrite ?bool_decide_eq_false_2 by discriminate; intuition.
    + destruct (IH apiErr saved) as (Hc & Hm & He). rewrite Hc, Hm, He.
      rewrite !bool_decide_eq_false_2 by discriminate.
      cbn [andb]. destruct value; intuition.
Qed.

End DecoderFacts.

Section ErrorBody.

Context {Metadata : Type} (lib : GoLib Metadata).

(** What the body of a response denotes, and how member names select
    fields: the parser and the name matching of encoding/json. *)
Variable json_parse : string -> option JSON.
Variable nameMatches : string -> string -> bool.

Hypothesis json_Unmarshal_decodes :
  forall body,
    json_Unmarshal_APIErrorBody lib body = json_decode_APIErrorBody nameMatches (json_parse body).

#[local] Abbreviation statusTextAndBody statusCode respBody :=
  {| UcotronServerError.StatusCode := statusCode;
     UcotronServerError.Code := http_StatusText lib statusCode;
     UcotronServerError.Message := respBody |}.

(** The two branches of [parseServerError], by the result of the decoder. *)
Lemma parseServerError_cases (statusCode : Z) (respBody : string)
    (apiErr : APIErrorBody.t) (err : option error) :
  json_Unmarshal_APIErrorBody lib respBody = (apiErr, err) ->
  parseServerError lib statusCode respBody
  = if bool_decide (err = None /\ APIErrorBody.Message apiErr <> "")
    then {| UcotronServerError.StatusCode := statusCode;
            UcotronServerError.Code := APIErrorBody.Code apiErr;
            UcotronServerError.Message := APIErrorBody.Message apiErr |}
    else statusTextAndBody statusCode respBody.
Proof.
  intros Hdec. unfold parseServerError. rewrite Hdec. destruct err as [e |].
  - rewrite bool_decide_eq_false_2 by (intros [? _]; discriminate). reflexivity.
  - destruct (decide (APIErrorBody.Message apiErr = "")) as [Hm | Hm].
    + rewrite !bool_decide_eq_false_2 by tauto. reflexivity.
    + rewrite !bool_decide_eq_true_2 by tauto. reflexivity.
Qed.

(** C8 (amended): for every status code and every error body, when the
    body is a JSON object in which every member named [code] or [message]
    is a string or [null], and whose message (its last string member of that
    name) is not empty, the [UcotronServerError] carries the code (empty
    when the object gives none) and the message of the body; in every other
    case (a body that is not valid JSON or not an object, a message that is
    absent, [null] or empty, or a [code] or [message] member of another JSON
    type) it carries the status text of the status code as code and the raw
    body as message.  [parseServerError] is total: it returns a
    [UcotronServerError] in every case. *)
Theorem parseServerError_body_or_status_text (statusCode : Z) (respBody : string) :
  (forall members,
     json_parse respBody = Some (JObject members) ->
     fieldsAreStrings nameMatches members = true ->
     messageOf nameMatches members <> "" ->
     parseServerError lib statusCode respBody
     = {| UcotronServerError.StatusCode := statusCode;
          UcotronServerError.Code := codeOf nameMatches members;
          UcotronServerError.Message := messageOf nameMatches members |}) /\
  (forall members,
     json_parse respBody = Some (JObject members) ->
     fieldsAreStrings nameMatches members = false \/ messageOf nameMatches members = "" ->
     parseServerError lib statusCode respBody = statusTextAndBody statusCode respBody) /\
  ((forall members, json_parse respBody <> Some (JObject members)) ->
   parseServerError lib statusCode respBody = statusTextAndBody statusCode respBody).
Proof.
  pose proof (json_Unmarshal_decodes respBody) as Hdec.
  split; [| split].
  - intros members Hparse Htyped Hmsg. rewrite Hparse in Hdec. cbn in Hdec.
    destruct (decodeMembers_fields nameMatches members
                {| APIErrorBody.Code := ""; APIErrorBody.Message := "" |} None) as (Hc & Hm & He).
    destruct (decodeMembers nameMatches members _ None) as [apiErr err]. cbn [fst snd] in *.
    rewrite (parseServerError_cases _ _ _ _ Hdec).
    assert (err = None) by (apply He; auto). subst err.
    change (APIErrorBody.Code apiErr = codeOf nameMatches members) in Hc.
    change (APIErrorBody.Message apiErr = messageOf nameMatches members) in Hm.
    rewrite bool_decide_eq_true_2 by (split; [reflexivity | rewrite Hm; exact Hmsg]).
    rewrite Hc, Hm. reflexivity.
  - intros members Hparse Hbad. rewrite Hparse in Hdec. cbn in Hdec.
    destruct (decodeMembers_fields nameMatches members
                {| APIErrorBody.Code := ""; APIErrorBody.Message := "" |} None) as (Hc & Hm & He).
    destruct (decodeMembers nameMatches members _ None) as [apiErr err]. cbn [fst snd] in *.
    rewrite (parseServerError_cases _ _ _ _ Hdec).
    change (APIErrorBody.Message apiErr = messageOf nameMatches members) in Hm.
    rewrite bool_decide_eq_false_2; [reflexivity |].
    intros [Herr Hmsg]. destruct Hbad as [Hbad | Hbad].
    + apply He in Herr as [_ Ht]. congruence.
    + congruence.
  - intros Hno.
    destruct (json_parse respBody) as [[| b | n | s | l | members] |]; cbn in Hdec;
      try (rewrite (parseServerError_cases _ _ _ _ Hdec);
           rewrite bool_decide_eq_false_2 by (cbn; intros [? ?]; first [discriminate | contradiction]);
           reflexivity).
    exfalso. apply (Hno members). reflexivity.
Qed.

End ErrorBody.

(** ** The namespace header *)

Section Namespace.

Context {Metadata : Type} (lib : GoLib Metadata).
Variables (w : World) (serverURL : string) (config : option ClientConfig).

#[local] Abbreviation client := (NewClient serverURL config).

Lemma NewClient_defaultNamespace :
  defaultNamespace client
  = if bool_decide (configuredNamespace config <> "") then configuredNamespace config else "default".
Proof. destruct config as [[t r d] |]; reflexivity. Qed.

Lemma NewClient_defaultNamespace_nonempty : defaultNamespace client <> "".
Proof.
  rewrite NewClient_defaultNamespace. case_bool_decide; [assumption | discriminate].
Qed.

Lemma resolveNamespace_NewClient (override : string) :
  resolveNamespace client override = resolvedNamespace config override.
Proof.
  unfold resolveNamespace, resolvedNamespace. rewrite NewClient_defaultNamespace. reflexivity.
Qed.

Lemma resolvedNamespace_nonempty (override : string) : resolvedNamespace config override <> "".
Proof.
  unfold resolvedNamespace. repeat case_bool_decide; try assumption. discriminate.
Qed.

(** Every request of a call carries the resolved namespace. *)
Lemma doRequest_namespace_header (c : Client) (method path : string)
    (body : option (Payload Metadata)) (namespace : string) (k : Z) (req : Request) (out : RoundTrip) :
  In (EvRoundTrip k req out) (snd (doRequest lib w c method path body namespace)) ->
  Header req !! namespaceHeader = Some (resolveNamespace c namespace).
Proof.
  intros Hin. destruct (Z_lt_le_dec 0 (maxAttemptsOf c)) as [Hpos | Hle].
  - pose proof (doRequest_Run lib w c method path body namespace Hpos) as Hrun.
    destruct (Run_round_trips lib w c method path body _ _ _ _ _ _ _ Hrun _ _ _ Hin) as [Hreq _].
    eapply newRequest_header. eassumption.
  - rewrite (doRequest_no_attempt lib w c method path body namespace Hle) in Hin. inversion Hin.
Qed.

(** C4 (amended): on every outgoing request of a call, the
    [X-Ucotron-Namespace] header is the per-call override when one is
    supplied, else the default namespace the client was configured with,
    else the literal ["default"]; the header is never left out. *)
Theorem namespace_header_resolution (method path : string) (body : option (Payload Metadata))
    (namespace : string) (k : Z) (req : Request) (out : RoundTrip) :
  In (EvRoundTrip k req out) (snd (doRequest lib w client method path body namespace)) ->
  Header req !! namespaceHeader = Some (resolvedNamespace config namespace).
Proof.
  intros Hin. rewrite <- resolveNamespace_NewClient.
  eapply doRequest_namespace_header. eassumption.
Qed.

Lemma decodeAs_events (t : ResponseType) (what : string) (r : CallResult * list Event) :
  snd (decodeAs lib t what r) = snd r.
Proof.
  unfold decodeAs. destruct (fst r); [| reflexivity].
  destruct (json_Unmarshal lib t body); reflexivity.
Qed.

(** Each operation is one call of [doRequest] with its namespace option. *)
Lemma invoke_events (c : Client) (op : Operation Metadata) :
  exists method path body,
    snd (invoke lib w c op) = snd (doRequest lib w c method path body (namespaceOption op)).
Proof.
  destruct op as [t [o |] | t [o |] | q [o |] | t [o |] | id o | [o |] | id rq o | id o | id o | [o |] | |];
    cbn [invoke namespaceOption from_option];
    unfold Augment, Learn, Search, AddMemory, GetMemory, ListMemories, UpdateMemory,
      DeleteMemory, GetEntity, ListEntities, Health, Metrics, entityNamespace;
    cbv zeta; rewrite ?decodeAs_events;
    try (do 3 eexists; reflexivity).
  exists MethodDelete, ("/api/v1/memories/" +:+ pretty id), None.
  destruct o; cbn [from_option];
    match goal with |- context [doRequest ?l ?w ?c ?m ?p ?b ?n] =>
      destruct (doRequest l w c m p b n) as [[? | ?] ?] end; reflexivity.
Qed.

(** C9: every request of every operation of a client built by [NewClient]
    carries the [X-Ucotron-Namespace] header, with a value that is not
    empty; when the client was built without a [DefaultNamespace] and the
    operation is given no namespace, as is always the case for [Health] and
    [Metrics], the value is the literal ["default"]. *)
Theorem every_request_carries_namespace (op : Operation Metadata) (k : Z) (req : Request)
    (out : RoundTrip) :
  In (EvRoundTrip k req out) (snd (invoke lib w client op)) ->
  exists value,
    Header req !! namespaceHeader = Some value /\ value <> "" /\
    (configuredNamespace config = "" -> namespaceOption op = "" -> value = "default") /\
    (configuredNamespace config = "" -> op = OpHealth \/ op = OpMetrics -> value = "default").
Proof.
  intros Hin. destruct (invoke_events client op) as (method & path & body & Hev).
  rewrite Hev in Hin. apply doRequest_namespace_header in Hin.
  rewrite resolveNamespace_NewClient in Hin.
  exists (resolvedNamespace config (namespaceOption op)).
  split; [assumption |]. split; [apply resolvedNamespace_nonempty |].
  assert (Hdefault : configuredNamespace config = "" -> namespaceOption op = "" ->
                     resolvedNamespace config (namespaceOption op) = "default").
  { intros Hc Ho. unfold resolvedNamespace. rewrite Hc, Ho. reflexivity. }
  split; [assumption |].
  intros Hc [-> | ->]; apply Hdefault; auto.
Qed.

End Namespace.

(** ** The claims on the scenarios of the test suite *)

(** TestRetriesExhausted: [MaxRetries = 2] and a server that always answers
    503 give 3 attempts and a [UcotronRetriesExhaustedError] of 3 attempts
    around the parsed 503. *)
Lemma retries_exhausted_after_5xx_witness :
  let call := doRequest stubLib alwaysUnavailable (NewClient testURL (retryOf 2 1 1))
                MethodGet healthPath None "" in
  fst call
  = Failure (RetriesExhaustedError 3
               (Some (ServerError {| UcotronServerError.StatusCode := 503;
                                     UcotronServerError.Code := "UNAVAILABLE";
                                     UcotronServerError.Message := "service unavailable" |}))) /\
  Z.of_nat (attempts (snd call)) = 3.
Proof.
  cbv zeta.
  destruct (retries_exhausted_after_5xx stubLib alwaysUnavailable
              (NewClient testURL (retryOf 2 1 1)) MethodGet healthPath None ""
              (getRequestOf healthPath "default"))
    as (statusCode & respBody & Hout & Hresult & Hcount).
  - vm_compute. split; [discriminate | reflexivity].
  - vm_compute. reflexivity.
  - intros k _. exists 503, unavailableJSON. split; [reflexivity | lia].
  - intros k. reflexivity.
  - cbn in Hout. inversion Hout; subst statusCode respBody. split.
    + exact Hresult.
    + exact Hcount.
Defined.

(** C1 as stated fails in three ways.  With [MaxRetries] the largest [int],
    [MaxRetries + 1] wraps around to the smallest one: the loop is not
    entered, no attempt is made, and the error has a negative [Attempts] and
    a nil [LastError].  A caller that cancels during the first wait ends the
    call after one attempt, with the context's error.  And a body that
    cannot be marshalled ends the call before the first attempt. *)
Lemma retries_exhausted_counterexample :
  (let c := NewClient testURL (retryOf 9223372036854775807 1 1) in
   let call := doRequest stubLib alwaysUnavailable c MethodGet healthPath None "" in
   0 <= MaxRetries (retryConfig c) /\
   call = (Failure (RetriesExhaustedError (-9223372036854775808) None), []) /\
   Z.of_nat (attempts (snd call)) <> MaxRetries (retryConfig c) + 1) /\
  (let c := NewClient testURL (retryOf 2 1 1) in
   let call := doRequest stubLib cancelledWhileSleeping c MethodGet healthPath None "" in
   fst call = Failure (ContextError Canceled) /\
   Z.of_nat (attempts (snd call)) = 1 /\
   Z.of_nat (attempts (snd call)) <> MaxRetries (retryConfig c) + 1) /\
  (let c := NewClient testURL (retryOf 2 1 1) in
   let payload := LearnBody {| LearnRequest_Output := "User prefers dark mode.";
                               LearnRequest_Metadata := Some tt |} in
   let call := doRequest unmarshalableLib alwaysUnavailable c MethodPost "/api/v1/learn"
                 (Some payload) "" in
   call = (Failure (WrappedError "failed to marshal request body"
                      (ForeignError "json: unsupported type: chan int")), []) /\
   Z.of_nat (attempts (snd call)) <> MaxRetries (retryConfig c) + 1).
Proof.
  cbv zeta. split; [| split]; repeat split; vm_compute; try reflexivity; discriminate.
Qed.

(** TestServerError4xxNotRetried: a 404 ends the call after one attempt,
    whatever the retry budget. *)
Lemma client_error_returned_at_once_witness :
  let call := doRequest stubLib alwaysNotFound (NewClient testURL (retryOf 3 1 1))
                MethodGet "/api/v1/memories/999" None "" in
  fst call = Failure (ServerError {| UcotronServerError.StatusCode := 404;
                                     UcotronServerError.Code := "NOT_FOUND";
                                     UcotronServerError.Message := "not found" |}) /\
  attempts (snd call) = 1%nat /\
  List.filter isBackoff (snd call) = [].
Proof.
  cbv zeta.
  destruct (client_error_returned_at_once stubLib alwaysNotFound
              (NewClient testURL (retryOf 3 1 1)) MethodGet "/api/v1/memories/999" None ""
              (getRequestOf "/api/v1/memories/999" "default") 404 notFoundJSON)
    as (Hcall & _ & Hcount & Hwaits).
  - lia.
  - vm_compute. reflexivity.
  - rewrite Hcall. split; [reflexivity | split; reflexivity].
Defined.

(** A 500 with a body that is not JSON, or a refused connection, on the
    first attempt and a 200 on the second: two attempts, and the body of the
    second. *)
Lemma retry_once_then_success_witness :
  (let call := doRequest stubLib failsOnce (NewClient testURL (retryOf 2 1 1))
                 MethodGet healthPath None "" in
   fst call = Success "{}" /\ attempts (snd call) = 2%nat) /\
  (let call := doRequest stubLib refusedOnce (NewClient testURL (retryOf 1 100 1000))
                 MethodGet healthPath None "" in
   fst call = Success "{}" /\ attempts (snd call) = 2%nat).
Proof.
  cbv zeta. split.
  - destruct (retry_once_then_success stubLib failsOnce
                (NewClient testURL (retryOf 2 1 1)) MethodGet healthPath None ""
                (getRequestOf healthPath "default") (Response 500 "upstream crashed") 200 "{}")
      as (Hcall & Hcount).
    + vm_compute. split; discriminate.
    + vm_compute. reflexivity.
    + cbn. lia.
    + reflexivity.
    + reflexivity.
    + lia.
    + rewrite Hcall. split; reflexivity.
  - destruct (retry_once_then_success stubLib refusedOnce
                (NewClient testURL (retryOf 1 100 1000)) MethodGet healthPath None ""
                (getRequestOf healthPath "default")
                (DoError (ForeignError "connection refused")) 200 "{}")
      as (Hcall & Hcount).
    + vm_compute. split; discriminate.
    + vm_compute. reflexivity.
    + exact I.
    + reflexivity.
    + reflexivity.
    + lia.
    + rewrite Hcall. split; reflexivity.
Defined.

(** A caller that cancels during the first wait gets [context.Canceled]; a
    deadline that expires with the request in flight gets the context's
    error when an attempt is left, and [UcotronRetriesExhaustedError] on the
    last attempt (TestContextCancellation, which has [MaxRetries = 0]). *)
Lemma cancellation_stops_the_call_witness :
  (let call := doRequest stubLib cancelledWhileSleeping (NewClient testURL (retryOf 2 1 1))
                 MethodGet healthPath None "" in
   fst call = Failure (ContextError Canceled) /\
   exists pre, snd call = pre ++ [EvBackoff 0 1000000 (Some Canceled)]) /\
  (let call := doRequest stubLib deadlineInFlight (NewClient testURL (retryOf 1 1 1))
                 MethodGet healthPath None "" in
   fst call = Failure (ContextError DeadlineExceeded)) /\
  (let call := doRequest stubLib deadlineInFlight (NewClient testURL (retryOf 0 1 1))
                 MethodGet healthPath None "" in
   exists message cause,
     errors_Is cause DeadlineExceeded = true /\
     fst call = Failure (RetriesExhaustedError 1 (Some (ConnectionError message cause)))).
Proof.
  cbv zeta. split; [| split].
  - apply (cancellation_stops_the_call stubLib cancelledWhileSleeping
             (NewClient testURL (retryOf 2 1 1)) MethodGet healthPath None "").
    vm_compute. right. left. reflexivity.
  - destruct (proj2 (cancellation_stops_the_call stubLib deadlineInFlight
                       (NewClient testURL (retryOf 1 1 1)) MethodGet healthPath None "")
                0 (getRequestOf healthPath "default") DeadlineExceeded)
      as [_ [(_ & Hresult & _) | (Hlast & _)]].
    + vm_compute. left. reflexivity.
    + eexists. split; [reflexivity | split; reflexivity].
    + exact Hresult.
    + vm_compute in Hlast. discriminate.
  - destruct (proj2 (cancellation_stops_the_call stubLib deadlineInFlight
                       (NewClient testURL (retryOf 0 1 1)) MethodGet healthPath None "")
                0 (getRequestOf healthPath "default") DeadlineExceeded)
      as [_ [(Hearlier & _) | (_ & Hresult & _)]].
    + vm_compute. left. reflexivity.
    + eexists. split; [reflexivity | split; reflexivity].
    + vm_compute in Hearlier. discriminate.
    + exact Hresult.
Defined.

(** C5 as stated fails on the last attempt: in TestContextCancellation the
    deadline expires with the only request in flight, and the call returns a
    [UcotronRetriesExhaustedError], not the context's error. *)
Lemma cancellation_counterexample :
  let c := NewClient testURL (retryOf 0 1 1) in
  let call := doRequest stubLib deadlineInFlight c MethodGet healthPath None "" in
  let req := getRequestOf healthPath "default" in
  snd call = [EvRoundTrip 0 req (transport deadlineInFlight 0 req)] /\
  cancelledInFlight deadlineInFlight 0 req DeadlineExceeded /\
  fst call
  = Failure (RetriesExhaustedError 1
               (Some (ConnectionError "request to GET /api/v1/health failed"
                        (WrappedError "Get" (ContextError DeadlineExceeded))))) /\
  (forall e, fst call <> Failure (ContextError e)).
Proof.
  cbv zeta. split; [| split; [| split]].
  - vm_compute. reflexivity.
  - eexists. split; [reflexivity | split; reflexivity].
  - vm_compute. reflexivity.
  - intros e. vm_compute. discriminate.
Qed.

(** A refused connection is wrapped when the budget is used up
    (TestConnectionError), followed by attempt 1 when the wait ends, and
    dropped for the context's error when the wait is interrupted. *)
Lemma connection_error_never_bare_witness :
  (let call := doRequest stubLib refusedThenCancelled (NewClient testURL (retryOf 0 1 1))
                 MethodGet healthPath None "" in
   fst call
   = Failure (RetriesExhaustedError 1
                (Some (ConnectionError "request to GET /api/v1/health failed"
                         (ForeignError "connection refused"))))) /\
  (let call := doRequest stubLib refusedOnce (NewClient testURL (retryOf 1 1 1))
                 MethodGet healthPath None "" in
   exists out, In (EvRoundTrip 1 (getRequestOf healthPath "default") out) (snd call)) /\
  (let call := doRequest stubLib refusedThenCancelled (NewClient testURL (retryOf 1 1 1))
                 MethodGet healthPath None "" in
   fst call = Failure (ContextError Canceled)).
Proof.
  cbv zeta. split; [| split].
  - destruct (proj2 (proj2 (connection_error_never_bare stubLib refusedThenCancelled
                       (NewClient testURL (retryOf 0 1 1)) MethodGet healthPath None ""))
                0 (getRequestOf healthPath "default")
                (DoError (ForeignError "connection refused")) (ForeignError "connection refused"))
      as [[out Hnext] | [[message Hwrapped] | (e & _ & Hctx & _)]].
    + vm_compute. left. reflexivity.
    + reflexivity.
    + vm_compute in Hnext. destruct Hnext as [Hnext | []]. discriminate Hnext.
    + rewrite Hwrapped. vm_compute. vm_compute in Hwrapped. congruence.
    + vm_compute in Hctx. discriminate.
  - destruct (proj2 (proj2 (connection_error_never_bare stubLib refusedOnce
                       (NewClient testURL (retryOf 1 1 1)) MethodGet healthPath None ""))
                0 (getRequestOf healthPath "default")
                (DoError (ForeignError "connection refused")) (ForeignError "connection refused"))
      as [Hnext | [[message Hwrapped] | (e & Hdone & _)]].
    + vm_compute. left. reflexivity.
    + reflexivity.
    + exact Hnext.
    + vm_compute in Hwrapped. discriminate.
    + vm_compute in Hdone. discriminate.
  - destruct (proj2 (proj2 (connection_error_never_bare stubLib refusedThenCancelled
                       (NewClient testURL (retryOf 1 1 1)) MethodGet healthPath None ""))
                0 (getRequestOf healthPath "default")
                (DoError (ForeignError "connection refused")) (ForeignError "connection refused"))
      as [[out Hnext] | [[message Hwrapped] | (e & Hdone & Hctx & _)]].
    + vm_compute. left. reflexivity.
    + reflexivity.
    + vm_compute in Hnext. destruct Hnext as [Hnext | [Hnext | []]]; discriminate Hnext.
    + vm_compute in Hwrapped. discriminate.
    + cbn in Hdone. inversion Hdone; subst e. exact Hctx.
Defined.

(** C7 as stated fails when the wait after a refused connection is
    interrupted: the failure is neither followed by another attempt nor
    wrapped; the call returns the context's error. *)
Lemma connection_error_counterexample :
  let c := NewClient testURL (retryOf 1 1 1) in
  let call := doRequest stubLib refusedThenCancelled c MethodGet healthPath None "" in
  let req := getRequestOf healthPath "default" in
  snd call = [EvRoundTrip 0 req (DoError (ForeignError "connection refused"));
              EvBackoff 0 1000000 (Some Canceled)] /\
  attempts (snd call) = 1%nat /\
  fst call = Failure (ContextError Canceled) /\
  (forall n last, fst call <> Failure (RetriesExhaustedError n last)).
Proof.
  cbv zeta. split; [| split; [| split]].
  - vm_compute. reflexivity.
  - vm_compute. reflexivity.
  - vm_compute. reflexivity.
  - intros n last. vm_compute. discriminate.
Qed.

(** The bodies of the test servers: an error body, an object without
    message, and a body that is not JSON. *)
Lemma parseServerError_body_or_status_text_witness :
  parseServerError jsonLib 404 notFoundJSON
  = {| UcotronServerError.StatusCode := 404;
       UcotronServerError.Code := "NOT_FOUND";
       UcotronServerError.Message := "not found" |} /\
  parseServerError jsonLib 503 "{}"
  = {| UcotronServerError.StatusCode := 503;
       UcotronServerError.Code := "Service Unavailable";
       UcotronServerError.Message := "{}" |} /\
  parseServerError jsonLib 500 "upstream crashed"
  = {| UcotronServerError.StatusCode := 500;
       UcotronServerError.Code := "Internal Server Error";
       UcotronServerError.Message := "upstream crashed" |}.
Proof.
  split; [| split].
  - apply (proj1 (parseServerError_body_or_status_text jsonLib parseExamples matchesASCII
                    (fun body => eq_refl) 404 notFoundJSON)
             [("code", JString "NOT_FOUND"); ("message", JString "not found")]).
    + reflexivity.
    + reflexivity.
    + discriminate.
  - apply (proj1 (proj2 (parseServerError_body_or_status_text jsonLib parseExamples matchesASCII
                           (fun body => eq_refl) 503 "{}")) []).
    + reflexivity.
    + right. reflexivity.
  - apply (proj2 (proj2 (parseServerError_body_or_status_text jsonLib parseExamples matchesASCII
                           (fun body => eq_refl) 500 "upstream crashed"))).
    intros members. discriminate.
Defined.

(** C8 as stated fails for a body that is a JSON object with a non-empty
    message but a code that is not a string: the decoder stores the message,
    reports a type error, and [parseServerError] falls back to the status
    text and the raw body. *)
Lemma parseServerError_counterexample :
  parseExamples numericCodeJSON
  = Some (JObject [("code", JNumber "123"); ("message", JString "boom")]) /\
  messageOf matchesASCII [("code", JNumber "123"); ("message", JString "boom")] = "boom" /\
  json_Unmarshal_APIErrorBody jsonLib numericCodeJSON
  = ({| APIErrorBody.Code := ""; APIErrorBody.Message := "boom" |}, Some UnmarshalTypeError) /\
  parseServerError jsonLib 400 numericCodeJSON
  = {| UcotronServerError.StatusCode := 400;
       UcotronServerError.Code := "Bad Request";
       UcotronServerError.Message := numericCodeJSON |} /\
  UcotronServerError.Message (parseServerError jsonLib 400 numericCodeJSON) <> "boom".
Proof. vm_compute. intuition discriminate. Qed.

(** The three scenarios of the namespace tests: no namespace configured, a
    default only (TestNamespaceHeader), a default and an override
    (TestNamespaceOverride). *)
Lemma namespace_header_resolution_witness :
  Header (getRequestOf healthPath "default") !! namespaceHeader = Some "default" /\
  Header (getRequestOf healthPath "custom-ns") !! namespaceHeader = Some "custom-ns" /\
  Header (getRequestOf healthPath "override-ns") !! namespaceHeader = Some "override-ns".
Proof.
  split; [| split].
  - apply (namespace_header_resolution stubLib alwaysNotFound testURL None
             MethodGet healthPath None "" 0 _ (Response 404 notFoundJSON)).
    vm_compute. left. reflexivity.
  - apply (namespace_header_resolution stubLib alwaysNotFound testURL
             (Some {| TimeoutMs := 0; Retry := None; DefaultNamespace := "custom-ns" |})
             MethodGet healthPath None "" 0 _ (Response 404 notFoundJSON)).
    vm_compute. left. reflexivity.
  - apply (namespace_header_resolution stubLib alwaysNotFound testURL
             (Some {| TimeoutMs := 0; Retry := None; DefaultNamespace := "default-ns" |})
             MethodGet healthPath None "override-ns" 0 _ (Response 404 notFoundJSON)).
    vm_compute. left. reflexivity.
Defined.

(** C4 as stated fails when no namespace is configured or supplied: the
    header is not left out, it is sent with the value ["default"]. *)
Lemma namespace_header_counterexample :
  let c := NewClient testURL None in
  let call := doRequest stubLib alwaysNotFound c MethodGet healthPath None "" in
  let req := getRequestOf healthPath "default" in
  configuredNamespace None = "" /\
  snd call = [EvRoundTrip 0 req (Response 404 notFoundJSON)] /\
  Header req !! namespaceHeader = Some "default" /\
  Header req !! namespaceHeader <> None.
Proof.
  cbv zeta. split; [| split; [| split]].
  - reflexivity.
  - vm_compute. reflexivity.
  - vm_compute. reflexivity.
  - vm_compute. discriminate.
Qed.

(** [Health] on a client built with a nil config sends ["default"]. *)
Lemma every_request_carries_namespace_witness :
  exists value,
    Header (getRequestOf healthPath "default") !! namespaceHeader = Some value /\
    value <> "" /\
    (configuredNamespace None = "" -> namespaceOption (OpHealth (Metadata := unit)) = "" ->
     value = "default") /\
    (configuredNamespace None = "" ->
     OpHealth (Metadata := unit) = OpHealth \/ OpHealth (Metadata := unit) = OpMetrics ->
     value = "default").
Proof.
  apply (every_request_carries_namespace stubLib alwaysNotFound testURL None OpHealth 0
           (getRequestOf healthPath "default") (Response 404 notFoundJSON)).
  vm_compute. left. reflexivity.
Defined.

(** * Further properties of the client *)

(** ** Counting the events of a trace *)

Lemma attempts_app (t1 t2 : list Event) : attempts (t1 ++ t2) = (attempts t1 + attempts t2)%nat.
Proof. unfold attempts. rewrite List.filter_app, length_app. reflexivity. Qed.

Lemma waits_app (t1 t2 : list Event) : waits (t1 ++ t2) = (waits t1 + waits t2)%nat.
Proof. unfold waits. rewrite List.filter_app, length_app. reflexivity. Qed.

Lemma attemptIndices_app (t1 t2 : list Event) :
  attemptIndices (t1 ++ t2) = attemptIndices t1 ++ attemptIndices t2.
Proof.
  induction t1 as [| [k req out | k d e] t1 IH]; cbn; [reflexivity | |]; rewrite IH; reflexivity.
Qed.

Lemma totalWait_app (t1 t2 : list Event) : totalWait (t1 ++ t2) = totalWait t1 + totalWait t2.
Proof.
  induction t1 as [| [k req out | k d e] t1 IH]; cbn; [reflexivity | |]; rewrite IH; lia.
Qed.

Section RunFacts.

Context {Metadata : Type} (lib : GoLib Metadata).
Variables (w : World) (c : Client) (method path : string) (body : option (Payload Metadata)).
Variables (url ns : string) (maxAttempts : Z).

#[local] Abbreviation step' := (Step lib w c method path body url ns maxAttempts).
#[local] Abbreviation run' := (Run lib w c method path body url ns maxAttempts).
#[local] Abbreviation recorded' := (recordedError lib method path).
#[local] Abbreviation shape := (resultShape lib w c method path body url ns maxAttempts).

Hypothesis maxAttempts_int : maxAttempts <= Int64.max_int.

(** The events of one pass: at most one round trip, followed by at most
    one wait; a pass that continues made its round trip, and waited unless
    the attempt was the last one. *)
Lemma Step_counts (attempt : Z) (ctl : Control) (evs : list Event) :
  0 <= attempt < maxAttempts ->
  step' attempt ctl evs ->
  (attempts evs <= 1)%nat /\ (waits evs <= attempts evs)%nat /\
  attemptIndices evs = repeat attempt (attempts evs) /\
  (waits evs = 1%nat -> attempt < maxAttempts - 1) /\
  (forall err, ctl = Continue err ->
     attempts evs = 1%nat /\ (waits evs = 0%nat -> attempt = maxAttempts - 1)).
Proof.
  intros Hrange Hstep.
  assert (Hsub : Int64.sub maxAttempts 1 = maxAttempts - 1)
    by (apply sub_1_in_range; unfold Int64.min_int; lia).
  inversion Hstep; subst; cbn; rewrite ?Hsub in *;
    repeat split; try lia; try reflexivity; intros; try discriminate; try lia.
Qed.

(** The counts of a run: no more attempts than the loop has iterations
    left, a wait only after an attempt, and an attempt after every wait but
    the last. *)
Lemma Run_counts (attempt : Z) (lastErr : option error) (r : CallResult) (trace : list Event) :
  run' attempt lastErr r trace ->
  Z.of_nat (attempts trace) <= maxAttempts - attempt /\
  (waits trace <= attempts trace <= waits trace + 1)%nat /\
  Z.of_nat (waits trace) <= Z.max 0 (maxAttempts - 1 - attempt) /\
  attemptIndices trace = seqZ attempt (Z.of_nat (attempts trace)).
Proof.
  induction 1 as [lastErr | attempt lastErr r evs Hrange Hstep
                 | attempt lastErr err evs r trace Hrange Hstep Hrun IH].
  - cbn. repeat split; try lia; reflexivity.
  - destruct (Step_counts _ _ _ Hrange Hstep) as (H1 & H2 & H3 & H4 & _).
    repeat split; try lia.
    rewrite H3. destruct (attempts evs) as [| [| n]]; try reflexivity. lia.
  - destruct (Step_counts _ _ _ Hrange Hstep) as (H1 & H2 & H3 & H4 & H5).
    destruct (H5 err eq_refl) as [H6 H7].
    destruct IH as (I1 & I2 & I3 & I4).
    rewrite attempts_app, waits_app, attemptIndices_app, H3, I4, H6.
    assert (Hlast : attempt = maxAttempts - 1 -> trace = []).
    { intros ->. inversion Hrun; subst; try lia. reflexivity. }
    assert (Hseq : repeat attempt 1 ++ seqZ (attempt + 1) (Z.of_nat (attempts trace))
                   = seqZ attempt (Z.of_nat (1 + attempts trace))).
    { cbn [repeat app]. rewrite (seqZ_cons attempt) by lia. f_equal. f_equal; lia. }
    rewrite Hseq.
    destruct (waits evs) as [| n] eqn:Hw.
    + rewrite (Hlast (H7 eq_refl)) in *. cbn in *. repeat split; try lia.
    + assert (n = 0%nat) by lia. subst n. specialize (H4 eq_refl).
      repeat split; try lia.
Qed.

(** Every wait of a run follows a failed attempt that was not the last
    one, lasts [retryDelay] of that attempt, and ends as the context says. *)
Lemma Run_waits (attempt : Z) (lastErr : option error) (r : CallResult) (trace : list Event) :
  run' attempt lastErr r trace ->
  forall k d e, In (EvBackoff k d e) trace ->
    d = retryDelay c k /\ attempt <= k < maxAttempts - 1 /\ e = ctxDone w k /\
    exists req err,
      In (EvRoundTrip k req (transport w k req)) trace /\
      recorded' (transport w k req) = Some err.
Proof.
  induction 1 as [lastErr | attempt lastErr r evs Hrange Hstep
                 | attempt lastErr err evs r trace Hrange Hstep Hrun IH];
    intros k d e Hin.
  - inversion Hin.
  - assert (Hsub : Int64.sub maxAttempts 1 = maxAttempts - 1)
      by (apply sub_1_in_range; unfold Int64.min_int; lia).
    inversion Hstep; subst; events Hin. rewrite Hsub in *.
    repeat split; try lia; try congruence.
    do 2 eexists. split; [left; reflexivity | eassumption].
  - assert (Hsub : Int64.sub maxAttempts 1 = maxAttempts - 1)
      by (apply sub_1_in_range; unfold Int64.min_int; lia).
    apply in_app_or in Hin as [Hin | Hin].
    + inversion Hstep; subst; events Hin. rewrite Hsub in *.
      repeat split; try lia; try congruence.
      do 2 eexists. split; [left; reflexivity | eassumption].
    + destruct (IH k d e Hin) as (? & ? & ? & req & err' & ? & ?).
      repeat split; try assumption; try lia.
      exists req, err'. split; [apply in_or_app; right; assumption | assumption].
Qed.


Lemma recorded_2xx (st : Z) (b : string) :
  200 <= st < 300 -> recorded' (Response st b) = None.
Proof.
  intros H. cbn.
  replace ((200 <=? st) && (st <? 300)) with true
    by (symmetry; apply andb_true_iff; split; [apply Z.leb_le | apply Z.ltb_lt]; lia).
  reflexivity.
Qed.

Lemma recorded_4xx (st : Z) (b : string) :
  400 <= st < 500 -> recorded' (Response st b) = None.
Proof.
  intros H. cbn.
  replace ((400 <=? st) && (st <? 500)) with true
    by (symmetry; apply andb_true_iff; split; [apply Z.leb_le | apply Z.ltb_lt]; lia).
  rewrite orb_true_r. reflexivity.
Qed.

(** The error a response leaves in [lastErr] is the server error parsed
    from it, and its status is neither 2xx nor 4xx. *)
Lemma recorded_response (st : Z) (b : string) (err : error) :
  recorded' (Response st b) = Some err ->
  err = ServerError (parseServerError lib st b) /\
  ~ 200 <= st < 300 /\ ~ 400 <= st < 500.
Proof.
  intros H. split; [| split]; [| intros Hst | intros Hst].
  - cbn in H. destruct (_ || _); congruence.
  - rewrite recorded_2xx in H by assumption. discriminate.
  - rewrite recorded_4xx in H by assumption. discriminate.
Qed.

Lemma recorded_other (st : Z) (b : string) :
  ~ 200 <= st < 300 -> ~ 400 <= st < 500 ->
  recorded' (Response st b) = Some (ServerError (parseServerError lib st b)).
Proof.
  intros H2 H4. cbn.
  replace ((200 <=? st) && (st <? 300)) with false
    by (symmetry; apply andb_false_iff;
        destruct (Z.leb_spec 200 st); [right; apply Z.ltb_ge; lia | left; reflexivity]).
  replace ((400 <=? st) && (st <? 500)) with false
    by (symmetry; apply andb_false_iff;
        destruct (Z.leb_spec 400 st); [right; apply Z.ltb_ge; lia | left; reflexivity]).
  reflexivity.
Qed.

(** The error a transport failure leaves in [lastErr] is a connection
    error around the transport's own error. *)
Lemma recorded_transport (out : RoundTrip) (cause err : error) :
  transportFailure out = Some cause -> recorded' out = Some err ->
  exists message, err = ConnectionError message cause.
Proof.
  destruct out; cbn; intros Hc Hr; inversion Hc; inversion Hr; subst; eauto.
Qed.

Lemma Run_resultShape (attempt : Z) (lastErr : option error) (r : CallResult) (trace : list Event) :
  run' attempt lastErr r trace -> shape attempt lastErr r trace.
Proof.
  induction 1 as [lastErr | attempt lastErr r evs Hrange Hstep
                 | attempt lastErr err evs r trace Hrange Hstep Hrun IH].
  - cbn. split; [reflexivity |]. split; [lia |]. split; [intros ? ? ? [] |]. left. auto.
  - inversion Hstep; subst; cbn.
    + match goal with H : newRequest _ _ _ _ _ = inr _ |- _ =>
        destruct (newRequest_error _ _ _ _ _ _ H) as (m & e & ->) end.
      split; [reflexivity | assumption].
    + exists [], attempt, req, statusCode. auto.
    + exists [], attempt, req, statusCode, respBody. auto.
    + exists [EvRoundTrip attempt req (transport w attempt req)], attempt. auto.
  - assert (Hsub : Int64.sub maxAttempts 1 = maxAttempts - 1)
      by (apply sub_1_in_range; unfold Int64.min_int; lia).
    assert (Hreq : exists req, newRequest lib method url body ns = inl req)
      by (inversion Hstep; eauto).
    assert (Hevs : attempts evs = 1%nat /\ (forall k d e, In (EvBackoff k d e) evs -> e = None))
      by (inversion Hstep; subst; (split; [reflexivity |]); intros k d e Hin; events Hin; reflexivity).
    destruct Hevs as [Hatt Hnone]. destruct Hreq as [req0 Hreq].
    destruct r as [data | [e | m cs | n last | e | d | m cs]]; cbn in IH |- *.
    + destruct IH as (pre & k & req & st & -> & ? & ?).
      exists (evs ++ pre), k, req, st. rewrite app_assoc. auto.
    + destruct IH as (pre & k & req & st & b & -> & ? & ? & ?).
      exists (evs ++ pre), k, req, st, b. rewrite app_assoc. auto.
    + destruct IH.
    + destruct IH as (Hn & Hcount & Hw & Hlast).
      split; [assumption |]. split; [rewrite attempts_app; lia |].
      split.
      { intros k d e Hin. apply in_app_or in Hin as [Hin | Hin]; eauto. }
      right. split; [lia |].
      destruct Hlast as [(Heq & -> & ->) | (Hlt & pre & req & err' & -> & ? & ?)].
      * assert (attempt = maxAttempts - 1) by lia. subst attempt.
        inversion Hstep; subst; rewrite ?Hsub in *; try lia.
        exists [], req, err. rewrite app_nil_r. auto.
      * exists (evs ++ pre), req, err'. rewrite app_assoc. auto.
    + destruct IH as (pre & k & -> & ?).
      exists (evs ++ pre), k. rewrite app_assoc. auto.
    + destruct IH.
    + destruct IH as [_ Hfail]. congruence.
Qed.

(** A run whose request cannot be built stops before its first attempt. *)
Lemma Run_no_request (attempt : Z) (lastErr : option error) (r : CallResult) (trace : list Event)
    (err : error) :
  run' attempt lastErr r trace -> attempt < maxAttempts ->
  newRequest lib method url body ns = inr err ->
  r = Failure err /\ trace = [].
Proof.
  intros Hrun Hlt Hreq.
  inversion Hrun as [| ? ? ? ? ? Hstep | ? ? ? ? ? ? ? Hstep]; subst; try lia;
    inversion Hstep; subst; try congruence.
  split; [congruence | reflexivity].
Qed.

End RunFacts.

Section CallFacts.

Context {Metadata : Type} (lib : GoLib Metadata).
Variables (w : World) (c : Client) (method path : string) (body : option (Payload Metadata)).
Variable namespace : string.

#[local] Abbreviation aCall := (doRequest lib w c method path body namespace).
#[local] Abbreviation aRequest :=
  (newRequest lib method (baseURL c +:+ path) body (resolveNamespace c namespace)).
#[local] Abbreviation aRun :=
  (Run lib w c method path body (baseURL c +:+ path) (resolveNamespace c namespace) (maxAttemptsOf c)).

Lemma maxAttemptsOf_int : maxAttemptsOf c <= Int64.max_int.
Proof. exact (proj2 (maxAttemptsOf_in_range c)). Qed.

(** A call is the empty run of a loop that is not entered, or a run from
    attempt 0. *)
Lemma doRequest_cases :
  (maxAttemptsOf c <= 0 /\ aCall = (Failure (RetriesExhaustedError (maxAttemptsOf c) None), []))
  \/ (0 < maxAttemptsOf c /\ aRun 0 None (fst aCall) (snd aCall)).
Proof.
  destruct (Z_lt_le_dec 0 (maxAttemptsOf c)) as [Hpos | Hle].
  - right. split; [assumption |]. apply doRequest_Run. assumption.
  - left. split; [assumption |]. apply doRequest_no_attempt. assumption.
Qed.

(** X1: a call makes no more attempts than [maxAttempts], no more waits
    than [maxAttempts - 1], and its waits and attempts alternate: never a
    wait without an attempt before it, and at most one attempt more than
    waits. *)
Theorem doRequest_attempt_budget :
  Z.of_nat (attempts (snd aCall)) <= Z.max 0 (maxAttemptsOf c) /\
  Z.of_nat (waits (snd aCall)) <= Z.max 0 (maxAttemptsOf c - 1) /\
  (waits (snd aCall) <= attempts (snd aCall) <= waits (snd aCall) + 1)%nat.
Proof.
  destruct doRequest_cases as [[Hle ->] | [Hpos Hrun]].
  - cbn. lia.
  - destruct (Run_counts lib w c method path body _ _ _ maxAttemptsOf_int _ _ _ _ Hrun)
      as (H1 & H2 & H3 & _).
    lia.
Qed.

(** X2: the attempts of a call are numbered 0, 1, 2, ... in order, and
    all of them send the same request, the one built from the arguments of
    the call; the outcome of each is the transport's. *)
Theorem doRequest_attempts_in_order :
  attemptIndices (snd aCall) = seqZ 0 (Z.of_nat (attempts (snd aCall))) /\
  forall k req out k' req' out',
    In (EvRoundTrip k req out) (snd aCall) -> In (EvRoundTrip k' req' out') (snd aCall) ->
    req = req' /\ aRequest = inl req /\ out = transport w k req.
Proof.
  destruct doRequest_cases as [[Hle ->] | [Hpos Hrun]].
  - split; [reflexivity |]. intros ? ? ? ? ? ? [].
  - split.
    + apply (Run_counts lib w c method path body _ _ _ maxAttemptsOf_int _ _ _ _ Hrun).
    + intros k req out k' req' out' Hin Hin'.
      destruct (Run_round_trips lib w c method path body _ _ _ _ _ _ _ Hrun _ _ _ Hin) as (H1 & H2 & _).
      destruct (Run_round_trips lib w c method path body _ _ _ _ _ _ _ Hrun _ _ _ Hin') as (H1' & _).
      split; [congruence |]. split; assumption.
Qed.

(** X3: every wait of a call follows a failed attempt that was not the
    last one, lasts [retryDelay] of that attempt, and is interrupted exactly
    when the context is done. *)
Theorem doRequest_wait_follows_failed_attempt (k : Z) (d : Duration) (e : option ctxError) :
  In (EvBackoff k d e) (snd aCall) ->
  d = retryDelay c k /\ 0 <= k < maxAttemptsOf c - 1 /\ e = ctxDone w k /\
  exists req err,
    In (EvRoundTrip k req (transport w k req)) (snd aCall) /\
    recordedError lib method path (transport w k req) = Some err.
Proof.
  intros Hin. destruct doRequest_cases as [[Hle Hcall] | [Hpos Hrun]].
  - rewrite Hcall in Hin. inversion Hin.
  - exact (Run_waits lib w c method path body _ _ _ maxAttemptsOf_int _ _ _ _ Hrun _ _ _ Hin).
Qed.

(** X4: a call returns a body only when its last event is a response
    with a status from 200 to 299, and the body is that of this response. *)
Theorem doRequest_success_from_2xx (data : string) :
  fst (doRequest lib w c method path body namespace) = Success data ->
  exists pre k req statusCode,
    snd (doRequest lib w c method path body namespace)
    = pre ++ [EvRoundTrip k req (Response statusCode data)] /\
    transport w k req = Response statusCode data /\ 200 <= statusCode < 300.
Proof.
  intros Hres. destruct doRequest_cases as [[Hle Hcall] | [Hpos Hrun]].
  - rewrite Hcall in Hres. discriminate.
  - apply (Run_resultShape lib w c method path body _ _ _ maxAttemptsOf_int) in Hrun.
    rewrite Hres in Hrun. exact Hrun.
Qed.

(** X5: a server error returned as such (not inside exhausted retries)
    has a status from 400 to 499, and was parsed from the response that is
    the last event of the call. *)
Theorem doRequest_server_error_is_4xx (e : UcotronServerError.t) :
  fst aCall = Failure (ServerError e) ->
  400 <= UcotronServerError.StatusCode e < 500 /\
  exists pre k req respBody,
    snd aCall = pre ++ [EvRoundTrip k req (Response (UcotronServerError.StatusCode e) respBody)] /\
    transport w k req = Response (UcotronServerError.StatusCode e) respBody /\
    e = parseServerError lib (UcotronServerError.StatusCode e) respBody.
Proof.
  intros Hres. destruct doRequest_cases as [[Hle Hcall] | [Hpos Hrun]].
  - rewrite Hcall in Hres. discriminate.
  - apply (Run_resultShape lib w c method path body _ _ _ maxAttemptsOf_int) in Hrun.
    rewrite Hres in Hrun. destruct Hrun as (pre & k & req & st & b & Htr & Hout & Hst & ->).
    rewrite parseServerError_StatusCode. split; [assumption |].
    exists pre, k, req, b. auto.
Qed.

(** X6: a [UcotronRetriesExhaustedError] is returned only by a loop that
    ran to its end: [Attempts] is [maxAttempts], that many attempts were
    made, no wait was interrupted, and [LastError] is nil exactly when no
    attempt was made; otherwise it is the error recorded for the last
    attempt, which is the last event of the call. *)
Theorem doRequest_exhausted_budget_spent (n : Z) (last : option error) :
  fst aCall = Failure (RetriesExhaustedError n last) ->
  n = maxAttemptsOf c /\
  Z.of_nat (attempts (snd aCall)) = Z.max 0 n /\
  (forall k d e, In (EvBackoff k d e) (snd aCall) -> e = None) /\
  ((n <= 0 /\ last = None /\ snd aCall = []) \/
   (0 < n /\
    exists pre req err,
      snd aCall = pre ++ [EvRoundTrip (n - 1) req (transport w (n - 1) req)] /\
      recordedError lib method path (transport w (n - 1) req) = Some err /\
      last = Some err)).
Proof.
  intros Hres. destruct doRequest_cases as [[Hle Hcall] | [Hpos Hrun]].
  - rewrite Hcall in *. cbn in Hres. inversion Hres; subst. cbn.
    split; [reflexivity |]. split; [lia |]. split; [intros ? ? ? [] |]. left. auto.
  - apply (Run_resultShape lib w c method path body _ _ _ maxAttemptsOf_int) in Hrun.
    rewrite Hres in Hrun. destruct Hrun as (-> & Hcount & Hw & Hlast).
    split; [reflexivity |]. split; [lia |]. split; [assumption |].
    right. split; [assumption |].
    destruct Hlast as [(? & _) | (_ & Hex)]; [lia | exact Hex].
Qed.

(** X7: the context's error is returned only from an interrupted wait:
    the call ends with a failed attempt that was not the last one and the
    wait after it, during which the context was done. *)
Theorem doRequest_context_error_from_wait (e : ctxError) :
  fst aCall = Failure (ContextError e) ->
  exists pre k req,
    snd aCall = pre ++ [EvRoundTrip k req (transport w k req);
                        EvBackoff k (retryDelay c k) (Some e)] /\
    ctxDone w k = Some e /\ 0 <= k < maxAttemptsOf c - 1 /\
    recordedError lib method path (transport w k req) <> None.
Proof.
  intros Hres. destruct doRequest_cases as [[Hle Hcall] | [Hpos Hrun]].
  - rewrite Hcall in Hres. discriminate.
  - pose proof (Run_resultShape lib w c method path body _ _ _ maxAttemptsOf_int _ _ _ _ Hrun) as Hshape.
    rewrite Hres in Hshape. destruct Hshape as (pre & k & Htr & Hctx).
    assert (Hin : In (EvBackoff k (retryDelay c k) (Some e)) (snd aCall))
      by (rewrite Htr; apply in_or_app; right; left; reflexivity).
    destruct (Run_waits lib w c method path body _ _ _ maxAttemptsOf_int _ _ _ _ Hrun _ _ _ Hin)
      as (_ & Hk & _ & req & err & Hrt & Hrec).
    destruct (Run_failed_attempt lib w c method path body _ _ _ maxAttemptsOf_int _ _ _ _ Hrun
                _ _ _ _ Hrt Hrec)
      as [(_ & e' & _ & _ & pre' & Hpre') | [(_ & Hnone & _) | (Hlast & _)]];
      [| congruence | lia].
    exists pre', k, req. split; [| split; [| split]]; try assumption; try congruence.
    rewrite Hpre' in Htr.
    change [EvRoundTrip k req (transport w k req); EvBackoff k (retryDelay c k) (Some e')]
      with ([EvRoundTrip k req (transport w k req)] ++ [EvBackoff k (retryDelay c k) (Some e')]) in Htr.
    rewrite app_assoc in Htr. apply app_inj_tail in Htr as [_ Heq]. inversion Heq; subst.
    exact Hpre'.
Qed.

(** X8: in a call that enters its loop, a request that cannot be built
    (a body that does not marshal, an invalid method or URL) ends the call
    with the wrapped error before anything is sent; and a wrapped error is
    returned in no other case. *)
Theorem doRequest_unbuildable_request :
  0 < maxAttemptsOf c ->
  (forall err, aRequest = inr err -> aCall = (Failure err, [])) /\
  (forall message cause,
     fst aCall = Failure (WrappedError message cause) ->
     aRequest = inr (WrappedError message cause) /\ snd aCall = []).
Proof.
  intros Hpos. pose proof (doRequest_Run lib w c method path body namespace Hpos) as Hrun.
  split.
  - intros err Hreq.
    destruct (Run_no_request lib w c method path body _ _ _ maxAttemptsOf_int _ _ _ _ _ Hrun Hpos Hreq) as [H1 H2].
    destruct aCall as [r tr]. cbn in *. congruence.
  - intros m cs Hres.
    apply (Run_resultShape lib w c method path body _ _ _ maxAttemptsOf_int) in Hrun.
    rewrite Hres in Hrun. destruct Hrun as [Htr Hreq]. split; assumption.
Qed.

(** X9: when a failed call ends with a round trip, [errors.As] finds in
    the error the server error parsed from the last response, or a
    connection error whose [Cause] is the transport's own error; this holds
    for a 4xx returned directly as for the last error inside exhausted
    retries. *)
Theorem doRequest_errors_As (err : error) (pre : list Event) (k : Z) (req : Request)
    (out : RoundTrip) :
  fst aCall = Failure err ->
  snd aCall = pre ++ [EvRoundTrip k req out] ->
  match out with
  | Response statusCode respBody =>
      errors_As_ServerError err = Some (parseServerError lib statusCode respBody)
  | DoError cause | ReadError _ cause =>
      exists message, errors_As_ConnectionError err = Some (message, cause)
  end.
Proof.
  intros Hres Htr. destruct doRequest_cases as [[Hle Hcall] | [Hpos Hrun]].
  - rewrite Hcall in Htr. destruct pre; discriminate.
  - apply (Run_resultShape lib w c method path body _ _ _ maxAttemptsOf_int) in Hrun.
    rewrite Hres in Hrun. cbn in Hrun.
    destruct err as [e | m cs | n last | e | d | m cs].
    + destruct Hrun as (pre' & k' & req' & st & b & Htr' & _ & _ & ->).
      rewrite Htr in Htr'. apply app_inj_tail in Htr' as [_ Heq]. inversion Heq; subst.
      reflexivity.
    + destruct Hrun.
    + destruct Hrun as (-> & _ & _ & [(_ & Hnil & _) | (_ & pre' & req' & err' & Htr' & Hrec & ->)]).
      * rewrite Hnil in Htr. destruct pre; discriminate.
      * rewrite Htr in Htr'. apply app_inj_tail in Htr' as [_ Heq]. inversion Heq; subst.
        destruct (transport w (maxAttemptsOf c - 1) req') as [cause | st cause | st b] eqn:Hout.
        -- cbn in Hrec. inversion Hrec; subst. cbn. eauto.
        -- cbn in Hrec. inversion Hrec; subst. cbn. eauto.
        -- apply recorded_response in Hrec as [-> _]. reflexivity.
    + destruct Hrun as (pre' & k' & Htr' & _).
      rewrite Htr in Htr'. apply app_inj_tail in Htr' as [_ Heq]. discriminate.
    + destruct Hrun.
    + destruct Hrun as [Hnil _]. rewrite Hnil in Htr. destruct pre; discriminate.
Qed.

(** X10: a response whose status is neither 2xx nor 4xx (1xx, 3xx, 5xx
    and beyond) is handled as a retryable failure: the next attempt is made
    after the wait, or the wait is interrupted, or the attempt was the last
    one and the parsed server error is the [LastError] of exhausted
    retries. *)
Theorem other_status_is_retried (k : Z) (req : Request) (statusCode : Z) (respBody : string) :
  In (EvRoundTrip k req (Response statusCode respBody)) (snd aCall) ->
  ~ 200 <= statusCode < 300 -> ~ 400 <= statusCode < 500 ->
  (k < maxAttemptsOf c - 1 /\ ctxDone w k = None /\
   exists out, In (EvRoundTrip (k + 1) req out) (snd aCall))
  \/ (k < maxAttemptsOf c - 1 /\
      exists e, ctxDone w k = Some e /\ fst aCall = Failure (ContextError e))
  \/ (k = maxAttemptsOf c - 1 /\
      fst aCall = Failure (RetriesExhaustedError (maxAttemptsOf c)
                             (Some (ServerError (parseServerError lib statusCode respBody))))).
Proof.
  intros Hin H2 H4. destruct doRequest_cases as [[Hle Hcall] | [Hpos Hrun]].
  - rewrite Hcall in Hin. inversion Hin.
  - pose proof (recorded_other lib method path statusCode respBody H2 H4) as Hrec.
    destruct (Run_failed_attempt lib w c method path body _ _ _ maxAttemptsOf_int _ _ _ _ Hrun
                _ _ _ _ Hin Hrec)
      as [(Hk & e & Hctx & Hr & _) | [(Hk & Hctx & Hnext) | (Hk & Hr & _)]].
    + right. left. split; [assumption |]. exists e. auto.
    + left. auto.
    + right. right. auto.
Qed.

End CallFacts.

(** ** The backoff schedule of a call *)

(** The value of [retryDelay] on the configurations whose cap fits a
    [time.Duration]. *)
Lemma retryDelay_value (c : Client) (k : Z) :
  0 <= k <= Int64.max_int ->
  0 < BaseDelayMs (retryConfig c) <= Int64.max_int ->
  0 < MaxDelayMs (retryConfig c) <= maxDurationMs ->
  retryDelay c k
  = Z.min (BaseDelayMs (retryConfig c) * 2 ^ k) (MaxDelayMs (retryConfig c)) * Millisecond.
Proof.
  intros Hk HB HM. unfold retryDelay. cbv zeta.
  rewrite backoff_float;
    [| unfold Int64.max_int in HB; lia | unfold maxDurationMs in HM; lia
     | unfold Int64.max_int in Hk; lia].
  unfold Int64.mul. apply wrap_in_range.
  pose proof (pow2_ge_1 k (proj1 Hk)).
  unfold Int64.in_range, Int64.min_int, Int64.max_int, Millisecond, maxDurationMs in *.
  assert (0 < Z.min (BaseDelayMs (retryConfig c) * 2 ^ k) (MaxDelayMs (retryConfig c))
          <= 9223372036854) by nia.
  lia.
Qed.

Lemma retryDelay_range (c : Client) (k : Z) :
  0 < BaseDelayMs (retryConfig c) <= Int64.max_int ->
  0 < MaxDelayMs (retryConfig c) <= maxDurationMs ->
  0 <= k <= Int64.max_int ->
  Millisecond <= retryDelay c k <= MaxDelayMs (retryConfig c) * Millisecond.
Proof.
  intros HB HM Hk. rewrite (retryDelay_value c k) by assumption.
  pose proof (pow2_ge_1 k (proj1 Hk)) as H1.
  assert (H4 : BaseDelayMs (retryConfig c) * 1 <= BaseDelayMs (retryConfig c) * 2 ^ k)
    by (apply Z.mul_le_mono_nonneg_l; lia).
  unfold Millisecond. lia.
Qed.

(** X11: on the configurations whose cap fits a [time.Duration], the
    backoff delay is at least one millisecond, does not decrease with the
    attempt index, never exceeds [MaxDelayMs], and stays at the cap once it
    has reached it. *)
Theorem retryDelay_monotone_capped (c : Client) (k k' : Z) :
  0 < BaseDelayMs (retryConfig c) <= Int64.max_int ->
  0 < MaxDelayMs (retryConfig c) <= maxDurationMs ->
  0 <= k <= k' -> k' <= Int64.max_int ->
  Millisecond <= retryDelay c k /\
  retryDelay c k <= retryDelay c k' /\
  retryDelay c k' <= MaxDelayMs (retryConfig c) * Millisecond /\
  (retryDelay c k = MaxDelayMs (retryConfig c) * Millisecond ->
   retryDelay c k' = MaxDelayMs (retryConfig c) * Millisecond).
Proof.
  intros HB HM Hk Hk'.
  rewrite (retryDelay_value c k), (retryDelay_value c k') by (auto; lia).
  pose proof (pow2_ge_1 k (proj1 Hk)) as H1.
  assert (H2 : 2 ^ k <= 2 ^ k') by (apply Z.pow_le_mono_r; lia).
  assert (H3 : BaseDelayMs (retryConfig c) * 2 ^ k <= BaseDelayMs (retryConfig c) * 2 ^ k')
    by (apply Z.mul_le_mono_nonneg_l; lia).
  assert (H4 : BaseDelayMs (retryConfig c) * 1 <= BaseDelayMs (retryConfig c) * 2 ^ k)
    by (apply Z.mul_le_mono_nonneg_l; lia).
  unfold Millisecond. lia.
Qed.

Lemma totalWait_bound (D : Z) (trace : list Event) :
  (forall k d e, In (EvBackoff k d e) trace -> 0 <= d <= D) ->
  0 <= totalWait trace <= D * Z.of_nat (waits trace).
Proof.
  induction trace as [| [k req out | k d e] trace IH]; intros Hall.
  - cbn. lia.
  - cbn [totalWait]. change (waits (EvRoundTrip k req out :: trace)) with (waits trace).
    apply IH. intros ? ? ? Hin. eapply Hall. right. eassumption.
  - cbn [totalWait]. change (waits (EvBackoff k d e :: trace)) with (S (waits trace)).
    assert (0 <= d <= D) by (eapply Hall; left; reflexivity).
    assert (0 <= totalWait trace <= D * Z.of_nat (waits trace))
      by (apply IH; intros ? ? ? Hin; eapply Hall; right; eassumption).
    lia.
Qed.

Section CallTime.

Context {Metadata : Type} (lib : GoLib Metadata).
Variables (w : World) (c : Client) (method path : string) (body : option (Payload Metadata)).
Variable namespace : string.

#[local] Abbreviation bCall := (doRequest lib w c method path body namespace).

(** X12: on the same configurations, the waits of one call add up to at
    most [MaxRetries * MaxDelayMs] milliseconds. *)
Theorem doRequest_total_wait_bounded :
  0 <= MaxRetries (retryConfig c) < Int64.max_int ->
  0 < BaseDelayMs (retryConfig c) <= Int64.max_int ->
  0 < MaxDelayMs (retryConfig c) <= maxDurationMs ->
  0 <= totalWait (snd bCall)
    <= MaxRetries (retryConfig c) * (MaxDelayMs (retryConfig c) * Millisecond).
Proof.
  intros HN HB HM. pose proof (maxAttemptsOf_succ c HN) as Hmax.
  assert (Hpos : 0 < maxAttemptsOf c) by lia.
  pose proof (doRequest_Run lib w c method path body namespace Hpos) as Hrun.
  destruct (Run_counts lib w c method path body _ _ _ (maxAttemptsOf_int c) _ _ _ _ Hrun)
    as (_ & _ & Hw & _).
  assert (Hall : forall k d e, In (EvBackoff k d e) (snd bCall) ->
                   0 <= d <= MaxDelayMs (retryConfig c) * Millisecond).
  { intros k d e Hin.
    destruct (Run_waits lib w c method path body _ _ _ (maxAttemptsOf_int c) _ _ _ _ Hrun _ _ _ Hin)
      as (-> & Hk & _).
    pose proof (maxAttemptsOf_int c).
    destruct (retryDelay_range c k); try assumption; unfold Millisecond in *; lia. }
  pose proof (totalWait_bound _ _ Hall) as Hb.
  assert (0 <= MaxDelayMs (retryConfig c) * Millisecond) by (unfold Millisecond; lia).
  nia.
Qed.

End CallTime.

(** ** Construction, and the text of errors *)

Lemma append_assoc (s t u : string) : (s +:+ t) +:+ u = s +:+ t +:+ u.
Proof.
  induction s as [| ch s IH]; [reflexivity |].
  change (String ch ((s +:+ t) +:+ u) = String ch (s +:+ t +:+ u)). f_equal. exact IH.
Qed.

Lemma trimRightSlash_tail (s : string) :
  exists tail, s = trimRightSlash s +:+ tail /\ onlySlashes tail = true.
Proof.
  induction s as [| ch rest (tail & Hrest & Htail)].
  - exists "". split; reflexivity.
  - cbn [trimRightSlash]. destruct (trimRightSlash rest) as [| a t] eqn:Htrim.
    + change ("" +:+ tail) with tail in Hrest. subst tail.
      destruct (Ascii.eqb_spec ch "/") as [-> | Hne].
      * exists (String "/" rest). split; [reflexivity |]. cbn. exact Htail.
      * exists rest. split; [reflexivity | exact Htail].
    + exists tail. split; [| exact Htail].
      change (String ch rest = String ch (String a t +:+ tail)). f_equal. exact Hrest.
Qed.

Lemma trimRightSlash_trimmed (s : string) : endsWithSlash (trimRightSlash s) = false.
Proof.
  induction s as [| ch rest IH]; [reflexivity |].
  cbn [trimRightSlash]. destruct (trimRightSlash rest) as [| a t] eqn:Htrim.
  - destruct (Ascii.eqb_spec ch "/") as [-> | Hne]; [reflexivity |].
    cbn. apply Ascii.eqb_neq. assumption.
  - exact IH.
Qed.

Lemma trimRightSlash_fixed (s : string) : endsWithSlash s = false -> trimRightSlash s = s.
Proof.
  induction s as [| ch rest IH]; [reflexivity |]. intros H.
  cbn [trimRightSlash]. destruct rest as [| a t].
  - cbn in *. rewrite H. reflexivity.
  - rewrite IH by exact H. reflexivity.
Qed.

(** X13: the base URL of a client has no trailing slash; it is the
    server URL without its trailing slashes, the server URL itself when it
    has none; building a client from the base URL of a client gives the
    same client. *)
Theorem NewClient_baseURL_trimmed (serverURL : string) (config : option ClientConfig) :
  endsWithSlash (baseURL (NewClient serverURL config)) = false /\
  (exists tail, serverURL = baseURL (NewClient serverURL config) +:+ tail /\
                onlySlashes tail = true) /\
  (endsWithSlash serverURL = false -> baseURL (NewClient serverURL config) = serverURL) /\
  NewClient (baseURL (NewClient serverURL config)) config = NewClient serverURL config.
Proof.
  assert (Hbase : baseURL (NewClient serverURL config) = trimRightSlash serverURL)
    by (destruct config as [[t r d] |]; reflexivity).
  rewrite Hbase. split; [apply trimRightSlash_trimmed |].
  split; [apply trimRightSlash_tail |]. split; [apply trimRightSlash_fixed |].
  unfold NewClient. cbv zeta.
  rewrite (trimRightSlash_fixed (trimRightSlash serverURL)) by apply trimRightSlash_trimmed.
  reflexivity.
Qed.

(** ** The text of an error *)

(** X14: the text of an error that wraps another one ([Unwrap] is not
    nil) ends with the text of the error it wraps. *)
Theorem Error_ends_with_cause (err inner : error) :
  Unwrap err = Some inner -> exists prefix, Error err = prefix +:+ Error inner.
Proof.
  destruct err as [e | m cause | n [last |] | e | d | m cause]; cbn [Unwrap];
    intros H; inversion H; subst; cbn [Error].
  - exists ("ucotron connection error: " +:+ m +:+ ": ").
    rewrite !append_assoc. reflexivity.
  - exists ("ucotron retries exhausted after " +:+ pretty n +:+ " attempts: ").
    rewrite !append_assoc. reflexivity.
  - exists (m +:+ ": "). rewrite !append_assoc. reflexivity.
Qed.

Section RequestFacts.

Context {Metadata : Type} (lib : GoLib Metadata).

Lemma newRequest_shape (method url : string) (body : option (Payload Metadata)) (ns : string)
    (req : Request) :
  newRequest lib method url body ns = inl req ->
  Method req = method /\ URL req = url /\
  Header req !! "Accept" = Some "application/json" /\
  Header req !! "Content-Type" = match body with Some _ => Some "application/json" | None => None end /\
  match body with
  | Some b => exists jsonBytes, json_Marshal lib b = inl jsonBytes /\ Body req = Some jsonBytes
  | None => Body req = None
  end /\
  forall key value, Header req !! key = Some value ->
    key = "Accept" \/ key = "Content-Type" \/ key = namespaceHeader.
Proof.
  unfold newRequest. intros H.
  assert (Hkeys : forall (h : gmap string string) key value,
            (<[namespaceHeader := ns]> h) !! key = Some value ->
            (forall v, h !! key = Some v -> key = "Accept" \/ key = "Content-Type") ->
            key = "Accept" \/ key = "Content-Type" \/ key = namespaceHeader).
  { intros h key value Hl Hh. destruct (decide (namespaceHeader = key)) as [<- | Hne]; [auto |].
    rewrite lookup_insert_ne in Hl by assumption. destruct (Hh _ Hl); auto. }
  destruct body as [b |].
  - destruct (json_Marshal lib b) as [jsonBytes | err] eqn:Hm; [| discriminate].
    destruct (http_NewRequestWithContext lib method url); inversion H; subst; cbn.
    repeat split; eauto.
    intros key value Hl. apply (Hkeys _ _ _ Hl). intros v Hv.
    destruct (decide ("Content-Type" = key)) as [<- | Hne]; [auto |].
    rewrite lookup_insert_ne in Hv by assumption.
    destruct (decide ("Accept" = key)) as [<- | Hne']; [auto |].
    rewrite lookup_insert_ne in Hv by assumption. discriminate.
  - destruct (http_NewRequestWithContext lib method url); inversion H; subst; cbn.
    repeat split; eauto.
    intros key value Hl. apply (Hkeys _ _ _ Hl). intros v Hv.
    destruct (decide ("Accept" = key)) as [<- | Hne']; [auto |].
    rewrite lookup_insert_ne in Hv by assumption. discriminate.
Qed.

Variables (w : World) (c : Client).

(** Every request of a call is the one [newRequest] builds for it. *)
Lemma doRequest_request (method path : string) (body : option (Payload Metadata))
    (namespace : string) (k : Z) (req : Request) (out : RoundTrip) :
  In (EvRoundTrip k req out) (snd (doRequest lib w c method path body namespace)) ->
  newRequest lib method (baseURL c +:+ path) body (resolveNamespace c namespace) = inl req.
Proof.
  intros Hin.
  destruct (doRequest_cases lib w c method path body namespace) as [[Hle Hcall] | [Hpos Hrun]].
  - rewrite Hcall in Hin. inversion Hin.
  - apply (Run_round_trips lib w c method path body _ _ _ _ _ _ _ Hrun _ _ _ Hin).
Qed.

(** X15: every request of a call has the method of the call and the URL
    [baseURL + path], accepts JSON, declares a JSON body exactly when the
    call has a body, carries the marshalled body, and sets no header besides
    [Accept], [Content-Type] and the namespace header. *)
Theorem doRequest_request_shape (method path : string) (body : option (Payload Metadata))
    (namespace : string) (k : Z) (req : Request) (out : RoundTrip) :
  In (EvRoundTrip k req out) (snd (doRequest lib w c method path body namespace)) ->
  Method req = method /\ URL req = baseURL c +:+ path /\
  Header req !! "Accept" = Some "application/json" /\
  Header req !! "Content-Type" = match body with Some _ => Some "application/json" | None => None end /\
  match body with
  | Some b => exists jsonBytes, json_Marshal lib b = inl jsonBytes /\ Body req = Some jsonBytes
  | None => Body req = None
  end /\
  forall key value, Header req !! key = Some value ->
    key = "Accept" \/ key = "Content-Type" \/ key = namespaceHeader.
Proof.
  intros Hin. eapply newRequest_shape. eapply doRequest_request. eassumption.
Qed.

Lemma decodeAs_result (t : ResponseType) (what : string) (r : CallResult * list Event) :
  fst (decodeAs lib t what r)
  = match fst r with
    | Failure err => Failure err
    | Success data =>
        match json_Unmarshal lib t data with
        | Some err => Failure (WrappedError ("failed to parse " +:+ what +:+ " response") err)
        | None => Success data
        end
    end.
Proof.
  unfold decodeAs. destruct r as [[data | err] tr]; cbn; [| reflexivity].
  destruct (json_Unmarshal lib t data); reflexivity.
Qed.

(** Each operation is one call of [doRequest], with a body for the
    operations that send one, followed by the decoding of a success;
    [DeleteMemory] decodes nothing. *)
Lemma invoke_call (op : Operation Metadata) :
  exists method path body,
    snd (invoke lib w c op) = snd (doRequest lib w c method path body (namespaceOption op)) /\
    (if sendsBody op then body <> None else body = None) /\
    match fst (doRequest lib w c method path body (namespaceOption op)) with
    | Failure err => fst (invoke lib w c op) = Failure err
    | Success data =>
        ((exists id opts, op = OpDeleteMemory id opts) /\ fst (invoke lib w c op) = Success "")
        \/ exists t what,
             fst (invoke lib w c op)
             = match json_Unmarshal lib t data with
               | Some err => Failure (WrappedError ("failed to parse " +:+ what +:+ " response") err)
               | None => Success data
               end
    end.
Proof.
  destruct op as [t [o |] | t [o |] | q [o |] | t [o |] | id [o |] | [o |] | id rq [o |]
                 | id [o |] | id [o |] | [o |] | |];
    cbn [invoke namespaceOption from_option sendsBody];
    unfold Augment, Learn, Search, AddMemory, GetMemory, ListMemories, UpdateMemory,
      DeleteMemory, GetEntity, ListEntities, Health, Metrics, entityNamespace;
    cbv zeta;
    try (match goal with |- context [decodeAs lib ?t ?what (doRequest lib w c ?m ?p ?b ?n)] =>
           exists m, p, b; rewrite decodeAs_events, decodeAs_result;
           split; [reflexivity |]; split; [first [reflexivity | discriminate] |];
           destruct (fst (doRequest lib w c m p b n)); [right; exists t, what; reflexivity | reflexivity]
         end).
  all: exists MethodDelete, ("/api/v1/memories/" +:+ pretty id), None;
    match goal with |- context [doRequest ?l ?w ?c ?m ?p ?b ?n] =>
      destruct (doRequest l w c m p b n) as [[? | ?] ?] end; cbn;
    (split; [reflexivity |]; split; [reflexivity |]); try reflexivity; left; eauto.
Qed.

(** X16: the requests of [Augment], [Learn], [Search], [AddMemory] and
    [UpdateMemory] (also with a nil request) carry a body and the JSON
    [Content-Type]; those of the other seven operations carry neither; all
    accept JSON. *)
Theorem operation_content_type (op : Operation Metadata) (k : Z) (req : Request) (out : RoundTrip) :
  In (EvRoundTrip k req out) (snd (invoke lib w c op)) ->
  Header req !! "Content-Type" = (if sendsBody op then Some "application/json" else None) /\
  (Body req = None <-> sendsBody op = false) /\
  Header req !! "Accept" = Some "application/json".
Proof.
  intros Hin. destruct (invoke_call op) as (method & path & body & Hev & Hbody & _).
  rewrite Hev in Hin. apply doRequest_request, newRequest_shape in Hin.
  destruct Hin as (_ & _ & Hacc & Hct & Hb & _).
  destruct (sendsBody op), body as [b |]; try congruence.
  - destruct Hb as (bytes & _ & Hb). rewrite Hct, Hb. repeat split; auto; discriminate.
  - rewrite Hct, Hb. repeat split; auto.
Qed.

(** X17: an operation succeeds only when its last event is a 2xx
    response; the response was then decoded without error, except for
    [DeleteMemory], which decodes nothing and hands no data on. *)
Theorem operation_success_from_2xx (op : Operation Metadata) (data : string) :
  fst (invoke lib w c op) = Success data ->
  exists pre k req statusCode respBody,
    snd (invoke lib w c op) = pre ++ [EvRoundTrip k req (Response statusCode respBody)] /\
    200 <= statusCode < 300 /\
    (((exists id opts, op = OpDeleteMemory id opts) /\ data = "")
     \/ (data = respBody /\ exists t, json_Unmarshal lib t respBody = None)).
Proof.
  intros Hres. destruct (invoke_call op) as (method & path & body & Hev & _ & Hfst).
  destruct (fst (doRequest lib w c method path body (namespaceOption op))) as [b | err] eqn:Hcall;
    [| congruence].
  destruct (doRequest_cases lib w c method path body (namespaceOption op)) as [[Hle Heq] | [Hpos Hrun]];
    [rewrite Heq in Hcall; discriminate |].
  apply (Run_resultShape lib w c method path body _ _ _ (maxAttemptsOf_int c)) in Hrun.
  rewrite Hcall in Hrun. destruct Hrun as (pre & k' & req & st & Htr & _ & Hst).
  exists pre, k', req, st, b. rewrite Hev. split; [assumption |]. split; [assumption |].
  destruct Hfst as [[Hdel Hr] | (t & what & Hr)].
  - left. split; [assumption | congruence].
  - right. rewrite Hres in Hr. destruct (json_Unmarshal lib t b) eqn:Hdec; [discriminate |].
    inversion Hr; subst. eauto.
Qed.

(** X18: an operation fails with the error of its call to [doRequest],
    or, after a 2xx response that does not decode, with the decoder's error
    wrapped as [failed to parse ... response]; that response is the last
    event: a decoding failure is not retried. *)
Theorem operation_decode_failure (op : Operation Metadata) (err : error) :
  fst (invoke lib w c op) = Failure err ->
  (exists method path body,
     fst (doRequest lib w c method path body (namespaceOption op)) = Failure err /\
     snd (invoke lib w c op) = snd (doRequest lib w c method path body (namespaceOption op)))
  \/ (exists what cause t pre k req statusCode respBody,
        err = WrappedError ("failed to parse " +:+ what +:+ " response") cause /\
        json_Unmarshal lib t respBody = Some cause /\
        snd (invoke lib w c op) = pre ++ [EvRoundTrip k req (Response statusCode respBody)] /\
        200 <= statusCode < 300).
Proof.
  intros Hres. destruct (invoke_call op) as (method & path & body & Hev & _ & Hfst).
  destruct (fst (doRequest lib w c method path body (namespaceOption op))) as [b | err'] eqn:Hcall.
  - right.
    destruct (doRequest_cases lib w c method path body (namespaceOption op)) as [[Hle Heq] | [Hpos Hrun]];
      [rewrite Heq in Hcall; discriminate |].
    apply (Run_resultShape lib w c method path body _ _ _ (maxAttemptsOf_int c)) in Hrun.
    rewrite Hcall in Hrun. destruct Hrun as (pre & k' & req & st & Htr & _ & Hst).
    destruct Hfst as [[_ Hr] | (t & what & Hr)]; [congruence |].
    rewrite Hres in Hr. destruct (json_Unmarshal lib t b) as [cause |] eqn:Hdec; [| discriminate].
    inversion Hr; subst.
    exists what, cause, t, pre, k', req, st, b. rewrite Hev. auto.
  - left. exists method, path, body. split; [congruence | assumption].
Qed.

End RequestFacts.

Lemma strings_Join_last (elems : list string) (x sep : string) :
  exists prefix, strings_Join (elems ++ [x]) sep = prefix +:+ x.
Proof.
  induction elems as [| e rest [prefix IH]].
  - exists "". reflexivity.
  - exists (e +:+ sep +:+ prefix).
    change (strings_Join ((e :: rest) ++ [x]) sep)
      with (match rest ++ [x] with
            | [] => e
            | _ => e +:+ sep +:+ strings_Join (rest ++ [x]) sep
            end).
    destruct (rest ++ [x]) eqn:Hl; [destruct rest; discriminate |].
    rewrite IH, !append_assoc. reflexivity.
Qed.

Lemma requestedRetry_MaxRetries (config : option ClientConfig) :
  0 <= MaxRetries (requestedRetry config).
Proof.
  unfold requestedRetry, defaultMaxRetries. cbn.
  destruct config as [[t [r |] d] |]; cbn; try lia.
  destruct (Z.leb_spec 0 (MaxRetries r)); lia.
Qed.

Section OperationFacts.

Context {Metadata : Type} (lib : GoLib Metadata).
Variables (w : World) (c : Client).

(** X19: [ListMemories] requests [/api/v1/memories] followed by a query
    string, which is empty exactly when no option is set; a node type is
    the last parameter, and is inserted as given, without escaping. *)
Theorem ListMemories_query (opts : option ListMemoriesOptions.t) (k : Z) (req : Request)
    (out : RoundTrip) :
  In (EvRoundTrip k req out) (snd (ListMemories lib w c opts)) ->
  exists query,
    URL req = baseURL c +:+ "/api/v1/memories" +:+ query /\
    (query = "" <->
     match opts with
     | Some o => ListMemoriesOptions.Limit o = None /\ ListMemoriesOptions.Offset o = None /\
                 ListMemoriesOptions.NodeType o = None
     | None => True
     end) /\
    (forall o t, opts = Some o -> ListMemoriesOptions.NodeType o = Some t ->
       exists prefix, query = prefix +:+ "node_type=" +:+ t).
Proof.
  unfold ListMemories. cbv zeta.
  destruct opts as [[nt lim off nsp] |]; rewrite decodeAs_events; intros Hin;
    apply (doRequest_request (Metadata := Metadata)), newRequest_shape in Hin;
    destruct Hin as (_ & -> & _).
  - cbn [ListMemoriesOptions.Limit ListMemoriesOptions.Offset ListMemoriesOptions.NodeType].
    remember (intParam "limit" lim ++ intParam "offset" off
              ++ match nt with Some t => ["node_type=" +:+ t] | None => [] end)
      as params eqn:Hparams.
    symmetry in Hparams. destruct params as [| p ps].
    + exists "". split; [reflexivity |].
      destruct lim, off, nt; try discriminate Hparams.
      split; [tauto |]. intros o t Ho Ht. inversion Ho; subst o. discriminate Ht.
    + exists ("?" +:+ strings_Join (p :: ps) "&"). split; [reflexivity |]. split.
      * split; [discriminate |]. intros (-> & -> & ->). discriminate Hparams.
      * intros o t Ho Ht. inversion Ho; subst o. cbn in Ht. subst nt.
        rewrite <- Hparams, app_assoc.
        destruct (strings_Join_last (intParam "limit" lim ++ intParam "offset" off)
                    ("node_type=" +:+ t) "&") as [prefix ->].
        exists ("?" +:+ prefix). rewrite append_assoc. reflexivity.
  - exists "". split; [reflexivity |]. split; [tauto |]. intros ? ? Hd; discriminate Hd.
Qed.

End OperationFacts.

Section ClientCalls.

Context {Metadata : Type} (lib : GoLib Metadata).
Variables (w : World) (serverURL : string) (config : option ClientConfig).
Variables (method path : string) (body : option (Payload Metadata)) (namespace : string).

#[local] Abbreviation built := (NewClient serverURL config).
#[local] Abbreviation builtCall := (doRequest lib w built method path body namespace).

(** X20: a call through a client built by [NewClient], for any
    configuration but one with the largest [int] as [MaxRetries], makes at
    most one attempt more than the retry count the configuration asks for
    (the default for a negative one), waits at most that many times, and
    starts with attempt 0 when its request can be built. *)
Theorem NewClient_call_attempts :
  MaxRetries (requestedRetry config) < Int64.max_int ->
  Z.of_nat (attempts (snd builtCall)) <= MaxRetries (requestedRetry config) + 1 /\
  Z.of_nat (waits (snd builtCall)) <= MaxRetries (requestedRetry config) /\
  (forall req,
     newRequest lib method (baseURL built +:+ path) body (resolveNamespace built namespace) = inl req ->
     exists rest, snd builtCall = EvRoundTrip 0 req (transport w 0 req) :: rest).
Proof.
  intros Hmax. pose proof (requestedRetry_MaxRetries config) as Hge.
  assert (HN : 0 <= MaxRetries (retryConfig built) < Int64.max_int)
    by (rewrite NewClient_retryConfig; lia).
  pose proof (maxAttemptsOf_succ built HN) as Hsucc. rewrite NewClient_retryConfig in Hsucc.
  assert (Hpos : 0 < maxAttemptsOf built) by lia.
  pose proof (doRequest_Run lib w built method path body namespace Hpos) as Hrun.
  destruct (Run_counts lib w built method path body _ _ _ (maxAttemptsOf_int built) _ _ _ _ Hrun)
    as (H1 & _ & H3 & _).
  split; [lia |]. split; [lia |].
  intros req Hreq. eapply doRequest_first_attempt; eassumption.
Qed.

End ClientCalls.

(** ** The further properties on the scenarios of the test suite *)

(** A 500 followed by a 200: one wait of 100ms after attempt 0. *)
Lemma doRequest_wait_follows_failed_attempt_witness :
  In (EvBackoff 0 (100 * Millisecond) None)
     (snd (doRequest stubLib failsOnce (NewClient testURL (retryOf 3 100 1000))
             MethodGet healthPath None "")) /\
  100 * Millisecond = retryDelay (NewClient testURL (retryOf 3 100 1000)) 0 /\
  0 <= 0 < maxAttemptsOf (NewClient testURL (retryOf 3 100 1000)) - 1.
Proof.
  split; [vm_compute; right; left; reflexivity |].
  destruct (doRequest_wait_follows_failed_attempt stubLib failsOnce
              (NewClient testURL (retryOf 3 100 1000)) MethodGet healthPath None ""
              0 (100 * Millisecond) None) as (Hd & Hk & _).
  - vm_compute. right. left. reflexivity.
  - split; assumption.
Defined.

(** A healthy server: the body returned is the body of the 200. *)
Lemma doRequest_success_from_2xx_witness :
  fst (doRequest stubLib alwaysOK (NewClient testURL None) MethodGet healthPath None "")
  = Success "{}" /\
  exists pre k req statusCode,
    snd (doRequest stubLib alwaysOK (NewClient testURL None) MethodGet healthPath None "")
    = pre ++ [EvRoundTrip k req (Response statusCode "{}")] /\
    transport alwaysOK k req = Response statusCode "{}" /\ 200 <= statusCode < 300.
Proof.
  split; [vm_compute; reflexivity |].
  apply (doRequest_success_from_2xx stubLib alwaysOK (NewClient testURL None)
           MethodGet healthPath None "" "{}").
  vm_compute. reflexivity.
Defined.

(** TestServerError4xxNotRetried: the server error returned is a 404. *)
Lemma doRequest_server_error_is_4xx_witness :
  fst (doRequest stubLib alwaysNotFound (NewClient testURL (retryOf 3 1 1))
         MethodGet "/api/v1/memories/999" None "")
  = Failure (ServerError {| UcotronServerError.StatusCode := 404;
                            UcotronServerError.Code := "NOT_FOUND";
                            UcotronServerError.Message := "not found" |}) /\
  400 <= 404 < 500.
Proof.
  split; [vm_compute; reflexivity |].
  apply (doRequest_server_error_is_4xx stubLib alwaysNotFound (NewClient testURL (retryOf 3 1 1))
           MethodGet "/api/v1/memories/999" None ""
           {| UcotronServerError.StatusCode := 404;
              UcotronServerError.Code := "NOT_FOUND";
              UcotronServerError.Message := "not found" |}).
  vm_compute. reflexivity.
Defined.

(** TestRetriesExhausted: the error of 3 attempts was returned after 3
    round trips and no interrupted wait. *)
Lemma doRequest_exhausted_budget_spent_witness :
  3 = maxAttemptsOf (NewClient testURL (retryOf 2 1 1)) /\
  Z.of_nat (attempts (snd (doRequest stubLib alwaysUnavailable (NewClient testURL (retryOf 2 1 1))
                             MethodGet healthPath None ""))) = Z.max 0 3.
Proof.
  destruct (doRequest_exhausted_budget_spent stubLib alwaysUnavailable
              (NewClient testURL (retryOf 2 1 1)) MethodGet healthPath None "" 3
              (Some (ServerError {| UcotronServerError.StatusCode := 503;
                                    UcotronServerError.Code := "UNAVAILABLE";
                                    UcotronServerError.Message := "service unavailable" |})))
    as (Hn & Hcount & _).
  - vm_compute. reflexivity.
  - split; assumption.
Defined.

(** A caller that cancels during the first wait: the context's error comes
    from that wait. *)
Lemma doRequest_context_error_from_wait_witness :
  exists pre k req,
    snd (doRequest stubLib cancelledWhileSleeping (NewClient testURL (retryOf 2 1 1))
           MethodGet healthPath None "")
    = pre ++ [EvRoundTrip k req (transport cancelledWhileSleeping k req);
              EvBackoff k (retryDelay (NewClient testURL (retryOf 2 1 1)) k) (Some Canceled)] /\
    ctxDone cancelledWhileSleeping k = Some Canceled /\
    0 <= k < maxAttemptsOf (NewClient testURL (retryOf 2 1 1)) - 1 /\
    recordedError stubLib MethodGet healthPath (transport cancelledWhileSleeping k req) <> None.
Proof.
  apply (doRequest_context_error_from_wait stubLib cancelledWhileSleeping
           (NewClient testURL (retryOf 2 1 1)) MethodGet healthPath None "" Canceled).
  vm_compute. reflexivity.
Defined.

(** A body that cannot be marshalled: the call fails before it sends
    anything. *)
Lemma doRequest_unbuildable_request_witness :
  doRequest unmarshalableLib alwaysOK (NewClient testURL None) MethodPost "/api/v1/learn"
    (Some (LearnBody {| LearnRequest_Output := "User prefers dark mode.";
                        LearnRequest_Metadata := Some tt |})) ""
  = (Failure (WrappedError "failed to marshal request body"
                (ForeignError "json: unsupported type: chan int")), []).
Proof.
  apply (proj1 (doRequest_unbuildable_request unmarshalableLib alwaysOK (NewClient testURL None)
                  MethodPost "/api/v1/learn"
                  (Some (LearnBody {| LearnRequest_Output := "User prefers dark mode.";
                                      LearnRequest_Metadata := Some tt |})) ""
                  ltac:(vm_compute; reflexivity))).
  vm_compute. reflexivity.
Defined.

(** With no retry, a 503 is wrapped at once, and [errors.As] finds it. *)
Lemma doRequest_errors_As_witness :
  errors_As_ServerError
    (RetriesExhaustedError 1
       (Some (ServerError {| UcotronServerError.StatusCode := 503;
                             UcotronServerError.Code := "UNAVAILABLE";
                             UcotronServerError.Message := "service unavailable" |})))
  = Some (parseServerError stubLib 503 unavailableJSON).
Proof.
  apply (doRequest_errors_As stubLib alwaysUnavailable (NewClient testURL (retryOf 0 1 1))
           MethodGet healthPath None "" _ [] 0 (getRequestOf healthPath "default")
           (Response 503 unavailableJSON)).
  - vm_compute. reflexivity.
  - vm_compute. reflexivity.
Defined.

(** A 304 is retried like a 5xx. *)
Lemma other_status_is_retried_witness :
  exists out,
    In (EvRoundTrip 1 (getRequestOf healthPath "default") out)
       (snd (doRequest stubLib notModifiedOnce (NewClient testURL (retryOf 3 100 1000))
               MethodGet healthPath None "")).
Proof.
  destruct (other_status_is_retried stubLib notModifiedOnce (NewClient testURL (retryOf 3 100 1000))
              MethodGet healthPath None "" 0 (getRequestOf healthPath "default") 304 "")
    as [(_ & _ & Hnext) | [(_ & e & Hctx & _) | (Hk & _)]].
  - vm_compute. left. reflexivity.
  - lia.
  - lia.
  - exact Hnext.
  - discriminate Hctx.
  - vm_compute in Hk. discriminate Hk.
Defined.

(** The schedule of TestRetryDelay grows and stops at the cap. *)
Lemma retryDelay_monotone_capped_witness :
  Millisecond <= retryDelay (NewClient testURL (retryOf 3 100 1000)) 1 /\
  retryDelay (NewClient testURL (retryOf 3 100 1000)) 1
    <= retryDelay (NewClient testURL (retryOf 3 100 1000)) 4 /\
  retryDelay (NewClient testURL (retryOf 3 100 1000)) 4 <= 1000 * Millisecond.
Proof.
  destruct (retryDelay_monotone_capped (NewClient testURL (retryOf 3 100 1000)) 1 4)
    as (H1 & H2 & H3 & _).
  - vm_compute. intuition discriminate.
  - vm_compute. intuition discriminate.
  - lia.
  - vm_compute. discriminate.
  - split; [exact H1 | split; [exact H2 | exact H3]].
Defined.

(** Three retries with a cap of one second: at most three seconds asked of
    the timers. *)
Lemma doRequest_total_wait_bounded_witness :
  0 <= totalWait (snd (doRequest stubLib alwaysUnavailable (NewClient testURL (retryOf 3 100 1000))
                         MethodGet healthPath None ""))
    <= 3 * (1000 * Millisecond).
Proof.
  apply (doRequest_total_wait_bounded stubLib alwaysUnavailable
           (NewClient testURL (retryOf 3 100 1000)) MethodGet healthPath None "").
  - vm_compute. intuition discriminate.
  - vm_compute. intuition discriminate.
  - vm_compute. intuition discriminate.
Defined.

(** The text of exhausted retries ends with the text of the last error. *)
Lemma Error_ends_with_cause_witness :
  exists prefix,
    Error (RetriesExhaustedError 3 (Some (ForeignError "connection refused")))
    = prefix +:+ Error (ForeignError "connection refused").
Proof.
  apply (Error_ends_with_cause
           (RetriesExhaustedError 3 (Some (ForeignError "connection refused")))
           (ForeignError "connection refused")).
  reflexivity.
Defined.

(** TestContentTypeHeaders: a POST with a body carries both headers. *)
Lemma doRequest_request_shape_witness :
  exists req out,
    In (EvRoundTrip 0 req out)
       (snd (doRequest stubLib alwaysOK (NewClient testURL None) MethodPost "/api/v1/learn"
               (Some (LearnBody {| LearnRequest_Output := "User prefers dark mode.";
                                   LearnRequest_Metadata := None |})) "")) /\
    Method req = MethodPost /\
    Header req !! "Accept" = Some "application/json" /\
    Header req !! "Content-Type" = Some "application/json".
Proof.
  do 2 eexists. split; [vm_compute; left; reflexivity |].
  match goal with |- Method ?req = _ /\ _ =>
    destruct (doRequest_request_shape stubLib alwaysOK (NewClient testURL None) MethodPost
                "/api/v1/learn"
                (Some (LearnBody {| LearnRequest_Output := "User prefers dark mode.";
                                    LearnRequest_Metadata := None |})) "" 0 req
                (Response 200 "{}"))
      as (Hm & _ & Ha & Hc & _)
  end.
  - vm_compute. left. reflexivity.
  - split; [exact Hm | split; [exact Ha | exact Hc]].
Defined.

(** [Health] sends no body and no [Content-Type]. *)
Lemma operation_content_type_witness :
  Header (getRequestOf healthPath "default") !! "Content-Type" = None /\
  (Body (getRequestOf healthPath "default") = None <-> sendsBody (@OpHealth unit) = false) /\
  Header (getRequestOf healthPath "default") !! "Accept" = Some "application/json".
Proof.
  apply (operation_content_type stubLib alwaysOK (NewClient testURL None) OpHealth 0
           (getRequestOf healthPath "default") (Response 200 "{}")).
  vm_compute. left. reflexivity.
Defined.

(** [DeleteMemory] succeeds on any 2xx, and hands no data on. *)
Lemma operation_success_from_2xx_witness :
  fst (invoke stubLib alwaysOK (NewClient testURL None) (OpDeleteMemory 7 None)) = Success "" /\
  exists pre k req statusCode respBody,
    snd (invoke stubLib alwaysOK (NewClient testURL None) (OpDeleteMemory 7 None))
    = pre ++ [EvRoundTrip k req (Response statusCode respBody)] /\
    200 <= statusCode < 300 /\
    (((exists id opts, @OpDeleteMemory unit 7 None = OpDeleteMemory id opts) /\ "" = "")
     \/ ("" = respBody /\ exists t, json_Unmarshal stubLib t respBody = None)).
Proof.
  split; [vm_compute; reflexivity |].
  apply (operation_success_from_2xx stubLib alwaysOK (NewClient testURL None)
           (OpDeleteMemory 7 None) "").
  vm_compute. reflexivity.
Defined.

(** A 200 that cannot be decoded fails the operation after one attempt. *)
Lemma operation_decode_failure_witness :
  fst (invoke undecodableLib alwaysOK (NewClient testURL None) OpHealth)
  = Failure (WrappedError "failed to parse health response"
               (ForeignError "unexpected end of JSON input")) /\
  attempts (snd (invoke undecodableLib alwaysOK (NewClient testURL None) OpHealth)) = 1%nat.
Proof.
  split; [vm_compute; reflexivity |].
  destruct (operation_decode_failure undecodableLib alwaysOK (NewClient testURL None) OpHealth
              (WrappedError "failed to parse health response"
                 (ForeignError "unexpected end of JSON input")))
    as [_ | _]; vm_compute; reflexivity.
Defined.

(** A list request with a limit and a node type. *)
Lemma ListMemories_query_witness :
  exists req out,
    In (EvRoundTrip 0 req out)
       (snd (ListMemories stubLib alwaysOK (NewClient testURL None)
               (Some {| ListMemoriesOptions.NodeType := Some "Entity";
                        ListMemoriesOptions.Limit := Some 10;
                        ListMemoriesOptions.Offset := None;
                        ListMemoriesOptions.Namespace := "" |}))) /\
    URL req = testURL +:+ "/api/v1/memories?limit=10&node_type=Entity" /\
    exists query, URL req = baseURL (NewClient testURL None) +:+ "/api/v1/memories" +:+ query.
Proof.
  do 2 eexists. split; [vm_compute; left; reflexivity |].
  split; [vm_compute; reflexivity |].
  match goal with |- exists query, URL ?req = _ =>
    destruct (ListMemories_query stubLib alwaysOK (NewClient testURL None)
                (Some {| ListMemoriesOptions.NodeType := Some "Entity";
                         ListMemoriesOptions.Limit := Some 10;
                         ListMemoriesOptions.Offset := None;
                         ListMemoriesOptions.Namespace := "" |}) 0 req (Response 200 "{}"))
      as (query & Hurl & _)
  end.
  - vm_compute. left. reflexivity.
  - exists query. exact Hurl.
Defined.

(** A configuration with a negative retry count gets the default of 3:
    at most 4 attempts and 3 waits. *)
Lemma NewClient_call_attempts_witness :
  Z.of_nat (attempts (snd (doRequest stubLib alwaysUnavailable (NewClient testURL (retryOf (-1) 1 1))
                             MethodGet healthPath None ""))) <= 3 + 1 /\
  Z.of_nat (waits (snd (doRequest stubLib alwaysUnavailable (NewClient testURL (retryOf (-1) 1 1))
                          MethodGet healthPath None ""))) <= 3.
Proof.
  destruct (NewClient_call_attempts stubLib alwaysUnavailable testURL (retryOf (-1) 1 1)
              MethodGet healthPath None "") as (H1 & H2 & _).
  - vm_compute. reflexivity.
  - split; [exact H1 | exact H2].
Defined.
